(** * NomadFlow: the calculation core of [script.js]

    A shallow embedding of the currency conversion, lifestyle lookup,
    rate fallback and budget-longevity functions of [script.js], over
    IEEE 754 binary64 numbers, and of the formatters and page handlers
    that call them, followed by the properties of these functions.

    JavaScript numbers are modelled by the Standard Library's
    [spec_float] at precision 53 and maximal exponent 1024, with its
    correctly rounded operations; objects used as tables are finite
    maps from property names to values, read through the prototype
    chain of an object literal ([Object.prototype]). *)

From Stdlib Require Import ZArith Bool List String Ascii Lia.
From Stdlib Require Import Floats.SpecFloat.
From stdpp Require Import base option list gmap strings pretty.

Local Open Scope string_scope.
Local Open Scope Z_scope.

(** ** Numbers *)

Definition prec : Z := 53.
Definition emax : Z := 1024.

(** A JavaScript Number: a binary64 value with a single NaN. *)
Definition number : Type := spec_float.

Definition NaN : number := S754_nan.
Definition Infinity : number := S754_infinity false.

(** The Number denoted by an integer literal. *)
Definition Z2SF (n : Z) : number := binary_normalize prec emax n 0 false.

Definition mul (x y : number) : number := SFmul prec emax x y.
Definition div (x y : number) : number := SFdiv prec emax x y.
Definition sub (x y : number) : number := SFsub prec emax x y.

(** [x <= y]: false as soon as one side is NaN. *)
Definition le (x y : number) : bool := SFleb x y.

(** The global [isFinite] on a Number. *)
Definition isFinite (x : number) : bool :=
  match x with
  | S754_zero _ | S754_finite _ _ _ => true
  | S754_infinity _ | S754_nan => false
  end.

(** [Math.floor]: the greatest integral Number not above [x]; NaN, the
    infinities and the zeros are returned as they are. *)
Definition Math_floor (x : number) : number :=
  match x with
  | S754_finite s m e =>
      if 0 <=? e then x
      else
        let q := Z.shiftr (Zpos m) (- e) in
        if s then
          let c := if Z.shiftl q (- e) =? Zpos m then q else q + 1 in
          binary_normalize prec emax (- c) 0 true
        else binary_normalize prec emax q 0 false
  | _ => x
  end.

(** [Math.round]: the integral Number closest to [x], the one towards
    +Infinity on a tie; a result that rounds to zero from below is -0. *)
Definition Math_round (x : number) : number :=
  match x with
  | S754_finite s m e =>
      if 0 <=? e then x
      else
        let q := Z.shiftr (Zpos m) (- e) in
        let r := Zpos m - Z.shiftl q (- e) in
        let half := Z.shiftl 1 (- e - 1) in
        if s then binary_normalize prec emax (- (if half <? r then q + 1 else q)) 0 true
        else binary_normalize prec emax (if half <=? r then q + 1 else q) 0 false
  | _ => x
  end.

(** [Math.min] of two Numbers: NaN as soon as one of them is NaN, and
    -0 below +0. *)
Definition Math_min (x y : number) : number :=
  match SFcompare x y with
  | None => NaN
  | Some Lt => x
  | Some Gt => y
  | Some Eq => match x with S754_zero true => x | _ => y end
  end.

(** ** Values *)

(** The values the modelled functions receive and return: the primitive
    values, and [VBuiltin k] for the built-in function or object found
    under the name [k] on [Object.prototype]. *)
Inductive value :=
  | VUndefined
  | VNull
  | VBoolean (b : bool)
  | VNumber (x : number)
  | VString (s : string)
  | VBuiltin (name : string).

Inductive error :=
  | Error (message : string)
  | TypeError
  | FetchError.

(** The outcome of a call: a returned value or a thrown one.  For an
    [async] function, [Returns] is a fulfilled promise and [Throws] a
    rejected one. *)
Inductive completion (A : Type) :=
  | Returns (a : A)
  | Throws (e : error).
Arguments Returns {A} a.
Arguments Throws {A} e.

Definition is_lower (c : ascii) : bool :=
  (97 <=? nat_of_ascii c)%nat && (nat_of_ascii c <=? 122)%nat.

Fixpoint has_lower (s : string) : bool :=
  match s with
  | EmptyString => false
  | String c s' => is_lower c || has_lower s'
  end.

(** What the functions use of the host environment and do not define
    themselves: the conversion of a String to a Number, upper-casing,
    which leaves no letter [a]-[z] behind, and the properties of
    primitive values and of built-in objects. *)
Class Host := {
  StringToNumber : string -> number;
  toUpperCase : string -> string;
  toUpperCase_upper : forall s, has_lower (toUpperCase s) = false;
  host_get : value -> string -> value
}.

(** The property names every object literal inherits from
    [Object.prototype]. *)
Definition Object_prototype : list string :=
  [ "constructor"; "hasOwnProperty"; "isPrototypeOf"; "propertyIsEnumerable";
    "toLocaleString"; "toString"; "valueOf"; "__proto__";
    "__defineGetter__"; "__defineSetter__"; "__lookupGetter__"; "__lookupSetter__" ].

(** [o[k]] when [o] has no own property [k]. *)
Definition inherited (k : string) : value :=
  if bool_decide (k ∈ Object_prototype) then VBuiltin k else VUndefined.

(** [o[k]] for an object literal [o] whose own properties are Numbers. *)
Definition get_number (o : gmap string number) (k : string) : value :=
  match o !! k with
  | Some x => VNumber x
  | None => inherited k
  end.

Definition ToBoolean (v : value) : bool :=
  match v with
  | VUndefined | VNull => false
  | VBoolean b => b
  | VNumber (S754_zero _) | VNumber S754_nan => false
  | VNumber _ => true
  | VString s => negb (String.eqb s "")
  | VBuiltin _ => true
  end.

(** [a || b] *)
Definition or_else (a b : value) : value := if ToBoolean a then a else b.

(** [x || 0] on a Number: NaN and the zeros give 0. *)
Definition or_zero (x : number) : number := if ToBoolean (VNumber x) then x else Z2SF 0.

Section Coercion.
Context `{Host}.

(** [Number(v)] *)
Definition Number (v : value) : number :=
  match v with
  | VUndefined => NaN
  | VNull => Z2SF 0
  | VBoolean b => if b then Z2SF 1 else Z2SF 0
  | VNumber x => x
  | VString s => StringToNumber s
  | VBuiltin _ => NaN
  end.

(** [v[k]]: reading a property of [undefined] or [null] throws. *)
Definition get (v : value) (k : string) : completion value :=
  match v with
  | VUndefined | VNull => Throws TypeError
  | _ => Returns (host_get v k)
  end.

End Coercion.

Definition is_digit (c : ascii) : bool :=
  (48 <=? nat_of_ascii c)%nat && (nat_of_ascii c <=? 57)%nat.

(** [s.replace(/[^0-9]/g, '')]: the digits of [s], in their order. *)
Fixpoint digits_only (s : string) : string :=
  match s with
  | EmptyString => EmptyString
  | String c s' => if is_digit c then String c (digits_only s') else digits_only s'
  end.

(** [s.replace(/[^0-9.-]/g, '')]: the digits, dots and dashes of [s]. *)
Fixpoint number_chars (s : string) : string :=
  match s with
  | EmptyString => EmptyString
  | String c s' =>
      if is_digit c || Ascii.eqb c "." || Ascii.eqb c "-" then String c (number_chars s')
      else number_chars s'
  end.

(** [/[^0-9.,]/.test(s)]: [s] has a character other than a digit, a dot
    or a comma. *)
Fixpoint has_non_digits (s : string) : bool :=
  match s with
  | EmptyString => false
  | String c s' => negb (is_digit c || Ascii.eqb c "." || Ascii.eqb c ",") || has_non_digits s'
  end.

(** What the scripts of the page use of the browser besides [Host]:
    the conversion of a value to a String, as in a template literal or
    an assignment to [.value]; the currency formatter
    [new Intl.NumberFormat(locale, { style: 'currency', currency,
    maximumFractionDigits }).format(n)], which can throw; and
    [n.toLocaleString()]. *)
Class Browser := {
  ToString : value -> string;
  NumberFormat : value -> value -> option Z -> number -> completion string;
  toLocaleString : number -> string
}.

(** ** The tables of [script.js] *)

Definition tiers (budget standard highlife : Z) : gmap string number :=
  list_to_map [ ("budget", Z2SF budget); ("standard", Z2SF standard);
                ("highlife", Z2SF highlife) ].

Definition LIFESTYLE_MATRIX : gmap string (gmap string number) :=
  list_to_map
    [ ("VN", tiers 12000000 25000000 60000000);
      ("TH", tiers 25000 50000 120000);
      ("PH", tiers 35000 60000 150000);
      ("ID", tiers 10000000 20000000 50000000);
      ("JP", tiers 180000 350000 800000);
      ("KR", tiers 1500000 2500000 5500000) ].

(** An entry of [COUNTRY_CONFIG]; the flag and the preset buttons, which
    only the page reads, are left out. *)
Record country_config := {
  name : string;
  currency : string;
  currencyName : string;
  locale : string;
  fallbackRate : gmap string number
}.

Definition rates (USD EUR GBP AUD CAD : Z) (RON : number) : gmap string number :=
  list_to_map [ ("USD", Z2SF USD); ("EUR", Z2SF EUR); ("GBP", Z2SF GBP);
                ("AUD", Z2SF AUD); ("CAD", Z2SF CAD); ("RON", RON) ].

Definition COUNTRY_CONFIG : gmap string country_config :=
  list_to_map
    [ ("VN", {| name := "Vietnam"; currency := "VND";
                currencyName := "Vietnamese Dong"; locale := "vi-VN";
                fallbackRate := rates 24500 26500 31000 16000 18000 (Z2SF 5300) |});
      ("TH", {| name := "Thailand"; currency := "THB";
                currencyName := "Thai Baht"; locale := "th-TH";
                fallbackRate := rates 35 38 44 23 26 (div (Z2SF 75) (Z2SF 10)) |});
      ("PH", {| name := "Philippines"; currency := "PHP";
                currencyName := "Philippine Peso"; locale := "en-PH";
                fallbackRate := rates 56 61 71 37 41 (Z2SF 12) |});
      ("ID", {| name := "Indonesia"; currency := "IDR";
                currencyName := "Indonesian Rupiah"; locale := "id-ID";
                fallbackRate := rates 15700 17000 19800 10300 11500 (Z2SF 3400) |});
      ("JP", {| name := "Japan"; currency := "JPY";
                currencyName := "Japanese Yen"; locale := "ja-JP";
                fallbackRate := rates 149 162 188 98 109 (Z2SF 32) |});
      ("KR", {| name := "South Korea"; currency := "KRW";
                currencyName := "Korean Won"; locale := "ko-KR";
                fallbackRate := rates 1320 1430 1670 870 970 (Z2SF 285) |}) ].

(** ** The live rate lookup *)

(** A parsed JSON document. *)
#[warnings="-register-all"]
Inductive json :=
  | JNull
  | JBool (b : bool)
  | JNum (x : number)
  | JStr (s : string)
  | JArr (items : list json)
  | JObj (props : gmap string json).

(** What [resp.json()] settles to. *)
Inductive body :=
  | JsonRejects
  | JsonResolves (data : json).

(** What [fetch(url)] settles to: a rejection, or a response with its
    [ok] flag and its body. *)
Inductive fetch_result :=
  | FetchRejects
  | FetchResolves (ok : bool) (b : body).

Definition json_truthy (d : json) : bool :=
  match d with
  | JNull => false
  | JBool b => b
  | JNum x => ToBoolean (VNumber x)
  | JStr s => negb (String.eqb s "")
  | JArr _ | JObj _ => true
  end.

(** [data.rates]: only an object can have it, no prototype defines it. *)
Definition data_rates (data : json) : option json :=
  match data with
  | JObj props => props !! "rates"
  | _ => None
  end.

Fixpoint digits_value (acc : nat) (s : string) : option nat :=
  match s with
  | EmptyString => Some acc
  | String c s' =>
      let n := nat_of_ascii c in
      if ((48 <=? n) && (n <=? 57))%nat
      then digits_value (10 * acc + (n - 48))%nat s'
      else None
  end.

(** The array index a property name denotes: a decimal numeral without
    a leading zero. *)
Definition array_index (k : string) : option nat :=
  match k with
  | EmptyString => None
  | String "0"%char EmptyString => Some 0%nat
  | String "0"%char _ => None
  | _ => digits_value 0 k
  end.

(** [r[k]] when [typeof r[k] === 'number'], for a parsed value [r]: an
    own numeric member of an object, a numeric element or the length of
    an array, the length of a string. *)
Definition numeric_member (r : json) (k : string) : option number :=
  match r with
  | JObj props =>
      match props !! k with
      | Some (JNum x) => Some x
      | _ => None
      end
  | JArr items =>
      if String.eqb k "length" then Some (Z2SF (Z.of_nat (length items)))
      else match array_index k ≫= (fun i => items !! i) with
           | Some (JNum x) => Some x
           | _ => None
           end
  | JStr s => if String.eqb k "length" then Some (Z2SF (Z.of_nat (String.length s))) else None
  | JNull | JBool _ | JNum _ => None
  end.

(** [data.rates[toCurrency]] when
    [data && data.rates && typeof data.rates[toCurrency] === 'number']. *)
Definition rate_field (data : json) (toCurrency : string) : option number :=
  if json_truthy data then
    match data_rates data with
    | Some r => if json_truthy r then numeric_member r toCurrency else None
    | None => None
    end
  else None.

(** The ways the live lookup fails: the transport fails, the response
    is not ok, its body is not JSON, or the document has no numeric
    rate for the requested currency. *)
Inductive lookup_fails (toCurrency : string) : fetch_result -> Prop :=
  | transport_failure : lookup_fails toCurrency FetchRejects
  | response_not_ok b : lookup_fails toCurrency (FetchResolves false b)
  | body_not_json : lookup_fails toCurrency (FetchResolves true JsonRejects)
  | rate_missing data :
      rate_field data toCurrency = None ->
      lookup_fails toCurrency (FetchResolves true (JsonResolves data)).

(** ** The functions of [script.js] *)

Module NomadFlow.

Section Functions.
Context `{Host}.

(** The [try] block of [fetchExchangeRate]. *)
Definition live_rate (toCurrency : string) (net : fetch_result) : completion value :=
  match net with
  | FetchRejects => Throws FetchError
  | FetchResolves ok b =>
      if negb ok then Throws (Error "Network error")
      else match b with
           | JsonRejects => Throws FetchError
           | JsonResolves data =>
               match rate_field data toCurrency with
               | Some x => Returns (VNumber x)
               | None => Throws (Error "Invalid response")
               end
           end
  end.

(** The [catch] block of [fetchExchangeRate], run with the value the
    global [currentCountry] has at that time. *)
Definition fallback_rate (currentCountry fromCurrency : string) : completion value :=
  match COUNTRY_CONFIG !! currentCountry with
  | Some config =>
      Returns (or_else (get_number (fallbackRate config) (toUpperCase fromCurrency))
                       (get_number (fallbackRate config) "USD"))
  | None =>
      match get (inherited currentCountry) "fallbackRate" with
      | Returns table =>
          match get table (toUpperCase fromCurrency) with
          | Returns a => if ToBoolean a then Returns a else get table "USD"
          | Throws e => Throws e
          end
      | Throws e => Throws e
      end
  end.

Definition fetchExchangeRate (currentCountry fromCurrency toCurrency : string)
    (net : fetch_result) : completion value :=
  match live_rate toCurrency net with
  | Returns rate => Returns rate
  | Throws _ => fallback_rate currentCountry fromCurrency
  end.

Definition convertAmount (amount rate : value) : number :=
  let n := Number amount in
  let r := Number rate in
  if negb (isFinite n) || negb (isFinite r) then Z2SF 0
  else Math_round (mul n r).

Record longevity := {
  months : number;
  years : number;
  remainder : number;
  daysApprox : number
}.

Definition calculateLongevity (budgetLocal monthlyExpense : value) : longevity :=
  let budget := Number budgetLocal in
  let monthly := Number monthlyExpense in
  if negb (isFinite budget) || negb (isFinite monthly) || le monthly (Z2SF 0) then
    {| months := Z2SF 0; years := Z2SF 0; remainder := budget; daysApprox := Z2SF 0 |}
  else
    let monthsFloat := div budget monthly in
    let months := Math_floor monthsFloat in
    let years := Math_floor (div months (Z2SF 12)) in
    let remainder := Math_round (sub budget (mul months monthly)) in
    let dailyExpense := div monthly (Z2SF 30) in
    let daysApprox :=
      Math_floor (div remainder (if ToBoolean (VNumber dailyExpense) then dailyExpense else Z2SF 1)) in
    {| months := months; years := years; remainder := remainder; daysApprox := daysApprox |}.

(** [LIFESTYLE_MATRIX[countryCode]?.[k]] *)
Definition tier (countryCode k : string) : value :=
  match LIFESTYLE_MATRIX !! countryCode with
  | Some amounts => get_number amounts k
  | None =>
      match inherited countryCode with
      | VUndefined => VUndefined
      | builtin => host_get builtin k
      end
  end.

Definition getLifestyleAmount (countryCode lifestyle : string) : value :=
  or_else (or_else (tier countryCode lifestyle) (tier countryCode "standard")) (VNumber (Z2SF 0)).

End Functions.

Section Formatting.
Context `{Host} `{Browser}.

(** A profile that is missing makes [config.locale] throw inside the
    [try] block and [config.currency] throw again inside the [catch]
    block; a name inherited from [Object.prototype] is a profile
    without locale and currency. *)
Definition formatCurrency (amount : value) (countryCode : string) : completion string :=
  let n := or_zero (Number amount) in
  match COUNTRY_CONFIG !! countryCode with
  | Some config =>
      match NumberFormat (VString (locale config)) (VString (currency config)) (Some 0) n with
      | Returns s => Returns s
      | Throws _ => Returns (currency config +:+ " " +:+ toLocaleString n)
      end
  | None =>
      match inherited countryCode with
      | VUndefined => Throws TypeError
      | builtin =>
          match NumberFormat (host_get builtin "locale") (host_get builtin "currency") (Some 0) n with
          | Returns s => Returns s
          | Throws _ => Returns (ToString (host_get builtin "currency") +:+ " " +:+ toLocaleString n)
          end
      end
  end.

End Formatting.

End NomadFlow.

Module BudgetUtils.

Section Functions.
Context `{Host}.

Definition fallback : gmap string number :=
  list_to_map [ ("USD", Z2SF 24000); ("EUR", Z2SF 26000); ("GBP", Z2SF 30000);
                ("AUD", Z2SF 16000); ("CAD", Z2SF 17000) ].

Definition fetchExchangeRate (fromCurrency : string) (net : fetch_result) : completion value :=
  match NomadFlow.live_rate "VND" net with
  | Returns rate => Returns rate
  | Throws _ =>
      Returns (or_else (get_number fallback (toUpperCase fromCurrency)) (VNumber (Z2SF 24000)))
  end.

Definition convertToVND (amount rate : value) : number :=
  let n := Number amount in
  let r := Number rate in
  if negb (isFinite n) || negb (isFinite r) then Z2SF 0
  else Math_round (mul n r).

Record longevity := {
  months : number;
  years : number;
  remainderVND : number;
  daysApprox : number
}.

Definition calculateLongevity (budgetVND monthlyExpenseVND : value) : longevity :=
  let budget := Number budgetVND in
  let monthly := Number monthlyExpenseVND in
  if negb (isFinite budget) || negb (isFinite monthly) || le monthly (Z2SF 0) then
    {| months := Z2SF 0; years := Z2SF 0; remainderVND := budget; daysApprox := Z2SF 0 |}
  else
    let monthsFloat := div budget monthly in
    let months := Math_floor monthsFloat in
    let years := Math_floor (div months (Z2SF 12)) in
    let remainderVND := Math_round (sub budget (mul months monthly)) in
    let dailyExpense := div monthly (Z2SF 30) in
    let daysApprox :=
      Math_floor (div remainderVND (if ToBoolean (VNumber dailyExpense) then dailyExpense else Z2SF 1)) in
    {| months := months; years := years; remainderVND := remainderVND; daysApprox := daysApprox |}.

End Functions.

Section Formatting.
Context `{Host} `{Browser}.

Definition formatVND (amount : value) : completion string :=
  NumberFormat (VString "vi-VN") (VString "VND") None (or_zero (Number amount)).

End Formatting.

End BudgetUtils.

(** ** Handlers

    A handler of a page reads the fields of the form and writes the
    results.  It runs on a state, the page: it leaves a state, and
    returns or throws.  A run of a handler is followed alone, from its
    call to its end, [await]s included. *)

Definition action (S A : Type) : Type := S -> S * completion A.

#[global] Instance action_ret {S} : MRet (action S) := fun A a p => (p, Returns a).

#[global] Instance action_bind {S} : MBind (action S) := fun A B f m p =>
  match m p with
  | (p', Returns a) => f a p'
  | (p', Throws e) => (p', Throws e)
  end.

Definition lift {S A} (c : completion A) : action S A := fun p => (p, c).
Definition read {S A} (f : S -> A) : action S A := fun p => (p, Returns (f p)).
Definition write {S} (f : S -> S) : action S unit := fun p => (f p, Returns tt).

(** A call whose promise is dropped: what it throws does not reach the
    caller. *)
Definition detached {S} (m : action S unit) : action S unit := fun p => (fst (m p), Returns tt).

(** The share of the bar that is filled, [Math.min((months / 6) * 100,
    100)]: six months fill it; and its colour. *)
Definition safetyScore (months : number) : number :=
  Math_min (mul (div months (Z2SF 6)) (Z2SF 100)) (Z2SF 100).

Definition background (safetyScore : number) : string :=
  if le (Z2SF 100) safetyScore then "#34c759"
  else if le (Z2SF 50) safetyScore then "#ffcc00"
  else "#ff3b30".

(** ** The page of [NomadFlow]

    A page is what the handlers read and write: for a field its
    [.value], for the two result elements the text last assigned to
    [textContent] and [innerHTML], for the bar the strings last assigned
    to [fill.style.width] and [fill.style.background].  A run keeps the
    global [currentCountry] it starts with. *)

Module Page.

Record page := {
  currencySelect : string;
  amountInput : string;
  monthlyInput : string;
  rateInput : string;
  localResult : string;
  longevityResult : string;
  fill_width : string;
  fill_background : string
}.

Definition set_monthlyInput (v : string) (p : page) : page :=
  {| currencySelect := currencySelect p; amountInput := amountInput p; monthlyInput := v;
     rateInput := rateInput p; localResult := localResult p;
     longevityResult := longevityResult p; fill_width := fill_width p;
     fill_background := fill_background p |}.

Definition set_rateInput (v : string) (p : page) : page :=
  {| currencySelect := currencySelect p; amountInput := amountInput p;
     monthlyInput := monthlyInput p; rateInput := v; localResult := localResult p;
     longevityResult := longevityResult p; fill_width := fill_width p;
     fill_background := fill_background p |}.

Definition set_localResult (v : string) (p : page) : page :=
  {| currencySelect := currencySelect p; amountInput := amountInput p;
     monthlyInput := monthlyInput p; rateInput := rateInput p; localResult := v;
     longevityResult := longevityResult p; fill_width := fill_width p;
     fill_background := fill_background p |}.

Definition set_longevityResult (v : string) (p : page) : page :=
  {| currencySelect := currencySelect p; amountInput := amountInput p;
     monthlyInput := monthlyInput p; rateInput := rateInput p; localResult := localResult p;
     longevityResult := v; fill_width := fill_width p;
     fill_background := fill_background p |}.

Definition set_fill_width (v : string) (p : page) : page :=
  {| currencySelect := currencySelect p; amountInput := amountInput p;
     monthlyInput := monthlyInput p; rateInput := rateInput p; localResult := localResult p;
     longevityResult := longevityResult p; fill_width := v;
     fill_background := fill_background p |}.

Definition set_fill_background (v : string) (p : page) : page :=
  {| currencySelect := currencySelect p; amountInput := amountInput p;
     monthlyInput := monthlyInput p; rateInput := rateInput p; localResult := localResult p;
     longevityResult := longevityResult p; fill_width := fill_width p;
     fill_background := v |}.

Section Scripts.
Context `{Host} `{Browser}.

(** [COUNTRY_CONFIG[countryCode].currency], as the property name and
    query parameter it is used for. *)
Definition config_currency (countryCode : string) : completion string :=
  match COUNTRY_CONFIG !! countryCode with
  | Some config => Returns (currency config)
  | None =>
      match inherited countryCode with
      | VUndefined => Throws TypeError
      | builtin => Returns (ToString (host_get builtin "currency"))
      end
  end.

Definition runCalculation (currentCountry : string) (net : fetch_result) : action page unit :=
  toCurrency ← lift (config_currency currentCountry);
  fromCurrency ← read currencySelect;
  amount ← read (fun p => or_zero (StringToNumber (amountInput p)));
  monthlyExpense ← read (fun p => or_zero (StringToNumber (digits_only (monthlyInput p))));
  typed ← read (fun p => StringToNumber (rateInput p));
  rate ← (if negb (isFinite typed) || le typed (Z2SF 0) then
            rate ← lift (NomadFlow.fetchExchangeRate currentCountry fromCurrency toCurrency net);
            write (set_rateInput (ToString rate));;
            mret rate
          else mret (VNumber typed));
  let localAmount := NomadFlow.convertAmount (VNumber amount) rate in
  shown ← lift (NomadFlow.formatCurrency (VNumber localAmount) currentCountry);
  write (set_localResult shown);;
  if le monthlyExpense (Z2SF 0) || le localAmount (Z2SF 0) then
    write (set_longevityResult "---");;
    write (set_fill_width "0%");;
    write (set_fill_background "#ff3b30")
  else
    let res := NomadFlow.calculateLongevity (VNumber localAmount) (VNumber monthlyExpense) in
    remaining ← lift (NomadFlow.formatCurrency (VNumber (NomadFlow.remainder res)) currentCountry);
    write (set_longevityResult
             ("Estimated: <strong>" +:+ ToString (VNumber (NomadFlow.months res)) +:+
              " months</strong> (~" +:+ ToString (VNumber (NomadFlow.years res)) +:+
              " years)<br>Remainder: " +:+ remaining +:+
              " (~" +:+ ToString (VNumber (NomadFlow.daysApprox res)) +:+ " days)"));;
    write (set_fill_width (ToString (VNumber (safetyScore (NomadFlow.months res))) +:+ "%"));;
    write (set_fill_background (background (safetyScore (NomadFlow.months res)))).

Definition updateMonthlyFromLifestyle (currentCountry currentLifestyle : string)
    (net : fetch_result) : action page unit :=
  let amount := NomadFlow.getLifestyleAmount currentCountry currentLifestyle in
  write (set_monthlyInput (ToString amount));;
  filled ← read (fun p => negb (String.eqb (amountInput p) ""));
  if filled : bool then detached (runCalculation currentCountry net) else mret tt.

End Scripts.

End Page.

(** ** The page of [BudgetUtils] *)

Module BudgetPage.

(** The elements [attachBudgetUI] and the listener of [#convertBtn] look
    up; each can be missing from the page.  A field holds the string
    last stored in it; the bar holds its width and its background. *)
Record page := {
  currencySelect : option string;
  rateInput : option string;
  amountInput : option string;
  vndResult : option string;
  budgetInput : option string;
  monthlyInput : option string;
  longevityResult : option string;
  fill : option (string * string)
}.

Definition set_rateInput (v : string) (p : page) : page :=
  {| currencySelect := currencySelect p; rateInput := Some v; amountInput := amountInput p;
     vndResult := vndResult p; budgetInput := budgetInput p; monthlyInput := monthlyInput p;
     longevityResult := longevityResult p; fill := fill p |}.

Definition set_vndResult (v : string) (p : page) : page :=
  {| currencySelect := currencySelect p; rateInput := rateInput p; amountInput := amountInput p;
     vndResult := Some v; budgetInput := budgetInput p; monthlyInput := monthlyInput p;
     longevityResult := longevityResult p; fill := fill p |}.

Definition set_longevityResult (v : string) (p : page) : page :=
  {| currencySelect := currencySelect p; rateInput := rateInput p; amountInput := amountInput p;
     vndResult := vndResult p; budgetInput := budgetInput p; monthlyInput := monthlyInput p;
     longevityResult := Some v; fill := fill p |}.

Definition set_fill (width background : string) (p : page) : page :=
  {| currencySelect := currencySelect p; rateInput := rateInput p; amountInput := amountInput p;
     vndResult := vndResult p; budgetInput := budgetInput p; monthlyInput := monthlyInput p;
     longevityResult := longevityResult p; fill := Some (width, background) |}.

(** [if (element) ...]: a write to an element that may be missing. *)
Definition when_present {A} (element : page -> option A) (m : action page unit) : action page unit :=
  fun p => match element p with Some _ => m p | None => (p, Returns tt) end.

Section Scripts.
Context `{Host} `{Browser}.

(** [(currencySelect && currencySelect.value) || 'USD'] *)
Definition selected_currency (p : page) : string :=
  match currencySelect p with
  | Some s => if String.eqb s "" then "USD" else s
  | None => "USD"
  end.

(** [rateInput ? Number(rateInput.value) : NaN] *)
Definition typed_rate (p : page) : number :=
  match rateInput p with
  | Some s => StringToNumber s
  | None => NaN
  end.

(** [doConvert] of [attachBudgetUI]; [undefined] without the amount field. *)
Definition doConvert (net : fetch_result) : action page value :=
  field ← read amountInput;
  match field with
  | None => mret VUndefined
  | Some text =>
      let amount := if String.eqb text "" then Z2SF 0 else StringToNumber text in
      currency ← read selected_currency;
      typed ← read typed_rate;
      rate ← (if negb (isFinite typed) || le typed (Z2SF 0) then
                rate ← lift (BudgetUtils.fetchExchangeRate currency net);
                when_present rateInput
                  (write (set_rateInput (ToString (VNumber (Math_round (Number rate))))));;
                mret rate
              else mret (VNumber typed));
      let vnd := BudgetUtils.convertToVND (VNumber amount) rate in
      when_present vndResult
        (shown ← lift (BudgetUtils.formatVND (VNumber vnd)); write (set_vndResult shown));;
      mret (VNumber vnd)
  end.

(** [doLongevity] of [attachBudgetUI], for the truth values of the two
    options; [None] is the [undefined] it returns when an element is
    missing. *)
Definition doLongevity (treatBudgetAsForeign budgetIsVND : bool) (net : fetch_result) :
    action page (option BudgetUtils.longevity) :=
  fields ← read (fun p => (budgetInput p, monthlyInput p, longevityResult p));
  match fields with
  | (Some budgetRaw, Some monthlyRaw, Some _) =>
      let monthlyVND :=
        let digits := StringToNumber (digits_only monthlyRaw) in
        if ToBoolean (VNumber digits) then digits else or_zero (StringToNumber monthlyRaw) in
      let hasNonDigits := has_non_digits budgetRaw in
      budgetVND ← (if negb hasNonDigits && (treatBudgetAsForeign || negb budgetIsVND) then
                     currency ← read selected_currency;
                     typed ← read typed_rate;
                     rate ← (if negb (isFinite typed) || le typed (Z2SF 0)
                             then lift (BudgetUtils.fetchExchangeRate currency net)
                             else mret (VNumber typed));
                     mret (BudgetUtils.convertToVND (VNumber (StringToNumber budgetRaw)) rate)
                   else mret (or_zero (StringToNumber (number_chars budgetRaw))));
      let res := BudgetUtils.calculateLongevity (VNumber budgetVND) (VNumber monthlyVND) in
      remaining ← lift (BudgetUtils.formatVND (VNumber (BudgetUtils.remainderVND res)));
      write (set_longevityResult
               ("Estimated: <strong>" +:+ ToString (VNumber (BudgetUtils.months res)) +:+
                " months</strong> (~" +:+ ToString (VNumber (BudgetUtils.years res)) +:+
                " years) <br> Remainder: " +:+ remaining +:+
                " (~" +:+ ToString (VNumber (BudgetUtils.daysApprox res)) +:+
                " days at current monthly burn)"));;
      mret (Some res)
  | _ => mret None
  end.

(** The listener that the script adds to [#convertBtn] once the page is
    loaded, followed on its own.  ([attachBudgetUI] adds another one to
    the same button, which calls [doConvert] and drops its promise.)
    A rejection of the promise of the listener is [Throws]. *)
Definition convertClick (net : fetch_result) : action page unit :=
  vndAmount ← doConvert net;
  monthlyVND ← read (fun p => or_zero (StringToNumber (digits_only (default "" (monthlyInput p)))));
  if le monthlyVND (Z2SF 0) || negb (ToBoolean vndAmount) then
    when_present longevityResult (write (set_longevityResult "---"));;
    when_present fill (write (set_fill "0%" "#ff3b30"))
  else
    let res := BudgetUtils.calculateLongevity vndAmount (VNumber monthlyVND) in
    when_present longevityResult
      (remaining ← lift (BudgetUtils.formatVND (VNumber (BudgetUtils.remainderVND res)));
       write (set_longevityResult
                ("Estimated: <strong>" +:+ ToString (VNumber (BudgetUtils.months res)) +:+
                 " months</strong> (~" +:+ ToString (VNumber (BudgetUtils.years res)) +:+
                 " years)<br>Remainder: " +:+ remaining +:+
                 " (~" +:+ ToString (VNumber (BudgetUtils.daysApprox res)) +:+ " days)")));;
    when_present fill
      (write (set_fill (ToString (VNumber (safetyScore (BudgetUtils.months res))) +:+ "%")
                       (background (safetyScore (BudgetUtils.months res))))).

End Scripts.

End BudgetPage.

Section BudgetFormatter.
Context `{Host} `{Browser}.

(** The formatter of [formatVND] does not throw: what the browser gives
    for the locale and the currency of the page. *)
Definition formatter_returns : Prop :=
  forall n, exists s, NumberFormat (VString "vi-VN") (VString "VND") None n = Returns s.

(** The end of [doConvert], once the rate is known. *)
Definition show_vnd (vnd : number) (p : BudgetPage.page) : BudgetPage.page * completion value :=
  match BudgetPage.vndResult p with
  | Some _ =>
      match BudgetUtils.formatVND (VNumber vnd) with
      | Returns shown => (BudgetPage.set_vndResult shown p, Returns (VNumber vnd))
      | Throws e => (p, Throws e)
      end
  | None => (p, Returns (VNumber vnd))
  end.

End BudgetFormatter.

(** ** A small host

    Closed examples are stated over this host: it reads unsigned decimal
    numerals, upper-cases the letters [a]-[z] and finds no property on
    primitive values and built-in objects. *)

Definition upper (c : ascii) : ascii :=
  if is_lower c then ascii_of_nat (nat_of_ascii c - 32) else c.

Fixpoint ascii_upper (s : string) : string :=
  match s with
  | EmptyString => EmptyString
  | String c s' => String (upper c) (ascii_upper s')
  end.

Definition decimal_numeral (s : string) : number :=
  match digits_value 0 s with
  | Some n => Z2SF (Z.of_nat n)
  | None => NaN
  end.

Lemma upper_not_lower c : is_lower (upper c) = false.
Proof.
  destruct c as [[] [] [] [] [] [] [] []]; reflexivity.
Qed.

Lemma ascii_upper_no_lower s : has_lower (ascii_upper s) = false.
Proof.
  induction s as [|c s IH]; simpl; [reflexivity|].
  now rewrite upper_not_lower, IH.
Qed.

Definition ascii_host : Host :=
  {| StringToNumber := decimal_numeral;
     toUpperCase := ascii_upper;
     toUpperCase_upper := ascii_upper_no_lower;
     host_get := fun _ _ => VUndefined |}.

(** A small browser for the closed examples: it prints the integral
    part of a non-negative Number in decimal, and formats an amount as
    its currency code followed by the number. *)
Definition print (v : value) : string :=
  match v with
  | VString s => s
  | VNumber (S754_zero _) => "0"
  | VNumber (S754_finite false m e) =>
      pretty (if e <? 0 then Z.shiftr (Zpos m) (- e) else Z.shiftl (Zpos m) e)
  | VNumber _ => "NaN"
  | _ => "undefined"
  end.

Definition decimal_browser : Browser :=
  {| ToString := print;
     NumberFormat := fun _ currency _ n => Returns (print currency +:+ " " +:+ print (VNumber n));
     toLocaleString := fun n => print (VNumber n) |}.

(** An example page: 1000 dollars at 25 to the dollar, 5,000 a month. *)
Definition example_page : Page.page :=
  {| Page.currencySelect := "USD"; Page.amountInput := "1000"; Page.monthlyInput := "5,000";
     Page.rateInput := "25"; Page.localResult := "0"; Page.longevityResult := "---";
     Page.fill_width := "0%"; Page.fill_background := "" |}.

(** An example page of [BudgetUtils]: 1000 dollars at 25 to the dollar,
    a budget of 30000 VND, 5,000 a month. *)
Definition example_budget_page : BudgetPage.page :=
  {| BudgetPage.currencySelect := Some "USD"; BudgetPage.rateInput := Some "25";
     BudgetPage.amountInput := Some "1000"; BudgetPage.vndResult := Some "";
     BudgetPage.budgetInput := Some "30000 VND"; BudgetPage.monthlyInput := Some "5,000";
     BudgetPage.longevityResult := Some "---"; BudgetPage.fill := Some ("0%", "") |}.

(** * Binary64 arithmetic on whole numbers

    Whole numbers below [2 ^ 53] in absolute value are exactly
    representable; on them multiplication and subtraction are exact as
    long as the result stays in that range, and the floor of a quotient
    is the integer quotient. *)

(** ** Definitions *)

(** The number of binary digits of [p]. *)
Definition dg (p : positive) : Z := Zpos (digits2_pos p).

(** The 53-digit mantissa of the whole number [n]. *)
Definition mant (n : positive) : positive := Pos.shiftl n (Z.to_N (53 - dg n)).

(** The binary64 representation of the whole number [n], with sign [s]. *)
Definition whole (s : bool) (n : positive) : number :=
  S754_finite s (mant n) (dg n - 53).

(** The integer of magnitude [n] and sign [s]. *)
Definition signed (s : bool) (n : positive) : Z := if s then Zneg n else Zpos n.

(** A mantissa with nothing shifted out yet. *)
Definition exact_record (m : Z) : shr_record := {| shr_m := m; shr_r := false; shr_s := false |}.

(** The last step of [binary_round_aux]: a rounded mantissa [N] is
    renormalised when it has reached [2 ^ 53]. *)
Definition finish (s : bool) (N e : Z) : number :=
  let '(mrs, e') := shr_fexp prec emax N e loc_Exact in
  match shr_m mrs with
  | Z0 => S754_zero s
  | Zpos m => if e' <=? emax - prec then S754_finite s m e' else S754_infinity s
  | Zneg _ => S754_nan
  end.

(** Where [r / d] lies in [[0, 1)]: at 0, below, at or above 1/2. *)
Definition location_of (r d : Z) : location :=
  if r =? 0 then loc_Exact else loc_Inexact (2 * r ?= d).

(** The location of a mantissa after one more bit is shifted out. *)
Definition halved (q : Z) (l : location) : location :=
  loc_of_shr_record (shr_1 (shr_record_of_loc q l)).

(** [N] is an integer nearest to [num / den]. *)
Definition nearest (N num den : Z) : Prop :=
  2 * num - den <= 2 * N * den <= 2 * num + den.

(** [W] is within 3/4 of [v * 2 ^ e], stated on integers after scaling
    by [2 ^ t]. *)
Definition close (W v e t : Z) : Prop :=
  - (3 * 2 ^ t) <= 4 * (W * 2 ^ t - v * 2 ^ (e + t)) <= 3 * 2 ^ t.

(** [x] is a Number with sign bit [s] (so not NaN). *)
Definition sign_is (s : bool) (x : number) : Prop :=
  match x with
  | S754_zero s' | S754_finite s' _ _ | S754_infinity s' => s' = s
  | S754_nan => False
  end.

(** A Number without a fractional part: a zero, an infinity, a whole
    number of at most 53 digits, or a Number with a nonnegative exponent. *)
Definition integral (x : number) : Prop :=
  match x with
  | S754_finite s m e => 0 <= e \/ exists n, dg n <= 53 /\ x = whole s n
  | S754_nan => False
  | _ => True
  end.

(** ** Digits and exact rounding *)

Lemma dg_pos p : 1 <= dg p.
Proof. unfold dg. lia. Qed.

(** [p] has exactly [dg p] binary digits. *)
Lemma dg_bounds p : 2 ^ (dg p - 1) <= Zpos p < 2 ^ dg p.
Proof.
  unfold dg. induction p as [p IH | p IH |]; simpl digits2_pos.
  - rewrite Pos2Z.inj_succ. replace (Z.succ (Zpos (digits2_pos p)) - 1) with (Zpos (digits2_pos p) - 1 + 1) by lia.
    rewrite Z.pow_succ_r by lia. rewrite Z.pow_add_r by lia. change (2 ^ 1) with 2. lia.
  - rewrite Pos2Z.inj_succ. replace (Z.succ (Zpos (digits2_pos p)) - 1) with (Zpos (digits2_pos p) - 1 + 1) by lia.
    rewrite Z.pow_succ_r by lia. rewrite Z.pow_add_r by lia. change (2 ^ 1) with 2. lia.
  - simpl. lia.
Qed.

Lemma dg_unique p d : 2 ^ (d - 1) <= Zpos p < 2 ^ d -> dg p = d.
Proof.
  intros [Hlo Hhi]. pose proof (dg_bounds p) as [Blo Bhi]. pose proof (dg_pos p).
  assert (0 <= d) as Hd.
  { destruct (Z_lt_le_dec d 0) as [Hn|]; [|assumption].
    rewrite (Z.pow_neg_r 2 d Hn) in Hhi. lia. }
  destruct (Z_lt_le_dec (dg p) d) as [Hlt|Hge].
  - assert (2 ^ dg p <= 2 ^ (d - 1)) by (apply Z.pow_le_mono_r; lia). lia.
  - destruct (Z_lt_le_dec d (dg p)) as [Hlt|Hge']; [|lia].
    assert (2 ^ d <= 2 ^ (dg p - 1)) by (apply Z.pow_le_mono_r; lia). lia.
Qed.

Lemma fexp_eq x : fexp prec emax x = Z.max (x - 53) (-1074).
Proof. reflexivity. Qed.

Lemma iter_pos_nat {A} (f : A -> A) p x : SpecFloat.iter_pos f p x = Nat.iter (Pos.to_nat p) f x.
Proof.
  revert x. induction p as [p IH | p IH |]; intros x; cbn [SpecFloat.iter_pos].
  - rewrite !IH, Pos2Nat.inj_xI, Nat.iter_succ_r.
    replace (2 * Pos.to_nat p)%nat with (Pos.to_nat p + Pos.to_nat p)%nat by lia.
    now rewrite Nat.iter_add.
  - rewrite !IH, Pos2Nat.inj_xO.
    replace (2 * Pos.to_nat p)%nat with (Pos.to_nat p + Pos.to_nat p)%nat by lia.
    now rewrite Nat.iter_add.
  - reflexivity.
Qed.

Lemma shr_1_double m : 0 <= m -> shr_1 (exact_record (2 * m)) = exact_record m.
Proof.
  intros Hm. destruct m as [|p|p]; try lia; reflexivity.
Qed.

Lemma iter_shr_1_exact n m :
  0 <= m -> Nat.iter n shr_1 (exact_record (m * 2 ^ Z.of_nat n)) = exact_record m.
Proof.
  intros Hm. induction n as [|n IH].
  - simpl. now rewrite Z.mul_1_r.
  - rewrite Nat.iter_succ_r, Nat2Z.inj_succ, Z.pow_succ_r by lia.
    replace (m * (2 * 2 ^ Z.of_nat n)) with (2 * (m * 2 ^ Z.of_nat n)) by lia.
    rewrite shr_1_double; [exact IH|]. apply Z.mul_nonneg_nonneg; [lia|]. apply Z.pow_nonneg. lia.
Qed.

(** Shifting out [j] zero bits loses nothing. *)
Lemma shr_exact m e j :
  0 <= m -> 0 <= j -> shr (exact_record (m * 2 ^ j)) e j = (exact_record m, e + j).
Proof.
  intros Hm Hj. destruct j as [|p|p]; try lia.
  - simpl. now rewrite Z.mul_1_r, Z.add_0_r.
  - unfold shr. rewrite iter_pos_nat. rewrite <- (positive_nat_Z p) at 1.
    now rewrite iter_shr_1_exact.
Qed.

Lemma Zdigits2_pos p : Zdigits2 (Zpos p) = dg p.
Proof. reflexivity. Qed.

Lemma dg_shift p j : 0 <= j -> forall q, Zpos q = Zpos p * 2 ^ j -> dg q = dg p + j.
Proof.
  intros Hj q Hq. apply dg_unique. rewrite Hq.
  pose proof (dg_bounds p) as [Blo Bhi]. pose proof (dg_pos p).
  replace (dg p + j - 1) with (dg p - 1 + j) by lia.
  rewrite !Z.pow_add_r by lia.
  assert (0 < 2 ^ j) by (apply Z.pow_pos_nonneg; lia). nia.
Qed.

(** Rounding a mantissa that is a 53-digit number followed by [j] zero bits. *)
Lemma binary_round_aux_exact s c j e q :
  dg c = 53 -> 0 <= j -> Zpos q = Zpos c * 2 ^ j -> -1074 <= e + j <= 971 ->
  binary_round_aux prec emax s (Zpos q) e loc_Exact = S754_finite s c (e + j).
Proof.
  intros Hc Hj Hq He.
  unfold binary_round_aux, shr_fexp. rewrite Zdigits2_pos, (dg_shift c j Hj q Hq), Hc, fexp_eq.
  replace (Z.max (53 + j + e - 53) (-1074) - e) with j by lia.
  simpl shr_record_of_loc. fold (exact_record (Zpos q)). rewrite Hq.
  rewrite shr_exact by lia. simpl shr_m. simpl loc_of_shr_record. simpl round_nearest_even.
  rewrite Zdigits2_pos, Hc, fexp_eq.
  replace (Z.max (53 + (e + j) - 53) (-1074) - (e + j)) with 0 by lia.
  simpl. unfold emax, prec.
  replace (e + j <=? 1024 - 53) with true by (symmetry; apply Z.leb_le; lia). reflexivity.
Qed.

Lemma pos_iter_xO p d : Zpos (Pos.iter xO p d) = Zpos p * 2 ^ Zpos d.
Proof.
  induction d as [|d IH] using Pos.peano_ind.
  - simpl. lia.
  - rewrite Pos.iter_succ, Pos2Z.inj_xO, IH, Pos2Z.inj_succ, Z.pow_succ_r by lia. lia.
Qed.

Lemma mant_eq n : dg n <= 53 -> Zpos (mant n) = Zpos n * 2 ^ (53 - dg n).
Proof.
  intros Hn. unfold mant. destruct (53 - dg n) as [|d|d] eqn:E; try lia.
  - cbn [Z.to_N Pos.shiftl]. now rewrite Z.pow_0_r, Z.mul_1_r.
  - cbn [Z.to_N Pos.shiftl]. apply pos_iter_xO.
Qed.

Lemma dg_mant n : dg n <= 53 -> dg (mant n) = 53.
Proof.
  intros Hn. pose proof (dg_pos n).
  rewrite (dg_shift n (53 - dg n)); [lia | lia | now apply mant_eq].
Qed.

(** Rounding [n * 2 ^ k] at exponent [- k] gives the whole number [n]. *)
Lemma binary_round_whole s P n k :
  0 <= k -> Zpos P = Zpos n * 2 ^ k -> dg n <= 53 ->
  binary_round prec emax s P (- k) = whole s n.
Proof.
  intros Hk HP Hn. pose proof (dg_pos n) as Hd.
  pose proof (mant_eq n Hn) as Hc. pose proof (dg_mant n Hn) as Hdc.
  unfold binary_round. fold (dg P). rewrite (dg_shift n k Hk P HP), fexp_eq.
  replace (Z.max (dg n + k + - k - 53) (-1074)) with (dg n - 53) by lia.
  unfold shl_align. destruct (dg n - 53 - - k) as [|d|d] eqn:E.
  - rewrite (binary_round_aux_exact s (mant n) 0 (- k) P); try lia.
    + unfold whole. fold (mant n). f_equal. lia.
    + rewrite Hc, HP. replace (53 - dg n) with k by lia. lia.
  - rewrite (binary_round_aux_exact s (mant n) (Zpos d) (- k) P); try lia.
    + unfold whole. fold (mant n). f_equal. lia.
    + rewrite Hc, HP, <- E. rewrite <- Z.mul_assoc, <- Z.pow_add_r by lia. f_equal. f_equal. lia.
  - assert (Pos.iter xO P d = mant n) as ->.
    { apply Pos2Z.inj. rewrite pos_iter_xO, Hc, HP. rewrite <- Z.mul_assoc, <- Z.pow_add_r by lia.
      f_equal. f_equal. lia. }
    rewrite (binary_round_aux_exact s (mant n) 0 (dg n - 53) (mant n)); try lia.
    unfold whole. fold (mant n). f_equal. lia.
Qed.

(** A whole number below [2 ^ 53] is represented exactly. *)
Lemma Z2SF_pos n : dg n <= 53 -> Z2SF (Zpos n) = whole false n.
Proof.
  intros Hn. unfold Z2SF, binary_normalize. apply (binary_round_whole false n n 0); try lia.
Qed.

Lemma Z2SF_neg n : dg n <= 53 -> Z2SF (Zneg n) = whole true n.
Proof.
  intros Hn. unfold Z2SF, binary_normalize. apply (binary_round_whole true n n 0); try lia.
Qed.

Lemma dg_le_53 n : Zpos n < 2 ^ 53 <-> dg n <= 53.
Proof.
  pose proof (dg_bounds n) as [Blo Bhi]. pose proof (dg_pos n). split; intros Hn.
  - destruct (Z_lt_le_dec 53 (dg n)) as [Hgt|]; [|lia].
    assert (2 ^ 53 <= 2 ^ (dg n - 1)) by (apply Z.pow_le_mono_r; lia). lia.
  - assert (2 ^ dg n <= 2 ^ 53) by (apply Z.pow_le_mono_r; lia). lia.
Qed.

Lemma whole_unfold s n : whole s n = S754_finite s (mant n) (dg n - 53).
Proof. reflexivity. Qed.

Lemma dg_mul_lower a b : dg a + dg b - 1 <= dg (a * b).
Proof.
  pose proof (dg_bounds a) as [La Ha]. pose proof (dg_bounds b) as [Lb Hb].
  pose proof (dg_bounds (a * b)) as [Lab Hab]. pose proof (dg_pos a). pose proof (dg_pos b).
  destruct (Z_lt_le_dec (dg (a * b)) (dg a + dg b - 1)) as [Hlt|]; [|assumption].
  assert (2 ^ dg (a * b) <= 2 ^ (dg a - 1 + (dg b - 1))) as Hle by (apply Z.pow_le_mono_r; lia).
  rewrite Z.pow_add_r in Hle by lia. rewrite Pos2Z.inj_mul in Hab. nia.
Qed.

(** The product of two whole numbers is exact when it is below [2 ^ 53]. *)
Lemma mul_whole sa sb a b :
  dg (a * b) <= 53 -> mul (whole sa a) (whole sb b) = whole (xorb sa sb) (a * b).
Proof.
  intros Hab. pose proof (dg_mul_lower a b) as Hlow.
  pose proof (dg_pos a). pose proof (dg_pos b).
  assert (dg a <= 53) as Ha by lia. assert (dg b <= 53) as Hb by lia.
  unfold mul. rewrite !whole_unfold. cbn [SFmul].
  rewrite (binary_round_aux_exact _ (mant (a * b)) (53 + dg (a * b) - dg a - dg b) _ (mant a * mant b));
    [f_equal; lia | now apply dg_mant | lia | | lia].
  rewrite Pos2Z.inj_mul, !mant_eq, Pos2Z.inj_mul by assumption.
  replace (Zpos a * 2 ^ (53 - dg a) * (Zpos b * 2 ^ (53 - dg b)))
    with (Zpos a * Zpos b * (2 ^ (53 - dg a) * 2 ^ (53 - dg b))) by lia.
  rewrite <- !Z.mul_assoc, <- !Z.pow_add_r by lia. f_equal. f_equal. f_equal. lia.
Qed.

Lemma shl_align_fst mx ex ez :
  ez <= ex -> Zpos (fst (shl_align mx ex ez)) = Zpos mx * 2 ^ (ex - ez).
Proof.
  intros Hle. unfold shl_align. destruct (ez - ex) as [|d|d] eqn:E; try lia.
  - replace (ex - ez) with 0 by lia. simpl fst. now rewrite Z.pow_0_r, Z.mul_1_r.
  - simpl fst. rewrite pos_iter_xO. f_equal. f_equal. lia.
Qed.

Lemma binary_normalize_whole m k n :
  0 <= k -> m = n * 2 ^ k -> -(2 ^ 53) < n < 2 ^ 53 ->
  binary_normalize prec emax m (- k) false = Z2SF n.
Proof.
  intros Hk -> Hn. assert (0 < 2 ^ k) as Hpow by (apply Z.pow_pos_nonneg; lia).
  destruct n as [|n|n].
  - reflexivity.
  - destruct (Zpos n * 2 ^ k) as [|P|P] eqn:E; try lia.
    rewrite Z2SF_pos by (apply dg_le_53; lia).
    unfold binary_normalize. apply binary_round_whole; [lia | lia | apply dg_le_53; lia].
  - destruct (Zneg n * 2 ^ k) as [|P|P] eqn:E; try lia.
    rewrite Z2SF_neg by (apply dg_le_53; lia).
    unfold binary_normalize. apply binary_round_whole; [lia | lia | apply dg_le_53; lia].
Qed.

Lemma Z2SF_signed s n : dg n <= 53 -> Z2SF (signed s n) = whole s n.
Proof. destruct s; [apply Z2SF_neg | apply Z2SF_pos]. Qed.

(** So is their difference. *)
Lemma sub_whole sa sb a b :
  dg a <= 53 -> dg b <= 53 -> -(2 ^ 53) < signed sa a - signed sb b < 2 ^ 53 ->
  sub (whole sa a) (whole sb b) = Z2SF (signed sa a - signed sb b).
Proof.
  intros Ha Hb Hd. pose proof (dg_pos a). pose proof (dg_pos b).
  unfold sub. rewrite !whole_unfold. cbn [SFsub].
  set (ez := Z.min (dg a - 53) (dg b - 53)).
  rewrite !shl_align_fst by lia. rewrite !mant_eq by assumption.
  replace ez with (- (- ez)) at 3 by lia.
  apply binary_normalize_whole; [lia | | assumption].
  assert (forall s n x, cond_Zopp s (Zpos n * x) = signed s n * x) as Hc
    by (intros [] ? ?; unfold cond_Zopp, signed; lia).
  rewrite <- !Z.mul_assoc, !Hc, <- !Z.pow_add_r by lia.
  replace (53 - dg a + (dg a - 53 - ez)) with (- ez) by lia.
  replace (53 - dg b + (dg b - 53 - ez)) with (- ez) by lia. lia.
Qed.

Lemma mant_shiftr n : dg n <= 53 -> Z.shiftr (Zpos (mant n)) (- (dg n - 53)) = Zpos n.
Proof.
  intros Hn. rewrite Z.shiftr_div_pow2 by lia. rewrite mant_eq by assumption.
  replace (- (dg n - 53)) with (53 - dg n) by lia.
  apply Z.div_mul. apply Z.pow_nonzero; lia.
Qed.

(** A whole number is its own rounding and its own floor. *)
Lemma Math_round_whole s n : dg n <= 53 -> Math_round (whole s n) = whole s n.
Proof.
  intros Hn. rewrite whole_unfold. unfold Math_round.
  destruct (Z.leb_spec 0 (dg n - 53)) as [|Hneg]; [reflexivity|].
  cbv zeta. rewrite mant_shiftr by assumption.
  rewrite (Z.shiftl_mul_pow2 (Zpos n)) by lia. replace (- (dg n - 53)) with (53 - dg n) by lia.
  rewrite <- mant_eq by assumption. rewrite Z.sub_diag.
  assert (0 < Z.shiftl 1 (53 - dg n - 1)) as Hhalf.
  { rewrite Z.shiftl_1_l. apply Z.pow_pos_nonneg; lia. }
  destruct (Z.ltb_spec (Z.shiftl 1 (53 - dg n - 1)) 0); [lia|].
  destruct (Z.leb_spec (Z.shiftl 1 (53 - dg n - 1)) 0); [lia|].
  destruct s.
  - change (binary_normalize prec emax (- Zpos n) 0 true) with (binary_round prec emax true n (- 0)).
    rewrite (binary_round_whole true n n 0); [reflexivity | lia | lia | assumption].
  - change (binary_normalize prec emax (Zpos n) 0 false) with (binary_round prec emax false n (- 0)).
    rewrite (binary_round_whole false n n 0); [reflexivity | lia | lia | assumption].
Qed.

Lemma Math_floor_whole s n : dg n <= 53 -> Math_floor (whole s n) = whole s n.
Proof.
  intros Hn. rewrite whole_unfold. unfold Math_floor.
  destruct (Z.leb_spec 0 (dg n - 53)) as [|Hneg]; [reflexivity|].
  cbv zeta. rewrite mant_shiftr by assumption.
  rewrite (Z.shiftl_mul_pow2 (Zpos n)) by lia. replace (- (dg n - 53)) with (53 - dg n) by lia.
  rewrite <- mant_eq by assumption. rewrite Z.eqb_refl.
  destruct s.
  - change (binary_normalize prec emax (- Zpos n) 0 true) with (binary_round prec emax true n (- 0)).
    rewrite (binary_round_whole true n n 0); [reflexivity | lia | lia | assumption].
  - change (binary_normalize prec emax (Zpos n) 0 false) with (binary_round prec emax false n (- 0)).
    rewrite (binary_round_whole false n n 0); [reflexivity | lia | lia | assumption].
Qed.

Lemma Math_round_Z2SF n : - 2 ^ 53 < n < 2 ^ 53 -> Math_round (Z2SF n) = Z2SF n.
Proof.
  intros Hn. destruct n as [|n|n]; [reflexivity | |].
  - rewrite Z2SF_pos by (apply dg_le_53; lia). apply Math_round_whole. apply dg_le_53; lia.
  - rewrite Z2SF_neg by (apply dg_le_53; lia). apply Math_round_whole. apply dg_le_53; lia.
Qed.

Lemma Math_floor_Z2SF n : - 2 ^ 53 < n < 2 ^ 53 -> Math_floor (Z2SF n) = Z2SF n.
Proof.
  intros Hn. destruct n as [|n|n]; [reflexivity | |].
  - rewrite Z2SF_pos by (apply dg_le_53; lia). apply Math_floor_whole. apply dg_le_53; lia.
  - rewrite Z2SF_neg by (apply dg_le_53; lia). apply Math_floor_whole. apply dg_le_53; lia.
Qed.

(** The same facts on integer literals. *)
Lemma mul_Z2SF x y :
  0 <= x < 2 ^ 53 -> 0 <= y < 2 ^ 53 -> x * y < 2 ^ 53 ->
  mul (Z2SF x) (Z2SF y) = Z2SF (x * y).
Proof.
  intros Hx Hy Hxy. destruct x as [|a|a]; try lia; destruct y as [|b|b]; try lia.
  - reflexivity.
  - rewrite (Z2SF_pos b) by (apply dg_le_53; lia). reflexivity.
  - rewrite (Z2SF_pos a) by (apply dg_le_53; lia). reflexivity.
  - assert (dg (a * b) <= 53) as Hab by (apply dg_le_53; rewrite Pos2Z.inj_mul; lia).
    pose proof (dg_mul_lower a b). pose proof (dg_pos a). pose proof (dg_pos b).
    rewrite (Z2SF_pos a), (Z2SF_pos b) by lia. rewrite mul_whole by assumption.
    simpl xorb. rewrite <- Pos2Z.inj_mul. now rewrite Z2SF_pos.
Qed.

Lemma sub_Z2SF x y :
  - 2 ^ 53 < x < 2 ^ 53 -> - 2 ^ 53 < y < 2 ^ 53 -> - 2 ^ 53 < x - y < 2 ^ 53 ->
  sub (Z2SF x) (Z2SF y) = Z2SF (x - y).
Proof.
  intros Hx Hy Hxy.
  assert (forall n, Zpos n < 2 ^ 53 -> Z2SF (Zpos n) = whole false n) as Hp
    by (intros n Hn; apply Z2SF_pos; now apply dg_le_53).
  assert (forall n, Zpos n < 2 ^ 53 -> Z2SF (Zneg n) = whole true n) as Hn
    by (intros n Hn; apply Z2SF_neg; now apply dg_le_53).
  destruct x as [|a|a]; destruct y as [|b|b]; try reflexivity.
  - change (0 - Zpos b) with (Zneg b). rewrite Hp, Hn by lia. reflexivity.
  - change (0 - Zneg b) with (Zpos b). rewrite Hp, Hn by lia. reflexivity.
  - rewrite Z.sub_0_r, Hp by lia. reflexivity.
  - rewrite (Hp a), (Hp b) by lia.
    apply (sub_whole false false); try (apply dg_le_53; lia). exact Hxy.
  - rewrite (Hp a), (Hn b) by lia.
    apply (sub_whole false true); try (apply dg_le_53; lia). exact Hxy.
  - rewrite Z.sub_0_r, Hn by lia. reflexivity.
  - rewrite (Hn a), (Hp b) by lia.
    apply (sub_whole true false); try (apply dg_le_53; lia). exact Hxy.
  - rewrite (Hn a), (Hn b) by lia.
    apply (sub_whole true true); try (apply dg_le_53; lia). exact Hxy.
Qed.

(** ** Division *)

Lemma div_eucl_div_mod a b : Z.div_eucl a b = (a / b, a mod b).
Proof. unfold Z.div, Z.modulo. now destruct (Z.div_eucl a b). Qed.

(** The location [SFdiv] computes for a remainder [r] of a division by [nb]. *)
Lemma new_location_spec nb r :
  0 < nb -> 0 <= r < nb ->
  new_location nb r = if r =? 0 then loc_Exact else loc_Inexact (2 * r ?= nb).
Proof.
  intros Hnb Hr. unfold new_location. destruct (Z.even nb) eqn:Heven.
  - reflexivity.
  - unfold new_location_odd. destruct (r =? 0); [reflexivity|]. f_equal.
    rewrite <- Z.negb_odd in Heven. apply negb_false_iff in Heven.
    apply Z.odd_spec in Heven as [t Ht].
    destruct (Z.compare_spec (2 * r + 1) nb), (Z.compare_spec (2 * r) nb); (reflexivity || lia).
Qed.

Lemma binary_round_aux_finish s m e l :
  binary_round_aux prec emax s m e l =
  let '(mrs, e') := shr_fexp prec emax m e l in
  finish s (round_nearest_even (shr_m mrs) (loc_of_shr_record mrs)) e'.
Proof. reflexivity. Qed.

Lemma finish_53 s N e :
  dg N = 53 -> -1074 <= e <= 971 -> finish s (Zpos N) e = S754_finite s N e.
Proof.
  intros HN He. unfold finish, shr_fexp. rewrite Zdigits2_pos, HN, fexp_eq.
  replace (Z.max (53 + e - 53) (-1074) - e) with 0 by lia. simpl.
  unfold emax, prec. replace (e <=? 1024 - 53) with true by (symmetry; apply Z.leb_le; lia).
  reflexivity.
Qed.

Lemma finish_pow53 s e :
  -1075 <= e <= 970 -> finish s (2 ^ 53) e = S754_finite s (2 ^ 52)%positive (e + 1).
Proof.
  intros He. unfold finish, shr_fexp. change (Zdigits2 (2 ^ 53)) with 54. rewrite fexp_eq.
  replace (Z.max (54 + e - 53) (-1074) - e) with 1 by lia. simpl.
  unfold emax, prec. replace (e + 1 <=? 1024 - 53) with true by (symmetry; apply Z.leb_le; lia).
  reflexivity.
Qed.

Lemma loc_of_shr_record_of_loc m l : loc_of_shr_record (shr_record_of_loc m l) = l.
Proof. destruct l as [|[]]; reflexivity. Qed.

Lemma shr_m_record_of_loc m l : shr_m (shr_record_of_loc m l) = m.
Proof. destruct l as [|[]]; reflexivity. Qed.

Lemma binary_round_aux_53 s q e l :
  dg q = 53 -> -1074 <= e ->
  binary_round_aux prec emax s (Zpos q) e l = finish s (round_nearest_even (Zpos q) l) e.
Proof.
  intros Hq He. rewrite binary_round_aux_finish. unfold shr_fexp at 1.
  rewrite Zdigits2_pos, Hq, fexp_eq.
  replace (Z.max (53 + e - 53) (-1074) - e) with 0 by lia.
  cbn [shr]. now rewrite loc_of_shr_record_of_loc, shr_m_record_of_loc.
Qed.

Lemma shr_1_m q l : 0 <= q -> shr_m (shr_1 (shr_record_of_loc q l)) = q / 2.
Proof.
  intros Hq. destruct q as [|p|p]; try lia.
  - destruct l as [|[]]; reflexivity.
  - destruct p as [p|p|]; destruct l as [|[]]; cbn [shr_record_of_loc shr_1 shr_m].
    all: try (rewrite Pos2Z.inj_xI; apply Z.div_unique with 1; lia).
    all: try (rewrite Pos2Z.inj_xO; apply Z.div_unique with 0; lia).
    all: reflexivity.
Qed.

Lemma binary_round_aux_54 s q e l :
  dg q = 54 -> -1075 <= e ->
  binary_round_aux prec emax s (Zpos q) e l =
  finish s (round_nearest_even (Zpos q / 2) (halved (Zpos q) l)) (e + 1).
Proof.
  intros Hq He. rewrite binary_round_aux_finish. unfold shr_fexp at 1.
  rewrite Zdigits2_pos, Hq, fexp_eq.
  replace (Z.max (54 + e - 53) (-1074) - e) with 1 by lia.
  cbn [shr SpecFloat.iter_pos]. rewrite shr_1_m by lia. reflexivity.
Qed.

(** Rounding a quotient by its location gives an integer nearest to it. *)
Lemma round_nearest_even_nearest T d :
  0 < d -> 0 <= T ->
  let N := round_nearest_even (T / d) (location_of (T mod d) d) in
  T / d <= N <= T / d + 1 /\ nearest N T d.
Proof.
  intros Hd HT. pose proof (Z.div_mod T d ltac:(lia)) as Hdiv.
  pose proof (Z.mod_pos_bound T d Hd) as Hr.
  unfold location_of, nearest. destruct (Z.eqb_spec (T mod d) 0) as [E|E]; cbn [round_nearest_even].
  - cbv zeta. nia.
  - destruct (Z.compare_spec (2 * (T mod d)) d); cbn [round_nearest_even]; cbv zeta;
      try destruct (Z.even (T / d)); nia.
Qed.

Lemma halved_spec q l :
  0 <= q ->
  halved q l =
  match Z.odd q, l with
  | false, loc_Exact => loc_Exact
  | false, loc_Inexact _ => loc_Inexact Lt
  | true, loc_Exact => loc_Inexact Eq
  | true, loc_Inexact _ => loc_Inexact Gt
  end.
Proof.
  intros Hq. destruct q as [|p|p]; try lia.
  - destruct l as [|[]]; reflexivity.
  - destruct p; destruct l as [|[]]; reflexivity.
Qed.

Lemma round_nearest_even_halved T d :
  0 < d -> 0 <= T ->
  let N := round_nearest_even (T / d / 2) (halved (T / d) (location_of (T mod d) d)) in
  T / d / 2 <= N <= T / d / 2 + 1 /\ nearest N T (2 * d).
Proof.
  intros Hd HT. pose proof (Z.div_mod T d ltac:(lia)) as Hdiv.
  pose proof (Z.mod_pos_bound T d Hd) as Hr.
  assert (0 <= T / d) as Hq by (apply Z.div_pos; lia).
  pose proof (Z.div_mod (T / d) 2 ltac:(lia)) as Hhalf.
  pose proof (Z.mod_pos_bound (T / d) 2 ltac:(lia)) as Hc.
  rewrite halved_spec by assumption. rewrite Zodd_mod.
  unfold location_of, nearest.
  destruct (Z.eqb_spec (T / d mod 2) 1) as [Ec|Ec];
    destruct (Z.eqb_spec (T mod d) 0) as [E|E]; cbn [round_nearest_even]; cbv zeta;
    try destruct (Z.even (T / d / 2)); nia.
Qed.

(** Dividing two 53-digit mantissas: the quotient has 53 or 54 digits. *)
Lemma div_core_53 ma ea mb eb :
  dg ma = 53 -> dg mb = 53 -> -1021 <= ea - eb ->
  SFdiv_core_binary prec emax (Zpos ma) ea (Zpos mb) eb =
  ((Zpos ma * 2 ^ 53) / Zpos mb, ea - eb - 53,
   location_of ((Zpos ma * 2 ^ 53) mod Zpos mb) (Zpos mb)).
Proof.
  intros Ha Hb He. unfold SFdiv_core_binary. rewrite !Zdigits2_pos, Ha, Hb, fexp_eq.
  replace (Z.min (Z.max (53 + ea - (53 + eb) - 53) (-1074)) (ea - eb)) with (ea - eb - 53) by lia.
  replace (ea - eb - (ea - eb - 53)) with 53 by lia. cbv zeta. cbv iota.
  rewrite Z.shiftl_mul_pow2 by lia. rewrite div_eucl_div_mod.
  rewrite new_location_spec; [reflexivity | lia | apply Z.mod_pos_bound; lia].
Qed.

Lemma quotient_range ma mb :
  dg ma = 53 -> dg mb = 53 ->
  2 ^ 52 <= (Zpos ma * 2 ^ 53) / Zpos mb < 2 ^ 54.
Proof.
  intros Ha Hb. pose proof (dg_bounds ma) as Ba. pose proof (dg_bounds mb) as Bb.
  rewrite Ha in Ba. rewrite Hb in Bb. change (53 - 1) with 52 in *. split.
  - apply Z.div_le_lower_bound; [lia|]. change (2 ^ 53) with (2 * 2 ^ 52) in *. nia.
  - apply Z.div_lt_upper_bound; [lia|]. change (2 ^ 54) with (2 * 2 ^ 53) in *.
    change (2 ^ 53) with (2 * 2 ^ 52) in *. nia.
Qed.

(** The quotient of two whole numbers: its mantissa [N] is an integer
    nearest to the exact quotient of the mantissas, scaled to 53 digits. *)
Lemma div_whole sa sb a b :
  dg a <= 53 -> dg b <= 53 ->
  exists N t,
    (t = 0 \/ t = 1) /\ 2 ^ 52 <= N <= 2 ^ 53 /\
    nearest N (Zpos (mant a) * 2 ^ 53) (2 ^ t * Zpos (mant b)) /\
    div (whole sa a) (whole sb b) = finish (xorb sa sb) N (dg a - dg b - 53 + t).
Proof.
  intros Ha Hb. pose proof (dg_pos a). pose proof (dg_pos b).
  pose proof (dg_mant a Ha) as Hma. pose proof (dg_mant b Hb) as Hmb.
  unfold div. rewrite !whole_unfold. cbn [SFdiv].
  rewrite div_core_53 by (assumption || lia).
  pose proof (quotient_range (mant a) (mant b) Hma Hmb) as Hq.
  set (T := Zpos (mant a) * 2 ^ 53) in *. set (d := Zpos (mant b)) in *.
  assert (0 <= T) as HT by (subst T; lia). assert (0 < d) as Hd by (subst d; lia).
  destruct (T / d) as [|q|q] eqn:Eq; try lia.
  destruct (Z_lt_le_dec (Zpos q) (2 ^ 53)) as [Hlt|Hge].
  - assert (dg q = 53) as Hdq by (apply dg_unique; change (53 - 1) with 52; lia).
    rewrite binary_round_aux_53 by (assumption || lia).
    pose proof (round_nearest_even_nearest T d Hd HT) as HN. cbv zeta in HN. rewrite Eq in HN.
    exists (round_nearest_even (Zpos q) (location_of (T mod d) d)), 0.
    rewrite Z.pow_0_r, Z.mul_1_l, Z.add_0_r.
    replace (dg a - 53 - (dg b - 53) - 53) with (dg a - dg b - 53) by lia.
    split; [left; reflexivity|]. split; [lia|]. split; [exact (proj2 HN)|reflexivity].
  - assert (dg q = 54) as Hdq by (apply dg_unique; change (54 - 1) with 53; lia).
    rewrite binary_round_aux_54 by (assumption || lia).
    pose proof (round_nearest_even_halved T d Hd HT) as HN. cbv zeta in HN. rewrite Eq in HN.
    exists (round_nearest_even (Zpos q / 2) (halved (Zpos q) (location_of (T mod d) d))), 1.
    change (2 ^ 1) with 2.
    replace (dg a - 53 - (dg b - 53) - 53 + 1) with (dg a - dg b - 53 + 1) by lia.
    assert (2 ^ 52 <= Zpos q / 2 < 2 ^ 53) as Hh.
    { split; [apply Z.div_le_lower_bound | apply Z.div_lt_upper_bound]; lia. }
    split; [right; reflexivity|]. split; [lia|]. split; [exact (proj2 HN)|reflexivity].
Qed.

Lemma finish_range s N e :
  2 ^ 52 <= N <= 2 ^ 53 -> -1074 <= e <= 970 ->
  finish s N e =
  if N =? 2 ^ 53 then S754_finite s (2 ^ 52)%positive (e + 1)
  else S754_finite s (Z.to_pos N) e.
Proof.
  intros HN He. destruct (Z.eqb_spec N (2 ^ 53)) as [->|Hne].
  - apply finish_pow53. lia.
  - destruct N as [|p|p]; try lia. apply finish_53; [|lia].
    apply dg_unique. change (53 - 1) with 52. lia.
Qed.

Lemma whole_53 s p : dg p = 53 -> whole s p = S754_finite s p 0.
Proof.
  intros Hp. unfold whole, mant. rewrite Hp. reflexivity.
Qed.

Lemma Math_floor_finish N k :
  2 ^ 52 <= N <= 2 ^ 53 -> 0 <= k <= 1074 -> N / 2 ^ k < 2 ^ 53 ->
  Math_floor (finish false N (- k)) = Z2SF (N / 2 ^ k).
Proof.
  intros HN Hk Hlt. rewrite finish_range by lia.
  destruct (Z.eqb_spec N (2 ^ 53)) as [->|Hne].
  - destruct (Z.eq_dec k 0) as [->|Hk0]; [rewrite Z.pow_0_r, Z.div_1_r in Hlt; lia|].
    assert (2 ^ 53 / 2 ^ k = 2 ^ 52 / 2 ^ (k - 1)) as ->.
    { replace k with (1 + (k - 1)) at 1 by lia. rewrite Z.pow_add_r by lia.
      change (2 ^ 53) with (2 ^ 1 * 2 ^ 52). apply Z.div_mul_cancel_l; [|lia].
      apply Z.pow_nonzero; lia. }
    unfold Math_floor. destruct (Z.leb_spec 0 (- k + 1)).
    + replace (k - 1) with 0 by lia. replace (- k + 1) with 0 by lia. reflexivity.
    + rewrite Z.shiftr_div_pow2 by lia. replace (- (- k + 1)) with (k - 1) by lia. reflexivity.
  - destruct N as [|p|p]; try lia. cbn [Z.to_pos].
    assert (dg p = 53) as Hp by (apply dg_unique; change (53 - 1) with 52; lia).
    unfold Math_floor. destruct (Z.leb_spec 0 (- k)).
    + replace k with 0 by lia. rewrite Z.pow_0_r, Z.div_1_r. replace (- 0) with 0 by lia.
      rewrite Z2SF_pos by lia. now rewrite whole_53.
    + rewrite Z.shiftr_div_pow2 by lia. rewrite Z.opp_involutive. reflexivity.
Qed.

Lemma nearest_scale N a b k t da db :
  0 <= t -> 0 <= 53 - da -> 0 <= 53 - db -> k = 53 - da + db - t -> 0 <= k ->
  nearest N (a * 2 ^ (53 - da) * 2 ^ 53) (2 ^ t * (b * 2 ^ (53 - db))) ->
  nearest N (a * 2 ^ k) b.
Proof.
  intros Ht Hda Hdb -> Hk. unfold nearest.
  assert (2 ^ (53 - da) * 2 ^ 53 = 2 ^ (53 - da + db - t) * (2 ^ t * 2 ^ (53 - db))) as E.
  { rewrite <- !Z.pow_add_r by lia. f_equal. lia. }
  assert (0 < 2 ^ t * 2 ^ (53 - db)) as Hpos.
  { apply Z.mul_pos_pos; apply Z.pow_pos_nonneg; lia. }
  set (Y := 2 ^ t * 2 ^ (53 - db)) in *. set (P := 2 ^ (53 - da + db - t)) in *.
  replace (a * 2 ^ (53 - da) * 2 ^ 53) with (a * P * Y) by (rewrite <- !Z.mul_assoc, E; lia).
  replace (2 ^ t * (b * 2 ^ (53 - db))) with (b * Y) by (subst Y; lia).
  intros [Hlo Hhi]. split.
  - apply (Z.mul_le_mono_pos_r _ _ Y Hpos). lia.
  - apply (Z.mul_le_mono_pos_r _ _ Y Hpos). lia.
Qed.

(** Rounding [a / b] to the nearest multiple of [2 ^ (- k)], finer than
    [1 / b], does not move its floor. *)
Lemma nearest_floor N a b k :
  0 <= a -> 0 < b -> 0 <= k -> b < 2 ^ (k + 1) -> nearest N (a * 2 ^ k) b ->
  N / 2 ^ k = a / b.
Proof.
  intros Ha Hb Hk Hbk [Hlo Hhi].
  rewrite Z.pow_add_r in Hbk by lia. change (2 ^ 1) with 2 in Hbk.
  assert (0 < 2 ^ k) as HP by (apply Z.pow_pos_nonneg; lia).
  pose proof (Z.div_mod a b ltac:(lia)) as Hab. pose proof (Z.mod_pos_bound a b Hb) as Hr.
  set (n := a / b) in *. set (P := 2 ^ k) in *.
  symmetry. apply Z.div_unique with (N - n * P). 2: lia.
  left. split.
  - destruct (Z_lt_le_dec N (n * P)) as [Hlt|]; [|lia]. exfalso. nia.
  - destruct (Z_lt_le_dec N ((n + 1) * P)) as [|Hge]; [lia|]. exfalso. nia.
Qed.

(** [Math.floor (a / b)] on whole numbers is the integer quotient. *)
Lemma floor_div_whole a b :
  dg a <= 53 -> dg b <= 53 ->
  Math_floor (div (whole false a) (whole false b)) = Z2SF (Zpos a / Zpos b).
Proof.
  intros Ha Hb. pose proof (dg_pos a). pose proof (dg_pos b).
  destruct (div_whole false false a b Ha Hb) as (N & t & Ht & HN & Hnear & ->).
  cbn [xorb]. rewrite !mant_eq in Hnear by assumption.
  set (k := 53 - dg a + dg b - t). assert (0 <= k <= 1074) as Hk by (subst k; lia).
  apply (nearest_scale N (Zpos a) (Zpos b) k t (dg a) (dg b)) in Hnear; try lia.
  pose proof (dg_bounds b) as [_ Hbhi].
  assert (N / 2 ^ k = Zpos a / Zpos b) as Hfloor.
  { apply nearest_floor; [lia | lia | lia | | exact Hnear].
    assert (2 ^ dg b <= 2 ^ (k + 1)) by (apply Z.pow_le_mono_r; subst k; lia). lia. }
  replace (dg a - dg b - 53 + t) with (- k) by (subst k; lia).
  rewrite Math_floor_finish; [now rewrite Hfloor | lia | lia |].
  rewrite Hfloor. apply dg_le_53 in Ha.
  assert (Zpos a / Zpos b <= Zpos a) by (apply Z.div_le_upper_bound; nia). lia.
Qed.

Lemma floor_div_Z2SF a b :
  0 <= a < 2 ^ 53 -> 0 < b < 2 ^ 53 ->
  Math_floor (div (Z2SF a) (Z2SF b)) = Z2SF (a / b).
Proof.
  intros Ha Hb. destruct b as [|b|b]; try lia.
  rewrite (Z2SF_pos b) by (apply dg_le_53; lia).
  destruct a as [|a|a]; try lia.
  - reflexivity.
  - rewrite (Z2SF_pos a) by (apply dg_le_53; lia).
    apply floor_div_whole; apply dg_le_53; lia.
Qed.

Lemma Math_floor_negative m e :
  e < 0 ->
  Math_floor (S754_finite true m e) = Z2SF (- Zpos m / 2 ^ (- e)).
Proof.
  intros He. unfold Math_floor. destruct (Z.leb_spec 0 e); [lia|]. cbv zeta.
  rewrite Z.shiftr_div_pow2, Z.shiftl_mul_pow2 by lia.
  assert (0 < 2 ^ (- e)) as HP by (apply Z.pow_pos_nonneg; lia).
  set (P := 2 ^ (- e)) in *.
  pose proof (Z.div_mod (Zpos m) P ltac:(lia)) as Hdm.
  pose proof (Z.mod_pos_bound (Zpos m) P HP) as Hr.
  assert (0 <= Zpos m / P) as Hq by (apply Z.div_pos; lia).
  destruct (Z.eqb_spec (Zpos m / P * P) (Zpos m)) as [E|E].
  - assert (- Zpos m / P = - (Zpos m / P)) as ->.
    { symmetry. apply Z.div_unique with 0; lia. }
    destruct (Zpos m / P) as [|q|q] eqn:Eq; try lia. reflexivity.
  - assert (- Zpos m / P = - (Zpos m / P + 1)) as ->.
    { symmetry. apply Z.div_unique with (P - Zpos m mod P); lia. }
    destruct (Zpos m / P + 1) as [|q|q] eqn:Eq; try lia. reflexivity.
Qed.

Lemma Math_floor_finish_neg N k :
  2 ^ 52 <= N <= 2 ^ 53 -> 0 <= k <= 1074 -> - 2 ^ 53 < - N / 2 ^ k ->
  Math_floor (finish true N (- k)) = Z2SF (- N / 2 ^ k).
Proof.
  intros HN Hk Hlt. rewrite finish_range by lia.
  destruct (Z.eqb_spec N (2 ^ 53)) as [->|Hne].
  - destruct (Z.eq_dec k 0) as [->|Hk0]; [rewrite Z.pow_0_r, Z.div_1_r in Hlt; lia|].
    assert (- 2 ^ 53 / 2 ^ k = - 2 ^ 52 / 2 ^ (k - 1)) as ->.
    { replace k with (1 + (k - 1)) at 1 by lia. rewrite Z.pow_add_r by lia.
      change (- 2 ^ 53) with (2 ^ 1 * - 2 ^ 52). apply Z.div_mul_cancel_l; [|lia].
      apply Z.pow_nonzero; lia. }
    destruct (Z.eq_dec k 1) as [->|Hk1]; [reflexivity|].
    rewrite Math_floor_negative by lia. replace (- (- k + 1)) with (k - 1) by lia. reflexivity.
  - destruct N as [|p|p]; try lia. cbn [Z.to_pos].
    assert (dg p = 53) as Hp by (apply dg_unique; change (53 - 1) with 52; lia).
    destruct (Z.eq_dec k 0) as [->|Hk0].
    + rewrite Z.pow_0_r, Z.div_1_r. change (- Zpos p) with (Zneg p).
      rewrite Z2SF_neg by lia. now rewrite whole_53.
    + rewrite Math_floor_negative by lia. now rewrite Z.opp_involutive.
Qed.

Lemma nearest_floor_neg N a b k :
  0 <= a -> 0 < b -> 0 <= k -> b < 2 ^ (k + 1) -> nearest N (a * 2 ^ k) b ->
  - N / 2 ^ k = - a / b.
Proof.
  intros Ha Hb Hk Hbk [Hlo Hhi].
  rewrite Z.pow_add_r in Hbk by lia. change (2 ^ 1) with 2 in Hbk.
  assert (0 < 2 ^ k) as HP by (apply Z.pow_pos_nonneg; lia).
  pose proof (Z.div_mod (- a) b ltac:(lia)) as Hab. pose proof (Z.mod_pos_bound (- a) b Hb) as Hr.
  set (n := - a / b) in *. set (P := 2 ^ k) in *.
  symmetry. apply Z.div_unique with (- N - n * P). 2: lia.
  left. split.
  - destruct (Z_lt_le_dec (- N) (n * P)) as [Hlt|]; [|lia]. exfalso. nia.
  - destruct (Z_lt_le_dec (- N) ((n + 1) * P)) as [|Hge]; [lia|]. exfalso. nia.
Qed.

Lemma floor_div_whole_neg a b :
  dg a <= 53 -> dg b <= 53 ->
  Math_floor (div (whole true a) (whole false b)) = Z2SF (Zneg a / Zpos b).
Proof.
  intros Ha Hb. pose proof (dg_pos a). pose proof (dg_pos b).
  destruct (div_whole true false a b Ha Hb) as (N & t & Ht & HN & Hnear & ->).
  cbn [xorb]. rewrite !mant_eq in Hnear by assumption.
  set (k := 53 - dg a + dg b - t). assert (0 <= k <= 1074) as Hk by (subst k; lia).
  apply (nearest_scale N (Zpos a) (Zpos b) k t (dg a) (dg b)) in Hnear; try lia.
  pose proof (dg_bounds b) as [_ Hbhi].
  assert (- N / 2 ^ k = Zneg a / Zpos b) as Hfloor.
  { change (Zneg a) with (- Zpos a). apply nearest_floor_neg; [lia | lia | lia | | exact Hnear].
    assert (2 ^ dg b <= 2 ^ (k + 1)) by (apply Z.pow_le_mono_r; subst k; lia). lia. }
  replace (dg a - dg b - 53 + t) with (- k) by (subst k; lia).
  rewrite Math_floor_finish_neg; [now rewrite Hfloor | lia | lia |].
  rewrite Hfloor. apply dg_le_53 in Ha.
  assert (Zneg a <= Zneg a / Zpos b) by (apply Z.div_le_lower_bound; nia). lia.
Qed.

(** The floor of a quotient, for a dividend of either sign. *)
Lemma floor_div_Z2SF_signed a b :
  - 2 ^ 53 < a < 2 ^ 53 -> 0 < b < 2 ^ 53 ->
  Math_floor (div (Z2SF a) (Z2SF b)) = Z2SF (a / b).
Proof.
  intros Ha Hb. destruct a as [|a|a].
  - apply floor_div_Z2SF; lia.
  - apply floor_div_Z2SF; lia.
  - destruct b as [|b|b]; try lia.
    rewrite (Z2SF_pos b), (Z2SF_neg a) by (apply dg_le_53; lia).
    apply floor_div_whole_neg; apply dg_le_53; lia.
Qed.

Lemma mul_Z2SF_signed x y :
  - 2 ^ 53 < x < 2 ^ 53 -> 0 < y < 2 ^ 53 -> - 2 ^ 53 < x * y < 2 ^ 53 ->
  mul (Z2SF x) (Z2SF y) = Z2SF (x * y).
Proof.
  intros Hx Hy Hxy. destruct x as [|a|a].
  - apply mul_Z2SF; lia.
  - apply mul_Z2SF; lia.
  - destruct y as [|b|b]; try lia.
    assert (dg (a * b) <= 53) as Hab by (apply dg_le_53; rewrite Pos2Z.inj_mul; lia).
    pose proof (dg_mul_lower a b). pose proof (dg_pos a). pose proof (dg_pos b).
    rewrite (Z2SF_neg a), (Z2SF_pos b) by lia. rewrite mul_whole by assumption.
    cbn [xorb]. change (Zneg a * Zpos b) with (Zneg (a * b)). now rewrite Z2SF_neg.
Qed.

(** ** Signs *)

Lemma shr_1_nonneg mrs : 0 <= shr_m mrs -> 0 <= shr_m (shr_1 mrs).
Proof.
  destruct mrs as [m r s0]. cbn [shr_m]. intros Hm.
  destruct m as [|p|p]; try lia; [|destruct p]; cbn; lia.
Qed.

Lemma shr_nonneg mrs e n : 0 <= shr_m mrs -> 0 <= shr_m (fst (shr mrs e n)).
Proof.
  intros Hm. destruct n as [|p|p]; cbn [shr fst]; try assumption.
  rewrite iter_pos_nat. apply Nat.iter_invariant; [apply shr_1_nonneg | assumption].
Qed.

Lemma round_nearest_even_nonneg m l : 0 <= m -> 0 <= round_nearest_even m l.
Proof.
  intros Hm. destruct l as [|[]]; cbn [round_nearest_even]; try destruct (Z.even m); lia.
Qed.

(** Rounding keeps the sign it is given. *)
Lemma binary_round_aux_sign s m e l :
  0 <= m -> sign_is s (binary_round_aux prec emax s m e l).
Proof.
  intros Hm. unfold binary_round_aux, shr_fexp.
  pose proof (shr_nonneg (shr_record_of_loc m l) e
                (fexp prec emax (Zdigits2 m + e) - e)) as H1.
  rewrite shr_m_record_of_loc in H1. specialize (H1 Hm).
  destruct (shr (shr_record_of_loc m l) e _) as [mrs e1]. cbn [fst] in H1.
  set (N := round_nearest_even (shr_m mrs) (loc_of_shr_record mrs)).
  assert (0 <= N) as HN by (apply round_nearest_even_nonneg; assumption).
  pose proof (shr_nonneg (shr_record_of_loc N loc_Exact) e1
                (fexp prec emax (Zdigits2 N + e1) - e1)) as H2.
  rewrite shr_m_record_of_loc in H2. specialize (H2 HN).
  destruct (shr (shr_record_of_loc N loc_Exact) e1 _) as [mrs2 e2]. cbn [fst] in H2.
  destruct (shr_m mrs2) as [|p|p]; try lia; cbn; [reflexivity|].
  destruct (e2 <=? emax - prec); reflexivity.
Qed.

Lemma Z2SF_sign n : 0 <= n -> sign_is false (Z2SF n).
Proof.
  intros Hn. destruct n as [|p|p]; try lia; [reflexivity|].
  unfold Z2SF, binary_normalize, binary_round.
  destruct (shl_align p 0 _) as [mz ez]. now apply binary_round_aux_sign.
Qed.

Lemma div_sign x y :
  sign_is false x -> sign_is false y -> isFinite x = true ->
  ToBoolean (VNumber y) = true -> sign_is false (div x y).
Proof.
  intros Hx Hy Fx Ty. destruct x as [sx|sx| |sx mx ex]; try discriminate;
    destruct y as [sy|sy| |sy my ey]; try discriminate; cbn in Hx, Hy; subst; try reflexivity.
  unfold div. cbn [SFdiv]. unfold SFdiv_core_binary. cbv zeta.
  rewrite div_eucl_div_mod. apply binary_round_aux_sign.
  apply Z.div_pos; [|lia].
  destruct (ex - ey - _) as [|p|p]; try lia. apply Z.shiftl_nonneg. lia.
Qed.

Lemma Math_floor_sign x : sign_is false x -> sign_is false (Math_floor x).
Proof.
  destruct x as [sx|sx| |sx mx ex]; cbn [sign_is Math_floor]; try tauto.
  intros ->. destruct (0 <=? ex); [reflexivity|]. cbv zeta.
  apply Z2SF_sign. apply Z.shiftr_nonneg. lia.
Qed.

Lemma sign_le_zero x : sign_is false x -> le (Z2SF 0) x = true.
Proof.
  destruct x as [sx|sx| |sx mx ex]; cbn [sign_is]; try tauto; intros ->; reflexivity.
Qed.

Lemma isFinite_Z2SF n : - 2 ^ 53 < n < 2 ^ 53 -> isFinite (Z2SF n) = true.
Proof.
  intros Hn. destruct n as [|p|p]; [reflexivity | |].
  - rewrite Z2SF_pos by (apply dg_le_53; lia). reflexivity.
  - rewrite Z2SF_neg by (apply dg_le_53; lia). reflexivity.
Qed.

Lemma le_Z2SF_zero n : 0 < n < 2 ^ 53 -> le (Z2SF n) (Z2SF 0) = false.
Proof.
  intros Hn. destruct n as [|p|p]; try lia.
  rewrite Z2SF_pos by (apply dg_le_53; lia). reflexivity.
Qed.

(** ** Rounding in general *)

Lemma shr_record_of_loc_of_record mrs :
  shr_record_of_loc (shr_m mrs) (loc_of_shr_record mrs) = mrs.
Proof. destruct mrs as [m [] []]; reflexivity. Qed.

Lemma location_of_halved m n :
  0 <= m -> 0 <= n ->
  halved (m / 2 ^ n) (location_of (m mod 2 ^ n) (2 ^ n)) =
  location_of (m mod 2 ^ (n + 1)) (2 ^ (n + 1)).
Proof.
  intros Hm Hn. assert (0 < 2 ^ n) as HP by (apply Z.pow_pos_nonneg; lia).
  assert (0 <= m / 2 ^ n) as Hq by (apply Z.div_pos; lia).
  rewrite halved_spec by assumption.
  rewrite Z.pow_add_r by lia. change (2 ^ 1) with 2.
  pose proof (Z.div_mod m (2 ^ n) ltac:(lia)) as E1.
  pose proof (Z.mod_pos_bound m (2 ^ n) HP) as B1.
  pose proof (Z.div_mod (m / 2 ^ n) 2 ltac:(lia)) as E2.
  pose proof (Z.mod_pos_bound (m / 2 ^ n) 2 ltac:(lia)) as B2.
  assert (m mod (2 ^ n * 2) = (m / 2 ^ n) mod 2 * 2 ^ n + m mod 2 ^ n) as ->.
  { symmetry. apply Z.mod_unique with (m / 2 ^ n / 2); [left; nia | nia]. }
  rewrite Zodd_mod. unfold location_of.
  set (P := 2 ^ n) in *. set (r := m mod P) in *. set (c := (m / P) mod 2) in *.
  destruct (Z.eqb_spec c 1) as [Ec|Ec]; destruct (Z.eqb_spec r 0) as [Er|Er].
  - destruct (Z.eqb_spec (c * P + r) 0); [nia|]. f_equal. symmetry. apply Z.compare_eq_iff. nia.
  - destruct (Z.eqb_spec (c * P + r) 0); [nia|]. f_equal. symmetry. apply Z.compare_gt_iff. nia.
  - destruct (Z.eqb_spec (c * P + r) 0); [reflexivity|nia].
  - destruct (Z.eqb_spec (c * P + r) 0); [nia|]. f_equal. symmetry. apply Z.compare_lt_iff. nia.
Qed.

Lemma iter_shr_1 n m :
  0 <= m ->
  let mrs := Nat.iter n shr_1 (exact_record m) in
  shr_m mrs = m / 2 ^ Z.of_nat n /\
  loc_of_shr_record mrs = location_of (m mod 2 ^ Z.of_nat n) (2 ^ Z.of_nat n).
Proof.
  intros Hm. induction n as [|n [IHm IHl]].
  - cbn. rewrite Z.div_1_r, Z.mod_1_r. split; reflexivity.
  - cbv zeta. rewrite Nat.iter_succ, Nat2Z.inj_succ.
    set (mrs := Nat.iter n shr_1 (exact_record m)) in *.
    rewrite <- (shr_record_of_loc_of_record mrs), IHm, IHl.
    assert (0 <= m / 2 ^ Z.of_nat n) by (apply Z.div_pos; [lia | apply Z.pow_pos_nonneg; lia]).
    split.
    + rewrite shr_1_m by assumption. rewrite Z.div_div by (try apply Z.pow_pos_nonneg; lia).
      rewrite Z.pow_succ_r by lia. f_equal. lia.
    + fold (halved (m / 2 ^ Z.of_nat n) (location_of (m mod 2 ^ Z.of_nat n) (2 ^ Z.of_nat n))).
      rewrite location_of_halved by lia. now rewrite Z.add_1_r.
Qed.

(** Shifting [n] bits out of [m] leaves [m / 2 ^ n] and records where the
    bits shifted out lie. *)
Lemma shr_spec m e n :
  0 <= m -> 0 < n ->
  let '(mrs, e') := shr (exact_record m) e n in
  e' = e + n /\ shr_m mrs = m / 2 ^ n /\
  loc_of_shr_record mrs = location_of (m mod 2 ^ n) (2 ^ n).
Proof.
  intros Hm Hn. destruct n as [|p|p]; try lia. cbn [shr]. split; [reflexivity|].
  rewrite iter_pos_nat. rewrite <- (positive_nat_Z p). apply iter_shr_1. assumption.
Qed.

(** [Math.round] rounds half up: on a Number with a fractional part,
    whose value is [v = (-1)^s * m * 2^e] with [e < 0], it returns the
    Number of the integer [floor (v + 1/2)]. *)
Lemma Math_round_half_up s m e :
  e < 0 ->
  Math_round (S754_finite s m e) =
  binary_normalize prec emax ((2 * cond_Zopp s (Zpos m) + 2 ^ (- e)) / 2 ^ (- e + 1)) 0 s.
Proof.
  intros He. unfold Math_round. destruct (Z.leb_spec 0 e); [lia|]. cbv zeta.
  rewrite Z.shiftl_1_l, Z.shiftr_div_pow2, Z.shiftl_mul_pow2 by lia.
  set (k := - e - 1). assert (0 <= k) as Hk by (subst k; lia).
  replace (- e + 1) with (1 + (1 + k)) by (subst k; lia).
  replace (- e) with (1 + k) by (subst k; lia).
  rewrite !(Z.pow_add_r 2 1) by lia. change (2 ^ 1) with 2.
  assert (0 < 2 ^ k) as Hh by (apply Z.pow_pos_nonneg; lia).
  set (h := 2 ^ k) in *.
  pose proof (Z.div_mod (Zpos m) (2 * h) ltac:(lia)) as Hdm.
  pose proof (Z.mod_pos_bound (Zpos m) (2 * h) ltac:(lia)) as Hr.
  set (q := Zpos m / (2 * h)) in *.
  destruct s; cbn [cond_Zopp]; f_equal.
  - destruct (Z.ltb_spec h (Zpos m - q * (2 * h))).
    + apply Z.div_unique with (Zpos m mod (2 * h) * -2 + 6 * h); lia.
    + apply Z.div_unique with (Zpos m mod (2 * h) * -2 + 2 * h); lia.
  - destruct (Z.leb_spec h (Zpos m - q * (2 * h))).
    + apply Z.div_unique with (Zpos m mod (2 * h) * 2 - 2 * h); lia.
    + apply Z.div_unique with (Zpos m mod (2 * h) * 2 + 2 * h); lia.
Qed.

(** [finish] on a mantissa of at most 53 digits, or [2 ^ 53]. *)
Lemma finish_le53 s N e :
  0 <= N <= 2 ^ 53 -> -1074 <= e <= 970 ->
  finish s N e =
  if N =? 0 then S754_zero s
  else if N =? 2 ^ 53 then S754_finite s (2 ^ 52)%positive (e + 1)
  else S754_finite s (Z.to_pos N) e.
Proof.
  intros HN He. destruct (Z.eqb_spec N 0) as [->|Hz].
  { unfold finish, shr_fexp. cbn [Zdigits2 shr_record_of_loc]. rewrite fexp_eq.
    destruct (Z.max (0 + e - 53) (-1074) - e) as [|d|d] eqn:E; try lia; reflexivity. }
  destruct (Z.eqb_spec N (2 ^ 53)) as [->|Hne]; [apply finish_pow53; lia|].
  destruct N as [|p|p]; try lia. cbn [Z.to_pos].
  assert (dg p <= 53) as Hp by (apply dg_le_53; lia). pose proof (dg_pos p).
  unfold finish, shr_fexp. rewrite Zdigits2_pos, fexp_eq. cbn [shr_record_of_loc].
  destruct (Z.max (dg p + e - 53) (-1074) - e) as [|d|d] eqn:E; try lia; cbn [shr shr_m];
    unfold emax, prec; (replace (e <=? 1024 - 53) with true by (symmetry; apply Z.leb_le; lia));
    reflexivity.
Qed.

(** [Math.round] of a positive Number with a fractional part. *)
Lemma Math_round_finish N e :
  0 <= N <= 2 ^ 53 -> -1074 <= e <= -1 ->
  Math_round (finish false N e) = Z2SF ((2 * N + 2 ^ (- e)) / 2 ^ (- e + 1)).
Proof.
  intros HN He. rewrite finish_le53 by lia.
  assert (0 < 2 ^ (- e)) as HP by (apply Z.pow_pos_nonneg; lia).
  destruct (Z.eqb_spec N 0) as [->|Hz].
  - rewrite Z.mul_0_r, Z.add_0_l. replace (- e + 1) with (1 + - e) by lia.
    rewrite Z.pow_add_r by lia. change (2 ^ 1) with 2.
    rewrite Z.div_small by lia. reflexivity.
  - destruct (Z.eqb_spec N (2 ^ 53)) as [->|Hne].
    + destruct (Z.eq_dec e (-1)) as [->|He1]; [reflexivity|].
      rewrite Math_round_half_up by lia. unfold Z2SF. f_equal. cbn [cond_Zopp].
      replace (- e + 1) with (1 + (- (e + 1) + 1)) by lia.
      replace (- e) with (1 + - (e + 1)) at 1 by lia.
      rewrite !(Z.pow_add_r 2 1) by lia. change (2 ^ 1) with 2.
      change (2 * 2 ^ 53) with (2 * (2 * Zpos (2 ^ 52))).
      rewrite <- Z.mul_add_distr_l. rewrite Z.div_mul_cancel_l; [reflexivity | | lia].
      apply Z.pow_nonzero; lia.
    + destruct N as [|p|p]; try lia. cbn [Z.to_pos].
      rewrite Math_round_half_up by lia. reflexivity.
Qed.

(** ** Products with a finite rate *)

(** The product of a whole number and a positive finite Number, when
    it is below [2 ^ 52]: the result is the nearest multiple of a power
    of two not above 1/2. *)
Lemma mul_whole_finite n m e :
  dg n <= 53 -> -1074 <= e ->
  Zpos n * Zpos m * 2 ^ (e + 1074) < 2 ^ (52 + 1074) ->
  exists N e1 n1,
    0 <= N <= 2 ^ 53 /\ -1074 <= e1 <= -1 /\ 0 <= n1 /\ e1 = dg n - 53 + e + n1 /\
    nearest N (Zpos (mant n) * Zpos m) (2 ^ n1) /\
    mul (whole false n) (S754_finite false m e) = finish false N e1.
Proof.
  intros Hn He Hv. pose proof (dg_pos n) as Hdn. pose proof (dg_pos m) as Hdm.
  pose proof (dg_mant n Hn) as Hdc. pose proof (mant_eq n Hn) as Hc.
  unfold mul. rewrite whole_unfold. cbn [SFmul xorb].
  set (P := (mant n * m)%positive). set (E := dg n - 53 + e).
  pose proof (dg_mul_lower (mant n) m) as HdP. fold P in HdP. rewrite Hdc in HdP.
  assert (dg P + E <= 52) as Hsmall.
  { assert (Zpos P * 2 ^ (E + 1127) < 2 ^ 1179) as Hs.
    { subst P E. rewrite Pos2Z.inj_mul, Hc.
      replace (Zpos n * 2 ^ (53 - dg n) * Zpos m * 2 ^ (dg n - 53 + e + 1127))
        with (Zpos n * Zpos m * (2 ^ (53 - dg n) * 2 ^ (dg n - 53 + e + 1127))) by lia.
      rewrite <- Z.pow_add_r by lia.
      replace (53 - dg n + (dg n - 53 + e + 1127)) with (e + 1074 + 53) by lia.
      rewrite Z.pow_add_r by lia. change 1179 with (52 + 1074 + 53).
      rewrite (Z.pow_add_r 2 (52 + 1074)) by lia. nia. }
    pose proof (dg_bounds P) as [Plo _].
    assert (2 ^ (dg P - 1) * 2 ^ (E + 1127) < 2 ^ 1179) as Hp.
    { eapply Z.le_lt_trans; [|exact Hs]. apply Z.mul_le_mono_nonneg_r; [|exact Plo].
      apply Z.pow_nonneg; lia. }
    rewrite <- Z.pow_add_r in Hp by (subst E; lia).
    apply Z.pow_lt_mono_r_iff in Hp; lia. }
  rewrite binary_round_aux_finish. unfold shr_fexp. rewrite Zdigits2_pos, fexp_eq.
  cbn [shr_record_of_loc]. fold (exact_record (Zpos P)).
  set (e1 := Z.max (dg P + E - 53) (-1074)).
  destruct (Z_le_gt_dec (e1 - E) 0) as [Hle|Hgt].
  - assert (e1 = E) as HeE by lia. assert (dg P <= 53) as HP53 by lia.
    assert (shr (exact_record (Zpos P)) E (e1 - E) = (exact_record (Zpos P), E)) as ->.
    { replace (e1 - E) with 0 by lia. reflexivity. }
    cbn [shr_m exact_record loc_of_shr_record round_nearest_even].
    exists (Zpos P), E, 0. apply dg_le_53 in HP53.
    repeat split; lia.
  - pose proof (shr_spec (Zpos P) E (e1 - E) ltac:(lia) ltac:(lia)) as Hshr.
    destruct (shr (exact_record (Zpos P)) E (e1 - E)) as [mrs e'].
    destruct Hshr as (-> & Hm1 & Hl1). rewrite Hm1, Hl1.
    assert (0 < 2 ^ (e1 - E)) as Hpow by (apply Z.pow_pos_nonneg; lia).
    pose proof (round_nearest_even_nearest (Zpos P) (2 ^ (e1 - E)) Hpow ltac:(lia)) as [HNr HNn].
    set (N := round_nearest_even (Zpos P / 2 ^ (e1 - E))
                (location_of (Zpos P mod 2 ^ (e1 - E)) (2 ^ (e1 - E)))) in *.
    exists N, e1, (e1 - E). replace (E + (e1 - E)) with e1 by lia.
    assert (0 <= Zpos P / 2 ^ (e1 - E)) by (apply Z.div_pos; lia).
    assert (Zpos P / 2 ^ (e1 - E) < 2 ^ 53) as Hq.
    { apply Z.div_lt_upper_bound; [lia|]. rewrite <- Z.pow_add_r by lia.
      pose proof (dg_bounds P) as [_ Phi].
      eapply Z.lt_le_trans; [exact Phi|]. apply Z.pow_le_mono_r; lia. }
    split; [lia|]. split; [lia|]. split; [lia|]. split; [lia|]. split; [|reflexivity].
    rewrite <- Pos2Z.inj_mul. exact HNn.
Qed.

(** [close] does not depend on the scale. *)
Lemma close_rescale W v e t0 t :
  0 <= t0 -> 0 <= e + t0 -> 0 <= t -> 0 <= e + t ->
  close W v e t0 -> close W v e t.
Proof.
  unfold close. intros Ht0 Het0 Ht Het H0.
  destruct (Z_le_gt_dec t0 t) as [Hle|Hgt].
  - replace t with (t0 + (t - t0)) by lia. replace (e + (t0 + (t - t0))) with (e + t0 + (t - t0)) by lia.
    rewrite !Z.pow_add_r by lia.
    assert (0 < 2 ^ (t - t0)) by (apply Z.pow_pos_nonneg; lia). nia.
  - replace t0 with (t + (t0 - t)) in H0 by lia.
    replace (e + (t + (t0 - t))) with (e + t + (t0 - t)) in H0 by lia.
    rewrite !Z.pow_add_r in H0 by lia.
    assert (0 < 2 ^ (t0 - t)) by (apply Z.pow_pos_nonneg; lia). nia.
Qed.

(** ** The shape of a rounded result *)

Lemma iter_shr_1_m n mrs :
  0 <= shr_m mrs -> shr_m (Nat.iter n shr_1 mrs) = shr_m mrs / 2 ^ Z.of_nat n.
Proof.
  intros Hm. induction n as [|n IH].
  - cbn. now rewrite Z.div_1_r.
  - rewrite Nat.iter_succ, Nat2Z.inj_succ.
    rewrite <- (shr_record_of_loc_of_record (Nat.iter n shr_1 mrs)), IH.
    assert (0 <= shr_m mrs / 2 ^ Z.of_nat n) by (apply Z.div_pos; [lia | apply Z.pow_pos_nonneg; lia]).
    rewrite shr_1_m by assumption. rewrite Z.div_div by (try apply Z.pow_pos_nonneg; lia).
    rewrite Z.pow_succ_r by lia. f_equal. lia.
Qed.

Lemma shr_m_div mrs e n :
  0 <= shr_m mrs -> 0 <= n ->
  shr_m (fst (shr mrs e n)) = shr_m mrs / 2 ^ n /\ snd (shr mrs e n) = e + n.
Proof.
  intros Hm Hn. destruct n as [|p|p]; try lia.
  - cbn. rewrite Z.div_1_r. split; [reflexivity | lia].
  - cbn [shr fst snd]. split; [|reflexivity].
    rewrite iter_pos_nat, iter_shr_1_m by assumption. now rewrite positive_nat_Z.
Qed.

Lemma round_nearest_even_range m l : m <= round_nearest_even m l <= m + 1.
Proof.
  destruct l as [|[]]; cbn [round_nearest_even]; try destruct (Z.even m); lia.
Qed.

Lemma finish_cases s N E :
  0 <= N <= 2 ^ 53 -> -1074 <= E ->
  finish s N E =
  if N =? 0 then S754_zero s
  else if N =? 2 ^ 53
       then (if E + 1 <=? 971 then S754_finite s (2 ^ 52)%positive (E + 1) else S754_infinity s)
       else (if E <=? 971 then S754_finite s (Z.to_pos N) E else S754_infinity s).
Proof.
  intros HN HE. destruct (Z.eqb_spec N 0) as [->|Hz].
  { unfold finish, shr_fexp. cbn [Zdigits2 shr_record_of_loc]. rewrite fexp_eq.
    destruct (Z.max (0 + E - 53) (-1074) - E) as [|d|d] eqn:Ed; try lia; reflexivity. }
  destruct (Z.eqb_spec N (2 ^ 53)) as [->|Hne].
  { unfold finish, shr_fexp. change (Zdigits2 (2 ^ 53)) with 54. rewrite fexp_eq.
    replace (Z.max (54 + E - 53) (-1074) - E) with 1 by lia. reflexivity. }
  destruct N as [|p|p]; try lia. cbn [Z.to_pos].
  assert (dg p <= 53) as Hp by (apply dg_le_53; lia). pose proof (dg_pos p).
  unfold finish, shr_fexp. rewrite Zdigits2_pos, fexp_eq. cbn [shr_record_of_loc].
  destruct (Z.max (dg p + E - 53) (-1074) - E) as [|d|d] eqn:Ed; try lia; reflexivity.
Qed.

Lemma Zdigits2_bound m : 0 <= m -> m < 2 ^ Zdigits2 m.
Proof.
  intros Hm. destruct m as [|p|p]; try lia.
  - cbn. lia.
  - rewrite Zdigits2_pos. apply dg_bounds.
Qed.

Lemma Zdigits2_nonneg m : 0 <= Zdigits2 m.
Proof. destruct m; cbn; lia. Qed.

(** Rounding in general: the mantissa is shifted down to 53 digits, or
    to the least exponent, and rounded to a neighbour. *)
Lemma binary_round_aux_shape s m e l :
  0 <= m ->
  let E := Z.max (fexp prec emax (Zdigits2 m + e)) e in
  exists N,
    m / 2 ^ (E - e) <= N <= m / 2 ^ (E - e) + 1 /\ 0 <= N <= 2 ^ 53 /\
    binary_round_aux prec emax s m e l = finish s N E.
Proof.
  intros Hm E. rewrite binary_round_aux_finish. unfold shr_fexp.
  pose proof (Zdigits2_bound m Hm) as Hd. pose proof (Zdigits2_nonneg m) as Hd0.
  set (f := fexp prec emax (Zdigits2 m + e)) in *.
  assert (f = Z.max (Zdigits2 m + e - 53) (-1074)) as Hf by apply fexp_eq.
  destruct (Z_le_gt_dec (f - e) 0) as [Hle|Hgt].
  - assert (E = e) as -> by (subst E; lia).
    assert (shr (shr_record_of_loc m l) e (f - e) = (shr_record_of_loc m l, e)) as ->.
    { destruct (f - e) as [|p|p] eqn:Ep; try lia; reflexivity. }
    rewrite shr_m_record_of_loc, loc_of_shr_record_of_loc.
    rewrite Z.sub_diag, Z.pow_0_r, Z.div_1_r.
    exists (round_nearest_even m l). pose proof (round_nearest_even_range m l).
    assert (m < 2 ^ 53).
    { eapply Z.lt_le_trans; [exact Hd|]. apply Z.pow_le_mono_r; lia. }
    repeat split; lia.
  - assert (E = f) as -> by (subst E; lia).
    pose proof (shr_m_div (shr_record_of_loc m l) e (f - e)) as Hs.
    rewrite shr_m_record_of_loc in Hs. destruct (Hs Hm ltac:(lia)) as [Hs1 Hs2].
    destruct (shr (shr_record_of_loc m l) e (f - e)) as [mrs e'].
    cbn [fst snd] in Hs1, Hs2. subst e'. replace (e + (f - e)) with f by lia.
    exists (round_nearest_even (shr_m mrs) (loc_of_shr_record mrs)).
    pose proof (round_nearest_even_range (shr_m mrs) (loc_of_shr_record mrs)) as Hr.
    rewrite Hs1 in *.
    assert (0 < 2 ^ (f - e)) by (apply Z.pow_pos_nonneg; lia).
    assert (0 <= m / 2 ^ (f - e)) by (apply Z.div_pos; lia).
    assert (m / 2 ^ (f - e) < 2 ^ 53).
    { apply Z.div_lt_upper_bound; [lia|]. rewrite <- Z.pow_add_r by lia.
      eapply Z.lt_le_trans; [exact Hd|]. apply Z.pow_le_mono_r; lia. }
    repeat split; lia.
Qed.

(** What a rounded result can be. *)
Lemma finish_finite s N E s' M E' :
  0 <= N <= 2 ^ 53 -> -1074 <= E -> finish s N E = S754_finite s' M E' ->
  s' = s /\ dg M <= 53 /\ E <= E' <= E + 1 /\ E' <= 971.
Proof.
  intros HN HE. rewrite finish_cases by assumption.
  destruct (Z.eqb_spec N 0); [discriminate|].
  destruct (Z.eqb_spec N (2 ^ 53)).
  - destruct (Z.leb_spec (E + 1) 971); [|discriminate].
    intros [= <- <- <-]. repeat split; try lia. reflexivity.
  - destruct (Z.leb_spec E 971); [|discriminate].
    intros [= <- <- <-]. repeat split; try lia.
    destruct N as [|p|p]; try lia. cbn [Z.to_pos]. apply dg_le_53. lia.
Qed.

Lemma finish_not_nan s N E : 0 <= N <= 2 ^ 53 -> -1074 <= E -> finish s N E <> S754_nan.
Proof.
  intros HN HE. rewrite finish_cases by assumption.
  repeat match goal with |- context [if ?b then _ else _] => destruct b end; discriminate.
Qed.

(** ** Integral Numbers *)

Lemma integral_fixed x : integral x -> Math_floor x = x /\ Math_round x = x.
Proof.
  destruct x as [s|s| |s m e]; cbn [integral]; try (intros; split; reflexivity); try tauto.
  intros [He|(n & Hn & E)].
  - unfold Math_floor, Math_round. destruct (Z.leb_spec 0 e); [split; reflexivity | lia].
  - rewrite E. split; [now apply Math_floor_whole | now apply Math_round_whole].
Qed.

Lemma binary_round_integral s p : integral (binary_round prec emax s p 0).
Proof.
  destruct (Z_le_gt_dec (dg p) 53) as [Hle|Hgt].
  - pose proof (binary_round_whole s p p 0 ltac:(lia) ltac:(lia) Hle) as E.
    change (- 0) with 0 in E. rewrite E.
    unfold whole. right. exists p. split; [assumption | reflexivity].
  - unfold binary_round. fold (dg p). rewrite fexp_eq.
    replace (Z.max (dg p + 0 - 53) (-1074)) with (dg p - 53) by lia.
    unfold shl_align. destruct (dg p - 53 - 0) as [|d|d] eqn:Ed; try lia.
    destruct (binary_round_aux_shape s (Zpos p) 0 loc_Exact ltac:(lia)) as (N & HN & HN53 & ->).
    rewrite Zdigits2_pos, fexp_eq.
    replace (Z.max (Z.max (dg p + 0 - 53) (-1074)) 0) with (dg p - 53) by lia.
    rewrite finish_cases by lia.
    repeat match goal with |- context [if ?b then _ else _] => destruct b end;
      cbn [integral]; trivial; left; lia.
Qed.

Lemma binary_normalize_integral c s : integral (binary_normalize prec emax c 0 s).
Proof.
  destruct c as [|p|p]; cbn [binary_normalize]; [exact I | apply binary_round_integral ..].
Qed.

Lemma Math_floor_integral x : x <> NaN -> integral (Math_floor x).
Proof.
  destruct x as [s|s| |s m e]; intros Hx; try exact I; [exfalso; apply Hx; reflexivity|].
  unfold Math_floor. destruct (Z.leb_spec 0 e); [left; assumption|].
  cbv zeta. destruct s; apply binary_normalize_integral.
Qed.

Lemma Math_round_integral x : x <> NaN -> integral (Math_round x).
Proof.
  destruct x as [s|s| |s m e]; intros Hx; try exact I; [exfalso; apply Hx; reflexivity|].
  unfold Math_round. destruct (Z.leb_spec 0 e); [left; assumption|].
  cbv zeta. destruct s; apply binary_normalize_integral.
Qed.

Lemma integral_not_nan x : integral x -> x <> NaN.
Proof. destruct x; cbn; intros H; try discriminate. destruct H. Qed.

Lemma Z2SF_integral n : integral (Z2SF n).
Proof. apply binary_normalize_integral. Qed.

Lemma Math_floor_fixed x : Math_floor (Math_floor x) = Math_floor x /\ Math_round (Math_floor x) = Math_floor x.
Proof.
  destruct x as [s|s| |s m e]; try (split; reflexivity).
  apply integral_fixed, Math_floor_integral. discriminate.
Qed.

Lemma Math_round_fixed x : Math_floor (Math_round x) = Math_round x /\ Math_round (Math_round x) = Math_round x.
Proof.
  destruct x as [s|s| |s m e]; try (split; reflexivity).
  apply integral_fixed, Math_round_integral. discriminate.
Qed.

(** ** Operations that give no NaN *)

Lemma binary_round_aux_not_nan s m e l : 0 <= m -> binary_round_aux prec emax s m e l <> NaN.
Proof.
  intros Hm. destruct (binary_round_aux_shape s m e l Hm) as (N & _ & HN & ->).
  apply finish_not_nan; [assumption|]. rewrite fexp_eq. lia.
Qed.

Lemma binary_round_not_nan s m e : binary_round prec emax s m e <> NaN.
Proof.
  unfold binary_round. destruct (shl_align m e _) as [mz ez].
  apply binary_round_aux_not_nan. lia.
Qed.

Lemma binary_normalize_not_nan m e s : binary_normalize prec emax m e s <> NaN.
Proof.
  destruct m; cbn [binary_normalize]; [discriminate | apply binary_round_not_nan ..].
Qed.

Lemma div_core_nonneg m1 e1 m2 e2 :
  0 <= fst (fst (SFdiv_core_binary prec emax (Zpos m1) e1 (Zpos m2) e2)).
Proof.
  unfold SFdiv_core_binary. cbv zeta. rewrite div_eucl_div_mod. cbn [fst].
  apply Z.div_pos; [|lia].
  destruct (e1 - e2 - _) as [|p|p]; try lia. apply Z.shiftl_nonneg. lia.
Qed.

(** A quotient by a finite Number other than zero is NaN only if the
    dividend is. *)
Lemma div_not_nan x s m e : x <> NaN -> div x (S754_finite s m e) <> NaN.
Proof.
  intros Hx. destruct x as [sx|sx| |sx mx ex]; try discriminate; [now destruct Hx|].
  unfold div. cbn [SFdiv].
  pose proof (div_core_nonneg mx ex m e) as Hq.
  destruct (SFdiv_core_binary prec emax (Zpos mx) ex (Zpos m) e) as [[q e'] l].
  now apply binary_round_aux_not_nan.
Qed.

Lemma mul_not_nan x s m e : x <> NaN -> mul x (S754_finite s m e) <> NaN.
Proof.
  intros Hx. destruct x as [sx|sx| |sx mx ex]; try discriminate; [now destruct Hx|].
  unfold mul. cbn [SFmul]. apply binary_round_aux_not_nan. lia.
Qed.

Lemma sub_not_nan x y : isFinite x = true -> y <> NaN -> sub x y <> NaN.
Proof.
  intros Hx Hy. destruct x as [sx|sx| |sx mx ex]; try discriminate;
    destruct y as [sy|sy| |sy my ey]; try discriminate; try (now destruct Hy);
    unfold sub; cbn [SFsub].
  - destruct sx, sy; discriminate.
  - apply binary_normalize_not_nan.
Qed.

Lemma Math_floor_not_nan x : x <> NaN -> Math_floor x <> NaN.
Proof. intros Hx. apply integral_not_nan, Math_floor_integral, Hx. Qed.

Lemma Math_round_not_nan x : x <> NaN -> Math_round x <> NaN.
Proof. intros Hx. apply integral_not_nan, Math_round_integral, Hx. Qed.

Lemma Zdigits2_le q k : 0 <= q < 2 ^ k -> 0 <= k -> Zdigits2 q <= k.
Proof.
  intros Hq Hk. destruct q as [|p|p]; try lia; [cbn; lia|].
  rewrite Zdigits2_pos. pose proof (dg_bounds p) as [Hlo _]. pose proof (dg_pos p).
  destruct (Z_lt_le_dec k (dg p)) as [Hlt|]; [|lia].
  assert (2 ^ k <= 2 ^ (dg p - 1)) by (apply Z.pow_le_mono_r; lia). lia.
Qed.

(** The exponent of a quotient of finite Numbers. *)
Lemma div_finite_exponent sx mx ex sy my ey :
  exists N E,
    0 <= N <= 2 ^ 53 /\ -1074 <= E <= Z.max (dg mx + ex - (dg my + ey) - 52) (-1074) /\
    div (S754_finite sx mx ex) (S754_finite sy my ey) = finish (xorb sx sy) N E.
Proof.
  unfold div. cbn [SFdiv].
  pose proof (div_core_nonneg mx ex my ey) as Hq.
  unfold SFdiv_core_binary in *. cbv zeta in *. rewrite !Zdigits2_pos, fexp_eq in *.
  set (X := dg mx + ex - (dg my + ey)) in *.
  set (e' := Z.min (Z.max (X - 53) (-1074)) (ex - ey)) in *.
  set (s := ex - ey - e') in *.
  assert (0 <= s) as Hs by (subst s e'; lia).
  set (m' := match s with Z0 => Zpos mx | Zpos _ => Z.shiftl (Zpos mx) s | Zneg _ => 0 end) in *.
  assert (m' = Zpos mx * 2 ^ s) as Hm'.
  { subst m'. destruct s as [|p|p] eqn:Es; try lia.
    now rewrite Z.shiftl_mul_pow2 by lia. }
  rewrite div_eucl_div_mod in *. cbn [fst] in Hq.
  destruct (binary_round_aux_shape (xorb sx sy) (m' / Zpos my) e'
              (new_location (Zpos my) (m' mod Zpos my)) Hq) as (N & _ & HN & ->).
  exists N, (Z.max (fexp prec emax (Zdigits2 (m' / Zpos my) + e')) e').
  split; [assumption|]. split; [|reflexivity]. rewrite fexp_eq.
  pose proof (dg_bounds mx) as [_ Hmx]. pose proof (dg_bounds my) as [Hmy _].
  pose proof (dg_pos mx). pose proof (dg_pos my).
  assert (0 < 2 ^ s) as H2s by (apply Z.pow_pos_nonneg; lia).
  set (k := Z.max (dg mx + s - dg my + 1) 0).
  assert (m' / Zpos my < 2 ^ k) as Hlt.
  { apply Z.div_lt_upper_bound; [lia|]. rewrite Hm'.
    apply Z.lt_le_trans with (2 ^ (dg mx) * 2 ^ s).
    - apply Z.mul_lt_mono_pos_r; assumption.
    - rewrite <- Z.pow_add_r by lia.
      apply Z.le_trans with (2 ^ (dg my - 1) * 2 ^ k).
      + rewrite <- Z.pow_add_r by (subst k; lia). apply Z.pow_le_mono_r; subst k; lia.
      + apply Z.mul_le_mono_nonneg_r; [apply Z.pow_nonneg|]; lia. }
  pose proof (Zdigits2_le (m' / Zpos my) k ltac:(lia) ltac:(subst k; lia)) as Hd.
  pose proof (Zdigits2_nonneg (m' / Zpos my)).
  subst k s e' X. lia.
Qed.

(** The daily expense, a thirtieth of a valid monthly expense, is finite. *)
Lemma dailyExpense_finite x :
  valid_binary prec emax x = true -> isFinite x = true ->
  isFinite (div x (Z2SF 30)) = true.
Proof.
  intros Hv Hx. destruct x as [sx|sx| |sx mx ex]; try discriminate; [reflexivity|].
  change (Z2SF 30) with (S754_finite false 8444249301319680 (- 48)).
  destruct (div_finite_exponent sx mx ex false 8444249301319680 (- 48)) as (N & E & HN & HE & ->).
  cbn [valid_binary] in Hv. unfold bounded, canonical_mantissa in Hv.
  apply andb_true_iff in Hv as [Hc He]. apply Z.eqb_eq in Hc. apply Z.leb_le in He.
  fold (dg mx) in Hc. rewrite fexp_eq in Hc. unfold emax, prec in He.
  change (dg 8444249301319680) with 53 in HE.
  rewrite finish_cases by lia.
  repeat match goal with |- context [if ?b then _ else _] => destruct b eqn:? end;
    try reflexivity; exfalso;
    repeat match goal with H : (_ <=? _) = false |- _ => apply Z.leb_gt in H end; lia.
Qed.

Lemma positive_finite x :
  isFinite x = true -> le x (Z2SF 0) = false -> exists m e, x = S754_finite false m e.
Proof.
  destruct x as [s|s| |[] m e]; try discriminate; intros _ Hle; try discriminate Hle.
  eauto.
Qed.

Lemma truthy_finite x :
  isFinite x = true -> ToBoolean (VNumber x) = true -> exists s m e, x = S754_finite s m e.
Proof. destruct x as [s|s| |s m e]; try discriminate; eauto. Qed.

(** ** Order *)

(** X: signs *)
Lemma le_zero_cases x :
  le (Z2SF 0) x = true <-> (exists s, x = S754_zero s) \/ x = Infinity \/ exists m e, x = S754_finite false m e.
Proof.
  split.
  - destruct x as [s|[]| |[] m e]; try discriminate; eauto.
  - intros [[s ->]|[->|(m & e & ->)]]; reflexivity.
Qed.

Lemma binary_round_aux_nonneg m e l :
  0 <= m -> le (Z2SF 0) (binary_round_aux prec emax false m e l) = true.
Proof.
  intros Hm. apply sign_le_zero. now apply binary_round_aux_sign.
Qed.

Lemma div_nonneg x m e :
  le (Z2SF 0) x = true -> le (Z2SF 0) (div x (S754_finite false m e)) = true.
Proof.
  intros Hx. apply le_zero_cases in Hx as [[s ->]|[->|(mx & ex & ->)]]; try reflexivity.
  unfold div. cbn [SFdiv xorb].
  pose proof (div_core_nonneg mx ex m e) as Hq.
  destruct (SFdiv_core_binary prec emax (Zpos mx) ex (Zpos m) e) as [[q e'] l].
  now apply binary_round_aux_nonneg.
Qed.

Lemma Math_floor_nonneg x : le (Z2SF 0) x = true -> le (Z2SF 0) (Math_floor x) = true.
Proof.
  intros Hx. apply le_zero_cases in Hx as [[s ->]|[->|(mx & ex & ->)]]; try reflexivity.
  apply sign_le_zero, Math_floor_sign. reflexivity.
Qed.

Lemma le_finite_pos m1 e1 m2 e2 :
  le (S754_finite false m1 e1) (S754_finite false m2 e2) = true <->
  e1 < e2 \/ (e1 = e2 /\ (m1 <= m2)%positive).
Proof.
  unfold le, SFleb. cbn [SFcompare].
  destruct (Z.compare_spec e1 e2) as [->|Hlt|Hgt].
  - change (Pos.compare_cont Eq m1 m2) with (Pos.compare m1 m2).
    destruct (Pos.compare_spec m1 m2); split; intros; try discriminate; try lia; reflexivity.
  - split; [intros; lia | reflexivity].
  - split; [discriminate | lia].
Qed.

Lemma Math_min_ge m e y :
  le (S754_finite false m e) y = true -> Math_min y (S754_finite false m e) = S754_finite false m e.
Proof.
  destruct y as [s|[]| |[] my ey]; try discriminate; intros Hle; try reflexivity.
  apply le_finite_pos in Hle. unfold Math_min. cbn [SFcompare].
  destruct (Z.compare_spec ey e) as [->|Hlt|Hgt]; try lia; [|reflexivity].
  change (Pos.compare_cont Eq my m) with (Pos.compare my m).
  destruct (Pos.compare_spec my m); try lia; reflexivity.
Qed.

(** A normal Number at least 1, multiplied by 100, is at least 100. *)
Lemma mul_100_ge M E :
  dg M = 53 -> -52 <= E <= 900 ->
  le (Z2SF 100) (mul (S754_finite false M E) (Z2SF 100)) = true.
Proof.
  intros HM HE. change (Z2SF 100) with (S754_finite false 7036874417766400 (- 46)).
  unfold mul. cbn [SFmul xorb].
  set (P := (M * 7036874417766400)%positive).
  pose proof (dg_bounds M) as BM. rewrite HM in BM. change (53 - 1) with 52 in BM.
  assert (2 ^ 104 <= Zpos P < 2 ^ 106) as HP.
  { subst P. rewrite Pos2Z.inj_mul. change (2 ^ 104) with (2 ^ 52 * 2 ^ 52).
    change (2 ^ 106) with (2 ^ 53 * 2 ^ 53). lia. }
  assert (dg P = 105 \/ dg P = 106) as HdP.
  { destruct (Z_lt_le_dec (Zpos P) (2 ^ 105)); [left | right]; apply dg_unique; lia. }
  destruct (binary_round_aux_shape false (Zpos P) (E + - 46) loc_Exact ltac:(lia)) as (N & HN & HN53 & ->).
  rewrite Zdigits2_pos, fexp_eq in *.
  replace (Z.max (Z.max (dg P + (E + -46) - 53) (-1074)) (E + -46)) with (dg P + E - 99) in * by lia.
  replace (dg P + E - 99 - (E + -46)) with (dg P - 53) in HN by lia.
  assert (Zpos M * 7036874417766400 / 2 ^ 52 >= 7036874417766400) as Hlow.
  { apply Z.le_ge, Z.div_le_lower_bound; lia. }
  assert (2 ^ 52 <= Zpos P / 2 ^ (dg P - 53)) as Hq.
  { apply Z.div_le_lower_bound; [apply Z.pow_pos_nonneg; lia|].
    pose proof (dg_bounds P) as BP. rewrite <- Z.pow_add_r by lia.
    replace (dg P - 53 + 52) with (dg P - 1) by lia. lia. }
  rewrite finish_cases by lia.
  destruct (Z.eqb_spec N 0); [lia|].
  destruct (Z.eqb_spec N (2 ^ 53)).
  - destruct (Z.leb_spec (dg P + E - 99 + 1) 971); [|reflexivity].
    apply le_finite_pos. lia.
  - destruct (Z.leb_spec (dg P + E - 99) 971); [|reflexivity].
    apply le_finite_pos. destruct HdP as [Hd|Hd]; [|left; lia].
    destruct (Z.eq_dec E (- 52)) as [->|]; [right|left; lia]. split; [lia|].
    rewrite Hd in HN. change (105 - 53) with 52 in HN. subst P. rewrite Pos2Z.inj_mul in HN.
    destruct N as [|pn|pn]; lia.
Qed.


(** * Properties *)

(** ** The sentinel result of [calculateLongevity] *)

Section Sentinel.
Context `{Host}.

(** The guard of [calculateLongevity]. *)
Lemma sentinel_guard (budget monthly : number) :
  isFinite budget = false \/ isFinite monthly = false \/ le monthly (Z2SF 0) = true ->
  negb (isFinite budget) || negb (isFinite monthly) || le monthly (Z2SF 0) = true.
Proof.
  intros [E | [E | E]]; rewrite E; simpl; rewrite ?orb_true_r; reflexivity.
Qed.

(** C2: when the monthly expense is not positive, or one of the two
    coerced inputs is not a finite number, [calculateLongevity] returns
    zero months, zero years and zero days. *)
Theorem calculateLongevity_sentinel (budgetLocal monthlyExpense : value) :
  isFinite (Number budgetLocal) = false \/
  isFinite (Number monthlyExpense) = false \/
  le (Number monthlyExpense) (Z2SF 0) = true ->
  let r := NomadFlow.calculateLongevity budgetLocal monthlyExpense in
  NomadFlow.months r = Z2SF 0 /\ NomadFlow.years r = Z2SF 0 /\
  NomadFlow.daysApprox r = Z2SF 0.
Proof.
  intros Hguard r. subst r. unfold NomadFlow.calculateLongevity.
  rewrite (sentinel_guard _ _ Hguard). simpl. repeat split.
Qed.


End Sentinel.

Lemma calculateLongevity_sentinel_witness :
  let r := NomadFlow.calculateLongevity (H := ascii_host) (VNumber (Z2SF 100)) (VNumber (Z2SF 0)) in
  NomadFlow.months r = Z2SF 0 /\ NomadFlow.years r = Z2SF 0 /\
  NomadFlow.daysApprox r = Z2SF 0.
Proof.
  apply (calculateLongevity_sentinel (H := ascii_host)).
  right. right. reflexivity.
Defined.



(** ** Longevity of whole budgets *)

Section Longevity.
Context `{Host}.

(** On whole numbers every step of the non-sentinel branch is exact:
    the floor of the quotient is the integer quotient, the product and
    the difference are representable, and the days are not negative. *)
Lemma calculateLongevity_whole (budget monthly : Z) :
  - 2 ^ 53 < budget - monthly -> budget < 2 ^ 53 -> 0 < monthly < 2 ^ 53 ->
  let r := NomadFlow.calculateLongevity (VNumber (Z2SF budget)) (VNumber (Z2SF monthly)) in
  NomadFlow.months r = Z2SF (budget / monthly) /\
  NomadFlow.years r = Z2SF (budget / monthly / 12) /\
  NomadFlow.remainder r = Z2SF (budget mod monthly) /\
  le (Z2SF 0) (NomadFlow.daysApprox r) = true.
Proof.
  intros Hlo Hhi Hm r. subst r. unfold NomadFlow.calculateLongevity. cbn [Number].
  rewrite !isFinite_Z2SF, le_Z2SF_zero by lia. cbn [negb orb]. cbv zeta.
  cbn [NomadFlow.months NomadFlow.years NomadFlow.remainder NomadFlow.daysApprox].
  pose proof (Z.div_mod budget monthly ltac:(lia)) as Hdm.
  pose proof (Z.mod_pos_bound budget monthly ltac:(lia)) as Hr.
  assert (- 2 ^ 53 < budget / monthly < 2 ^ 53) as Hq.
  { split.
    - apply Z.lt_le_trans with (Z.min budget 0); [lia|].
      apply Z.div_le_lower_bound; nia.
    - apply Z.le_lt_trans with (Z.max budget 0); [|lia]. 
      apply Z.div_le_upper_bound; nia. }
  rewrite floor_div_Z2SF_signed by lia.
  rewrite floor_div_Z2SF_signed by lia.
  rewrite mul_Z2SF_signed by nia.
  rewrite sub_Z2SF by nia.
  replace (budget - budget / monthly * monthly) with (budget mod monthly) by lia.
  rewrite Math_round_Z2SF by lia.
  repeat split.
  apply sign_le_zero, Math_floor_sign.
  pose proof (div_sign (Z2SF monthly) (Z2SF 30)) as Hd.
  specialize (Hd (Z2SF_sign monthly ltac:(lia)) (Z2SF_sign 30 ltac:(lia))
                 (isFinite_Z2SF monthly ltac:(lia)) eq_refl).
  destruct (div (Z2SF monthly) (Z2SF 30)) as [s|s| |s m e] eqn:E; cbn in Hd; try tauto; subst s.
  - apply div_sign; [apply Z2SF_sign; lia | reflexivity | apply isFinite_Z2SF; lia | reflexivity].
  - cbn [ToBoolean]. assert (sign_is false (Z2SF (budget mod monthly))) as Hs by (apply Z2SF_sign; lia).
    assert (isFinite (Z2SF (budget mod monthly)) = true) as Hf by (apply isFinite_Z2SF; lia).
    destruct (Z2SF (budget mod monthly)) as [s|s| |s m e]; cbn in Hs; try tauto; try discriminate; subst; reflexivity.
  - apply div_sign; [apply Z2SF_sign; lia | reflexivity | apply isFinite_Z2SF; lia | reflexivity].
Qed.

End Longevity.

(** C1 (amended): for a whole budget in [0, 2^53) and a whole monthly
    expense in (0, 2^53) the result is exact: months is the integer
    quotient, years the integer quotient of months by 12, and remainder
    the integer remainder, so that months * monthly + remainder is the
    budget and 0 <= remainder < monthly. *)
Theorem calculateLongevity_whole_budget `{Host} (budget monthly : Z) :
  0 <= budget < 2 ^ 53 -> 0 < monthly < 2 ^ 53 ->
  let r := NomadFlow.calculateLongevity (VNumber (Z2SF budget)) (VNumber (Z2SF monthly)) in
  exists q rem,
    NomadFlow.months r = Z2SF q /\ NomadFlow.years r = Z2SF (q / 12) /\
    NomadFlow.remainder r = Z2SF rem /\
    q = budget / monthly /\ q * monthly + rem = budget /\ 0 <= rem < monthly.
Proof.
  intros Hb Hm r.
  destruct (calculateLongevity_whole budget monthly) as (Hq & Hy & Hr & _); try lia.
  exists (budget / monthly), (budget mod monthly).
  pose proof (Z.div_mod budget monthly ltac:(lia)).
  pose proof (Z.mod_pos_bound budget monthly ltac:(lia)).
  repeat split; try assumption; lia.
Qed.

Lemma calculateLongevity_whole_budget_witness :
  let r := NomadFlow.calculateLongevity (H := ascii_host)
             (VNumber (Z2SF 310000000)) (VNumber (Z2SF 25000000)) in
  exists q rem,
    NomadFlow.months r = Z2SF q /\ NomadFlow.years r = Z2SF (q / 12) /\
    NomadFlow.remainder r = Z2SF rem /\
    q = 310000000 / 25000000 /\ q * 25000000 + rem = 310000000 /\ 0 <= rem < 25000000.
Proof.
  apply (calculateLongevity_whole_budget (H := ascii_host) 310000000 25000000); lia.
Defined.

(** C1, as stated, fails on large budgets.  With budget 10^21 and
    monthly 180000 (both finite, exactly representable) the quotient
    5555555555555555.55... rounds up to 5555555555555556 before the
    floor, and the remainder is -131072: below 0 by more than one unit.
    With budget 10^17 and monthly 11 the remainder is 16: not below
    monthly, by more than one unit. *)
Lemma calculateLongevity_remainder_out_of_range :
  let r := NomadFlow.calculateLongevity (H := ascii_host)
             (VNumber (Z2SF (10 ^ 21))) (VNumber (Z2SF 180000)) in
  let r' := NomadFlow.calculateLongevity (H := ascii_host)
              (VNumber (Z2SF (10 ^ 17))) (VNumber (Z2SF 11)) in
  10 ^ 21 / 180000 = 5555555555555555 /\
  NomadFlow.months r = Z2SF 5555555555555556 /\
  NomadFlow.remainder r = Z2SF (- 131072) /\
  le (Z2SF (- 1)) (NomadFlow.remainder r) = false /\
  NomadFlow.remainder r' = Z2SF 16 /\
  le (NomadFlow.remainder r') (Z2SF (11 + 1)) = false.
Proof.
  vm_compute. repeat split.
Qed.




(** ** The end-to-end scenarios *)

(** C8: a budget of 300,000,000 at 25,000,000 a month lasts 12 months,
    1 year, with nothing left; a budget of 310,000,000 lasts 12 months,
    1 year, with 10,000,000 left, which covers 12 more days. *)
Theorem calculateLongevity_scenarios `{Host} :
  NomadFlow.calculateLongevity (VNumber (Z2SF 300000000)) (VNumber (Z2SF 25000000)) =
    {| NomadFlow.months := Z2SF 12; NomadFlow.years := Z2SF 1;
       NomadFlow.remainder := Z2SF 0; NomadFlow.daysApprox := Z2SF 0 |} /\
  NomadFlow.calculateLongevity (VNumber (Z2SF 310000000)) (VNumber (Z2SF 25000000)) =
    {| NomadFlow.months := Z2SF 12; NomadFlow.years := Z2SF 1;
       NomadFlow.remainder := Z2SF 10000000; NomadFlow.daysApprox := Z2SF 12 |}.
Proof.
  split; vm_compute; reflexivity.
Qed.

(** ** The two implementations *)

(** C10: [NomadFlow.calculateLongevity] and
    [BudgetUtils.calculateLongevity] return the same months, years,
    remainder and days on every pair of inputs. *)
Theorem calculateLongevity_implementations_agree `{Host} (budget monthly : value) :
  let r := NomadFlow.calculateLongevity budget monthly in
  let r' := BudgetUtils.calculateLongevity budget monthly in
  NomadFlow.months r = BudgetUtils.months r' /\
  NomadFlow.years r = BudgetUtils.years r' /\
  NomadFlow.remainder r = BudgetUtils.remainderVND r' /\
  NomadFlow.daysApprox r = BudgetUtils.daysApprox r'.
Proof.
  intros r r'. subst r r'.
  unfold NomadFlow.calculateLongevity, BudgetUtils.calculateLongevity.
  destruct (negb (isFinite (Number budget)) || negb (isFinite (Number monthly))
            || le (Number monthly) (Z2SF 0)); repeat split.
Qed.

(** ** Conversion *)

(** C4: [convertAmount] returns 0 when one of the coerced inputs is not
    finite, and otherwise [Math.round] of their product.  The rounding
    rule is round half up: an integral product is returned as it is,
    and a product [v] with a fractional part gives the integer
    [floor (v + 1/2)], so 2.5 gives 3 and -2.5 gives -2.  Converting
    1000 at 24500 gives 24500000. *)
Theorem convertAmount_spec `{Host} (amount rate : value) :
  (isFinite (Number amount) = false \/ isFinite (Number rate) = false ->
   NomadFlow.convertAmount amount rate = Z2SF 0) /\
  (isFinite (Number amount) = true /\ isFinite (Number rate) = true ->
   NomadFlow.convertAmount amount rate = Math_round (mul (Number amount) (Number rate))) /\
  (forall s m e, 0 <= e -> Math_round (S754_finite s m e) = S754_finite s m e) /\
  (forall s m e, e < 0 ->
   Math_round (S754_finite s m e) =
   binary_normalize prec emax ((2 * cond_Zopp s (Zpos m) + 2 ^ (- e)) / 2 ^ (- e + 1)) 0 s) /\
  NomadFlow.convertAmount (VNumber (div (Z2SF 5) (Z2SF 2))) (VNumber (Z2SF 1)) = Z2SF 3 /\
  NomadFlow.convertAmount (VNumber (div (Z2SF (- 5)) (Z2SF 2))) (VNumber (Z2SF 1)) = Z2SF (- 2) /\
  NomadFlow.convertAmount (VNumber (Z2SF 1000)) (VNumber (Z2SF 24500)) = Z2SF 24500000.
Proof.
  unfold NomadFlow.convertAmount. repeat split.
  - intros [E | E]; rewrite E; cbn [negb orb]; [reflexivity|].
    now rewrite orb_true_r.
  - intros [-> ->]. reflexivity.
  - intros s m e He. unfold Math_round. now destruct (Z.leb_spec 0 e); [|lia].
  - intros s m e He. now apply Math_round_half_up.
Qed.

(** The VND-only implementation converts in the same way. *)
Lemma convertToVND_convertAmount `{Host} (amount rate : value) :
  BudgetUtils.convertToVND amount rate = NomadFlow.convertAmount amount rate.
Proof. reflexivity. Qed.

(** On positive whole amounts and whole rates conversion is exactly
    linear as long as the result stays below 2^53:
    convert(k * amount, rate) = k * convert(amount, rate), both being
    the Number k * amount * rate. *)
Lemma convertAmount_linear_whole `{Host} (k amount rate : Z) :
  1 <= k -> 1 <= amount -> 1 <= rate -> k * amount * rate < 2 ^ 53 ->
  NomadFlow.convertAmount (VNumber (mul (Z2SF k) (Z2SF amount))) (VNumber (Z2SF rate)) =
    mul (Z2SF k) (NomadFlow.convertAmount (VNumber (Z2SF amount)) (VNumber (Z2SF rate))) /\
  NomadFlow.convertAmount (VNumber (mul (Z2SF k) (Z2SF amount))) (VNumber (Z2SF rate)) =
    Z2SF (k * amount * rate).
Proof.
  intros Hk Ha Hr Hbound.
  assert (k * amount <= k * amount * rate) by nia.
  assert (amount * rate <= k * amount * rate) by nia.
  assert (k <= k * amount) by nia. assert (amount <= k * amount) by nia.
  assert (rate <= amount * rate) by nia.
  unfold NomadFlow.convertAmount. cbn [Number].
  rewrite (mul_Z2SF k amount) by lia.
  rewrite !isFinite_Z2SF by lia. cbn [negb orb].
  rewrite !mul_Z2SF by lia. rewrite !Math_round_Z2SF by lia.
  rewrite mul_Z2SF by lia. split; f_equal; lia.
Qed.

(** Converting a whole amount [n] at a positive finite rate
    [m * 2 ^ e] gives a whole number [W] within 3/4 of the exact product,
    when that product is below [2 ^ 52]. *)
Lemma convertAmount_whole_finite `{Host} n m e :
  0 < n < 2 ^ 53 -> -1074 <= e ->
  n * Zpos m * 2 ^ (e + 1074) < 2 ^ (52 + 1074) ->
  exists W,
    NomadFlow.convertAmount (VNumber (Z2SF n)) (VNumber (S754_finite false m e)) = Z2SF W /\
    0 <= W /\ forall t, 0 <= t -> 0 <= e + t -> close W (n * Zpos m) e t.
Proof.
  intros Hn He Hv. destruct n as [|n|n]; try lia.
  assert (dg n <= 53) as Hdn by (apply dg_le_53; lia). pose proof (dg_pos n).
  destruct (mul_whole_finite n m e Hdn He Hv) as (N & e1 & n1 & HN & He1 & Hn1 & Ee1 & Hnear & Hmul).
  unfold NomadFlow.convertAmount. cbn [Number].
  rewrite isFinite_Z2SF by lia. cbn [isFinite negb orb].
  rewrite Z2SF_pos, Hmul by assumption. rewrite Math_round_finish by lia.
  set (A := 2 ^ (- e1)). set (B := 2 ^ n1).
  assert (2 <= A) as HA.
  { subst A. change 2 with (2 ^ 1). apply Z.pow_le_mono_r; lia. }
  assert (0 < B) as HB by (apply Z.pow_pos_nonneg; lia).
  replace (- e1 + 1) with (1 + - e1) by lia. rewrite Z.pow_add_r by lia.
  change (2 ^ 1) with 2. fold A.
  pose proof (Z.div_mod (2 * N + A) (2 * A) ltac:(lia)) as Hdm.
  pose proof (Z.mod_pos_bound (2 * N + A) (2 * A) ltac:(lia)) as Hr.
  set (W := (2 * N + A) / (2 * A)) in *.
  assert (0 <= W) as HW by (apply Z.div_pos; lia).
  exists W. split; [reflexivity|]. split; [assumption|].
  intros t Ht Het. apply (close_rescale W _ e (53 - dg n - e)); try lia.
  unfold close. replace (e + (53 - dg n - e)) with (53 - dg n) by lia.
  replace (Zpos n * Zpos m * 2 ^ (53 - dg n)) with (Zpos (mant n) * Zpos m)
    by (rewrite mant_eq by assumption; lia).
  assert (2 ^ (53 - dg n - e) = A * B) as ->.
  { subst A B. rewrite <- Z.pow_add_r by lia. f_equal. lia. }
  unfold nearest in Hnear. fold B in Hnear.
  set (P := Zpos (mant n) * Zpos m) in *. nia.
Qed.




(** ** Table lookups *)

(** Every entry of a table is truthy, so [||] only falls through on a
    name the table does not have. *)
Definition truthy_table (o : gmap string number) : Prop :=
  map_Forall (fun _ x => ToBoolean (VNumber x) = true) o.

Lemma fallback_rates_truthy :
  map_Forall (fun _ config => truthy_table (fallbackRate config) /\
                              is_Some (fallbackRate config !! "USD")) COUNTRY_CONFIG.
Proof.
  apply (bool_decide_unpack _). vm_compute. exact I.
Qed.

Lemma lifestyle_amounts_truthy :
  map_Forall (fun _ amounts => truthy_table amounts /\ is_Some (amounts !! "standard"))
             LIFESTYLE_MATRIX.
Proof.
  apply (bool_decide_unpack _). vm_compute. exact I.
Qed.

Lemma inherited_has_lower k : k ∈ Object_prototype -> has_lower k = true.
Proof.
  unfold Object_prototype. rewrite !elem_of_cons, elem_of_nil.
  intros Hk. repeat (destruct Hk as [->|Hk]; [reflexivity|]). destruct Hk.
Qed.

Lemma inherited_not_member k : k ∉ Object_prototype -> inherited k = VUndefined.
Proof.
  intros Hk. unfold inherited. now rewrite bool_decide_eq_false_2.
Qed.

Lemma inherited_upper `{Host} s : inherited (toUpperCase s) = VUndefined.
Proof.
  apply inherited_not_member. intros Hin.
  apply inherited_has_lower in Hin. rewrite toUpperCase_upper in Hin. discriminate.
Qed.

(** [o[k] || o[fallback]] on a table of truthy entries, for a name [k]
    that [Object.prototype] does not define. *)
Lemma get_number_or_else o k fallback x :
  truthy_table o -> inherited k = VUndefined -> o !! fallback = Some x ->
  or_else (get_number o k) (get_number o fallback) = VNumber (default x (o !! k)).
Proof.
  intros Ho Hk Hx. unfold or_else, get_number. destruct (o !! k) as [y|] eqn:Ey.
  - now rewrite (Ho k y Ey).
  - rewrite Hk, Hx. reflexivity.
Qed.

Section RateFallback.
Context `{Host}.

(** [lookup_fails] is exactly when the [try] block throws. *)
Lemma live_rate_fails toCurrency net :
  lookup_fails toCurrency net <-> exists e, NomadFlow.live_rate toCurrency net = Throws e.
Proof.
  split.
  - intros [ | b | | data Hdata]; cbn; [eauto .. |]. rewrite Hdata. eauto.
  - intros [e He]. destruct net as [|[] [|data]]; cbn in He; try constructor.
    destruct (rate_field data toCurrency) eqn:E; [discriminate | reflexivity].
Qed.

(** C5: when the live lookup fails (the transport fails, the response
    is not ok, its body is not JSON, or it holds no numeric rate for the
    requested currency), [fetchExchangeRate] does not throw: it returns
    the fallback rate that the profile of the current country gives for
    the source currency, by its upper-cased code, or the profile's USD
    rate when the table has no such code. *)
Theorem fetchExchangeRate_fallback (currentCountry fromCurrency toCurrency : string)
    (config : country_config) (net : fetch_result) :
  COUNTRY_CONFIG !! currentCountry = Some config ->
  lookup_fails toCurrency net ->
  exists usd,
    fallbackRate config !! "USD" = Some usd /\
    NomadFlow.fetchExchangeRate currentCountry fromCurrency toCurrency net =
      Returns (VNumber (default usd (fallbackRate config !! toUpperCase fromCurrency))).
Proof.
  intros Hconfig Hfails.
  destruct (fallback_rates_truthy currentCountry config Hconfig) as [Htruthy [usd Husd]].
  exists usd. split; [exact Husd|].
  apply live_rate_fails in Hfails as [e He].
  unfold NomadFlow.fetchExchangeRate, NomadFlow.fallback_rate. rewrite He, Hconfig.
  f_equal. apply get_number_or_else; [exact Htruthy | apply inherited_upper | exact Husd].
Qed.

(** A document without a [rates] object, or whose [rates] object has no
    member for the currency, or a member that is not a number, is a
    failed lookup. *)
Lemma rate_field_missing (props : gmap string json) (toCurrency : string) :
  props !! "rates" = None -> rate_field (JObj props) toCurrency = None.
Proof.
  intros Hrates. unfold rate_field. cbn. now rewrite Hrates.
Qed.

Lemma rate_field_not_numeric (props quotes : gmap string json) (toCurrency : string) :
  props !! "rates" = Some (JObj quotes) ->
  (forall x, quotes !! toCurrency <> Some (JNum x)) ->
  rate_field (JObj props) toCurrency = None.
Proof.
  intros Hrates Hnum. unfold rate_field. cbn. rewrite Hrates. cbn.
  destruct (quotes !! toCurrency) as [[]|] eqn:E; try reflexivity.
  now destruct (Hnum x).
Qed.

(** A live rate is returned as it is. *)
Lemma fetchExchangeRate_live (currentCountry fromCurrency toCurrency : string)
    (data : json) (x : number) :
  rate_field data toCurrency = Some x ->
  NomadFlow.fetchExchangeRate currentCountry fromCurrency toCurrency
    (FetchResolves true (JsonResolves data)) = Returns (VNumber x).
Proof.
  intros Hrate. unfold NomadFlow.fetchExchangeRate. cbn. now rewrite Hrate.
Qed.

(** Outside the configured countries the [catch] block itself throws. *)
Lemma fetchExchangeRate_unknown_country (fromCurrency toCurrency : string) :
  NomadFlow.fetchExchangeRate "XX" fromCurrency toCurrency FetchRejects = Throws TypeError.
Proof. reflexivity. Qed.

End RateFallback.

Lemma fetchExchangeRate_fallback_witness :
  NomadFlow.fetchExchangeRate (H := ascii_host) "VN" "eur" "VND" FetchRejects =
    Returns (VNumber (Z2SF 26500)) /\
  NomadFlow.fetchExchangeRate (H := ascii_host) "TH" "JPY" "THB"
    (FetchResolves true (JsonResolves (JObj ∅))) = Returns (VNumber (Z2SF 35)).
Proof.
  split.
  - edestruct (fetchExchangeRate_fallback (H := ascii_host) "VN" "eur" "VND")
      as (usd & Husd & ->); [reflexivity | apply transport_failure | reflexivity].
  - edestruct (fetchExchangeRate_fallback (H := ascii_host) "TH" "JPY" "THB")
      as (usd & Husd & ->); [reflexivity | apply rate_missing; reflexivity |].
    vm_compute in Husd. injection Husd as <-. reflexivity.
Defined.

(** ** Lifestyle amounts *)

Section Lifestyle.
Context `{Host}.

(** X11: for a country of the matrix and a tier name that [Object.prototype]
    does not define, the amount of the tier is returned, or the amount
    of "standard" when the country has no such tier. *)
Lemma getLifestyleAmount_own (countryCode lifestyle : string) (amounts : gmap string number) :
  LIFESTYLE_MATRIX !! countryCode = Some amounts ->
  lifestyle ∉ Object_prototype ->
  exists standard,
    amounts !! "standard" = Some standard /\
    NomadFlow.getLifestyleAmount countryCode lifestyle =
      VNumber (default standard (amounts !! lifestyle)).
Proof.
  intros Hc Hl.
  destruct (lifestyle_amounts_truthy countryCode amounts Hc) as [Htruthy [standard Hs]].
  exists standard. split; [exact Hs|].
  unfold NomadFlow.getLifestyleAmount, NomadFlow.tier. rewrite Hc.
  rewrite (get_number_or_else amounts lifestyle "standard" standard Htruthy
             (inherited_not_member _ Hl) Hs).
  unfold or_else. destruct (amounts !! lifestyle) as [y|] eqn:Ey; cbn [from_option id].
  - now rewrite (Htruthy lifestyle y Ey).
  - now rewrite (Htruthy "standard" standard Hs).
Qed.

(** A country code that names neither an entry of the matrix nor a
    member of [Object.prototype] gives 0. *)
Lemma getLifestyleAmount_unknown_country (countryCode lifestyle : string) :
  LIFESTYLE_MATRIX !! countryCode = None -> countryCode ∉ Object_prototype ->
  NomadFlow.getLifestyleAmount countryCode lifestyle = VNumber (Z2SF 0).
Proof.
  intros Hc Hp. unfold NomadFlow.getLifestyleAmount, NomadFlow.tier.
  rewrite Hc, (inherited_not_member _ Hp). reflexivity.
Qed.

(** C6 fails on the tier names that every object inherits: asked for
    the tier "constructor" (or "toString", "valueOf", ...) of Vietnam,
    which the profile does not have, [getLifestyleAmount] returns the
    inherited built-in instead of the "standard" amount 25000000. *)
Theorem getLifestyleAmount_inherited_name :
  LIFESTYLE_MATRIX !! "VN" = Some (tiers 12000000 25000000 60000000) /\
  tiers 12000000 25000000 60000000 !! "constructor" = None /\
  NomadFlow.getLifestyleAmount "VN" "constructor" = VBuiltin "constructor" /\
  NomadFlow.getLifestyleAmount "VN" "toString" = VBuiltin "toString" /\
  NomadFlow.getLifestyleAmount "VN" "premium" = VNumber (Z2SF 25000000).
Proof.
  repeat split.
Qed.

End Lifestyle.

(** * Further properties

    The functions on every input, the rate lookups and the formatters,
    and the handlers of the two pages. *)

Ltac run :=
  unfold Page.runCalculation, mbind, action_bind, mret, action_ret,
    lift, read, write; cbn beta iota.

Ltac fmt :=
  match goal with
  | |- context [NomadFlow.formatCurrency ?a ?c] => destruct (NomadFlow.formatCurrency a c)
  end.

Ltac page_simpl :=
  cbn [fst snd Page.set_rateInput Page.set_localResult Page.set_longevityResult
       Page.set_fill_width Page.set_fill_background Page.currencySelect Page.amountInput
       Page.monthlyInput Page.rateInput Page.localResult Page.longevityResult
       Page.fill_width Page.fill_background].

(** ** Longevity on every input *)

Section LongevityGeneral.
Context `{Host}.

(** X1: whatever the inputs, as long as the monthly expense is a
    binary64 value, [calculateLongevity] gives no NaN for months, years
    and days, and its remainder is NaN only when the budget itself
    coerces to NaN. *)
Theorem calculateLongevity_not_NaN (budgetLocal monthlyExpense : value) :
  valid_binary prec emax (Number monthlyExpense) = true ->
  let r := NomadFlow.calculateLongevity budgetLocal monthlyExpense in
  NomadFlow.months r <> NaN /\ NomadFlow.years r <> NaN /\ NomadFlow.daysApprox r <> NaN /\
  (NomadFlow.remainder r = NaN <-> Number budgetLocal = NaN).
Proof.
  intros Hvalid r. subst r. unfold NomadFlow.calculateLongevity.
  set (budget := Number budgetLocal). set (monthly := Number monthlyExpense) in *.
  destruct (isFinite budget) eqn:Fb; cbn [negb orb].
  2:{ cbn. repeat split; try discriminate; auto. }
  destruct (isFinite monthly) eqn:Fm; cbn [negb orb].
  2:{ cbn. repeat split; try discriminate; auto. }
  destruct (le monthly (Z2SF 0)) eqn:Lm.
  { cbn. repeat split; try discriminate; auto. }
  cbv zeta. cbn [NomadFlow.months NomadFlow.years NomadFlow.remainder NomadFlow.daysApprox].
  destruct (positive_finite monthly Fm Lm) as (m & e & Em).
  assert (budget <> NaN) as Hb by (intros E; rewrite E in Fb; discriminate).
  assert (Math_floor (div budget monthly) <> NaN) as Hmonths.
  { apply Math_floor_not_nan. rewrite Em. now apply div_not_nan. }
  assert (Math_round (sub budget (mul (Math_floor (div budget monthly)) monthly)) <> NaN) as Hrem.
  { apply Math_round_not_nan, sub_not_nan; [assumption|]. rewrite Em at 2. now apply mul_not_nan. }
  split; [assumption|]. split.
  { apply Math_floor_not_nan. change (Z2SF 12) with (S754_finite false 6755399441055744 (- 49)).
    now apply div_not_nan. }
  split.
  { apply Math_floor_not_nan.
    pose proof (dailyExpense_finite monthly Hvalid Fm) as Fd.
    destruct (ToBoolean (VNumber (div monthly (Z2SF 30)))) eqn:Td.
    - destruct (truthy_finite _ Fd Td) as (s' & m' & e' & ->). now apply div_not_nan.
    - change (Z2SF 1) with (S754_finite false 4503599627370496 (- 52)). now apply div_not_nan. }
  split; [intros E; now destruct Hrem | intros E; now destruct Hb].
Qed.

(** X2: months, years and days are always integral: [Math.floor] leaves
    them unchanged; so is the remainder outside the sentinel branch. *)
Theorem calculateLongevity_integral (budgetLocal monthlyExpense : value) :
  let r := NomadFlow.calculateLongevity budgetLocal monthlyExpense in
  Math_floor (NomadFlow.months r) = NomadFlow.months r /\
  Math_floor (NomadFlow.years r) = NomadFlow.years r /\
  Math_floor (NomadFlow.daysApprox r) = NomadFlow.daysApprox r /\
  (isFinite (Number budgetLocal) = true -> isFinite (Number monthlyExpense) = true ->
   le (Number monthlyExpense) (Z2SF 0) = false ->
   Math_floor (NomadFlow.remainder r) = NomadFlow.remainder r).
Proof.
  intros r. subst r. unfold NomadFlow.calculateLongevity.
  destruct (negb (isFinite (Number budgetLocal)) || negb (isFinite (Number monthlyExpense))
            || le (Number monthlyExpense) (Z2SF 0)) eqn:G.
  - cbn [NomadFlow.months NomadFlow.years NomadFlow.remainder NomadFlow.daysApprox].
    repeat split. intros Fb Fm Lm. rewrite Fb, Fm, Lm in G. discriminate.
  - cbv zeta. cbn [NomadFlow.months NomadFlow.years NomadFlow.remainder NomadFlow.daysApprox].
    repeat split; try apply Math_floor_fixed. intros _ _ _. apply Math_round_fixed.
Qed.

(** X3: a finite budget that is not negative and a positive monthly
    expense give months and years that are not negative, whether the
    inputs are whole or not. *)
Theorem calculateLongevity_nonneg (budgetLocal monthlyExpense : value) :
  isFinite (Number budgetLocal) = true -> le (Z2SF 0) (Number budgetLocal) = true ->
  isFinite (Number monthlyExpense) = true -> le (Number monthlyExpense) (Z2SF 0) = false ->
  let r := NomadFlow.calculateLongevity budgetLocal monthlyExpense in
  le (Z2SF 0) (NomadFlow.months r) = true /\ le (Z2SF 0) (NomadFlow.years r) = true.
Proof.
  intros Fb Lb Fm Lm r. subst r. unfold NomadFlow.calculateLongevity.
  rewrite Fb, Fm, Lm. cbn [negb orb]. cbv zeta. cbn [NomadFlow.months NomadFlow.years].
  destruct (positive_finite _ Fm Lm) as (m & e & ->).
  assert (le (Z2SF 0) (Math_floor (div (Number budgetLocal) (S754_finite false m e))) = true) as Hm.
  { now apply Math_floor_nonneg, div_nonneg. }
  split; [assumption|].
  apply Math_floor_nonneg. change (Z2SF 12) with (S754_finite false 6755399441055744 (- 49)).
  now apply div_nonneg.
Qed.

(** ** Conversion on every input *)

(** X4: [convertAmount] never returns NaN, and what it returns is
    integral: [Math.floor] and [Math.round] leave it unchanged. *)
Theorem convertAmount_integral (amount rate : value) :
  let r := NomadFlow.convertAmount amount rate in
  r <> NaN /\ Math_floor r = r /\ Math_round r = r.
Proof.
  intros r. subst r. unfold NomadFlow.convertAmount.
  destruct (isFinite (Number amount)) eqn:Fa; cbn [negb orb]; [|repeat split; discriminate].
  destruct (isFinite (Number rate)) eqn:Fr; cbn [negb orb]; [|repeat split; discriminate].
  assert (mul (Number amount) (Number rate) <> NaN) as Hm.
  { destruct (Number amount) as [sa|sa| |sa ma ea]; try discriminate;
      destruct (Number rate) as [sr|sr| |sr mr er]; try discriminate.
    now apply mul_not_nan. }
  split; [now apply Math_round_not_nan|]. apply Math_round_fixed.
Qed.

(** X5: converting a whole amount, of either sign, at a whole positive
    rate is exact as long as the product is below 2^53 in absolute
    value. *)
Theorem convertAmount_whole_exact (n r : Z) :
  - 2 ^ 53 < n < 2 ^ 53 -> 0 < r < 2 ^ 53 -> - 2 ^ 53 < n * r < 2 ^ 53 ->
  NomadFlow.convertAmount (VNumber (Z2SF n)) (VNumber (Z2SF r)) = Z2SF (n * r).
Proof.
  intros Hn Hr Hnr. unfold NomadFlow.convertAmount. cbn [Number].
  rewrite !isFinite_Z2SF by lia. cbn [negb orb].
  rewrite mul_Z2SF_signed by lia. apply Math_round_Z2SF. lia.
Qed.

(** X6: converting a whole amount [n] at a positive finite rate
    [m * 2^e], whole or not, gives a whole number within 3/4 of the exact
    product when that product is below 2^52 (the inequality is scaled by
    2^1074, which makes both sides integers). *)
Theorem convertAmount_error_bound (n : Z) (m : positive) (e : Z) :
  0 < n < 2 ^ 53 -> -1074 <= e ->
  n * Zpos m * 2 ^ (e + 1074) < 2 ^ (52 + 1074) ->
  exists W,
    NomadFlow.convertAmount (VNumber (Z2SF n)) (VNumber (S754_finite false m e)) = Z2SF W /\
    0 <= W /\
    4 * Z.abs (W * 2 ^ 1074 - n * Zpos m * 2 ^ (e + 1074)) <= 3 * 2 ^ 1074.
Proof.
  intros Hn He Hv.
  destruct (convertAmount_whole_finite n m e Hn He Hv) as (W & HW & HW0 & Hclose).
  exists W. split; [exact HW|]. split; [exact HW0|].
  specialize (Hclose 1074 ltac:(lia) ltac:(lia)). unfold close in Hclose. lia.
Qed.

End LongevityGeneral.

(** ** The rate lookup *)

Lemma fallback_rates_positive :
  map_Forall (fun _ config =>
    map_Forall (fun _ x => isFinite x = true /\ le x (Z2SF 0) = false) (fallbackRate config))
    COUNTRY_CONFIG.
Proof.
  apply (bool_decide_unpack _). vm_compute. exact I.
Qed.

Lemma currency_codes_plain :
  map_Forall (fun _ config => String.eqb (currency config) "length" = false /\
                              array_index (currency config) = None) COUNTRY_CONFIG.
Proof.
  apply (bool_decide_unpack _). vm_compute. exact I.
Qed.

Section RateLookup.
Context `{Host}.

Lemma live_rate_number toCurrency net v :
  NomadFlow.live_rate toCurrency net = Returns v ->
  exists data x, net = FetchResolves true (JsonResolves data) /\
                 rate_field data toCurrency = Some x /\ v = VNumber x.
Proof.
  destruct net as [|[] [|data]]; cbn; try discriminate.
  destruct (rate_field data toCurrency) as [x|] eqn:E; [|discriminate].
  intros [= <-]. exists data, x. auto.
Qed.

Lemma fetchExchangeRate_configured c config fromCurrency toCurrency net :
  COUNTRY_CONFIG !! c = Some config ->
  exists x, NomadFlow.fetchExchangeRate c fromCurrency toCurrency net = Returns (VNumber x) /\
            (lookup_fails toCurrency net -> isFinite x = true /\ le x (Z2SF 0) = false).
Proof.
  intros Hc. unfold NomadFlow.fetchExchangeRate.
  destruct (NomadFlow.live_rate toCurrency net) as [v|e] eqn:El.
  - destruct (live_rate_number _ _ _ El) as (data & x & _ & _ & ->).
    exists x. split; [reflexivity|]. intros Hf. apply live_rate_fails in Hf as [e He]. congruence.
  - unfold NomadFlow.fallback_rate. rewrite Hc.
    destruct (fallback_rates_truthy c config Hc) as [Htruthy [usd Husd]].
    rewrite (get_number_or_else _ _ "USD" usd Htruthy (inherited_upper _) Husd).
    eexists. split; [reflexivity|]. intros _.
    pose proof (fallback_rates_positive c config Hc) as Hpos.
    destruct (fallbackRate config !! toUpperCase fromCurrency) as [y|] eqn:Ey;
      cbn [default from_option id].
    + exact (Hpos _ _ Ey).
    + exact (Hpos _ _ Husd).
Qed.

(** X7: for a configured current country [fetchExchangeRate] never
    throws and always returns a Number, whatever the network does and
    whatever the source currency is; when the lookup fails, the Number
    is finite and positive. *)
Theorem fetchExchangeRate_never_throws c config fromCurrency toCurrency net :
  COUNTRY_CONFIG !! c = Some config ->
  exists x,
    NomadFlow.fetchExchangeRate c fromCurrency toCurrency net = Returns (VNumber x) /\
    (lookup_fails toCurrency net -> isFinite x = true /\ le x (Z2SF 0) = false) /\
    (forall data y, net = FetchResolves true (JsonResolves data) ->
                    rate_field data toCurrency = Some y -> x = y).
Proof.
  intros Hc.
  destruct (fetchExchangeRate_configured c config fromCurrency toCurrency net Hc) as (x & Hx & Hf).
  exists x. split; [exact Hx|]. split; [exact Hf|].
  intros data y -> Hy. unfold NomadFlow.fetchExchangeRate in Hx. cbn in Hx. rewrite Hy in Hx.
  now injection Hx.
Qed.

(** X8: when the current country is neither configured nor a name of
    [Object.prototype], a failed lookup makes [fetchExchangeRate] throw
    a TypeError from its [catch] block. *)
Theorem fetchExchangeRate_unknown_country_throws c fromCurrency toCurrency net :
  COUNTRY_CONFIG !! c = None -> c ∉ Object_prototype -> lookup_fails toCurrency net ->
  NomadFlow.fetchExchangeRate c fromCurrency toCurrency net = Throws TypeError.
Proof.
  intros Hc Hp Hf. apply live_rate_fails in Hf as [e He].
  unfold NomadFlow.fetchExchangeRate, NomadFlow.fallback_rate.
  now rewrite He, Hc, (inherited_not_member _ Hp).
Qed.

(** X9: [BudgetUtils.fetchExchangeRate] never throws and always returns
    a Number; when the lookup fails it is the table's rate for the
    upper-cased currency code, or 24000 for a code the table does not
    have, and in both cases finite and positive. *)
Theorem fetchExchangeRate_VND_total fromCurrency net :
  exists x, BudgetUtils.fetchExchangeRate fromCurrency net = Returns (VNumber x) /\
    (lookup_fails "VND" net ->
     x = default (Z2SF 24000) (BudgetUtils.fallback !! toUpperCase fromCurrency) /\
     isFinite x = true /\ le x (Z2SF 0) = false).
Proof.
  unfold BudgetUtils.fetchExchangeRate.
  destruct (NomadFlow.live_rate "VND" net) as [v|e] eqn:El.
  - destruct (live_rate_number _ _ _ El) as (data & x & _ & _ & ->).
    exists x. split; [reflexivity|]. intros Hf. apply live_rate_fails in Hf as [e He]. congruence.
  - assert (map_Forall (fun _ x => ToBoolean (VNumber x) = true /\ isFinite x = true /\
                                   le x (Z2SF 0) = false) BudgetUtils.fallback) as Htab.
    { apply (bool_decide_unpack _). vm_compute. exact I. }
    unfold or_else, get_number.
    destruct (BudgetUtils.fallback !! toUpperCase fromCurrency) as [y|] eqn:Ey.
    + destruct (Htab _ _ Ey) as (Hb & Hf & Hl). rewrite Hb. exists y. repeat split; assumption.
    + rewrite inherited_upper. cbn [ToBoolean]. eexists. repeat split.
Qed.

End RateLookup.

(** X10: for the currency of a configured country, a response gives a
    live rate exactly when it is an object whose [rates] member is an
    object with a numeric member of that name; the rate is that
    member. *)
Theorem rate_field_accepts c config data x :
  COUNTRY_CONFIG !! c = Some config ->
  rate_field data (currency config) = Some x <->
  exists props quotes,
    data = JObj props /\ props !! "rates" = Some (JObj quotes) /\
    quotes !! currency config = Some (JNum x).
Proof.
  intros Hc. destruct (currency_codes_plain c config Hc) as [Hlen Hidx]. split.
  - unfold rate_field.
    destruct data as [|b|y|s|items|props]; cbn [data_rates];
      try (destruct (json_truthy _); discriminate).
    cbn [json_truthy]. destruct (props !! "rates") as [r|] eqn:Er; [|discriminate].
    destruct (json_truthy r); [|discriminate].
    destruct r as [|b|y|s|items|quotes]; cbn [numeric_member]; try discriminate.
    + rewrite Hlen. discriminate.
    + rewrite Hlen, Hidx. cbn. discriminate.
    + destruct (quotes !! currency config) as [[]|] eqn:Eq; try discriminate.
      intros [= ->]. eauto.
  - intros (props & quotes & -> & Er & Eq). unfold rate_field. cbn. rewrite Er. cbn. now rewrite Eq.
Qed.

(** ** Formatting *)

Section Formatting.
Context `{Host} `{Browser}.

Lemma formatCurrency_configured c config amount :
  COUNTRY_CONFIG !! c = Some config -> exists s, NomadFlow.formatCurrency amount c = Returns s.
Proof.
  intros Hc. unfold NomadFlow.formatCurrency. rewrite Hc. cbv zeta.
  destruct (NumberFormat _ _ _ _); eauto.
Qed.

(** X12: [formatCurrency] throws a TypeError for a country that is
    neither configured nor a name of [Object.prototype]; for a
    configured country it never throws, even when the formatter does;
    and an amount that coerces to NaN or to a zero is formatted as 0. *)
Theorem formatCurrency_spec amount c :
  (COUNTRY_CONFIG !! c = None -> c ∉ Object_prototype ->
   NomadFlow.formatCurrency amount c = Throws TypeError) /\
  (forall config, COUNTRY_CONFIG !! c = Some config ->
   exists s, NomadFlow.formatCurrency amount c = Returns s) /\
  (ToBoolean (VNumber (Number amount)) = false ->
   NomadFlow.formatCurrency amount c = NomadFlow.formatCurrency (VNumber (Z2SF 0)) c).
Proof.
  split; [|split].
  - intros Hc Hp. unfold NomadFlow.formatCurrency. now rewrite Hc, (inherited_not_member _ Hp).
  - intros config Hc. now apply (formatCurrency_configured c config).
  - intros Hb. unfold NomadFlow.formatCurrency, or_zero. rewrite Hb. reflexivity.
Qed.

End Formatting.

(** ** The bar *)

(** Six or more whole months fill the bar. *)
Lemma safetyScore_full m : 6 <= m < 2 ^ 53 -> safetyScore (Z2SF m) = Z2SF 100.
Proof.
  intros Hm. unfold safetyScore. destruct m as [|a|a]; try lia.
  assert (dg a <= 53) as Ha by (apply dg_le_53; lia).
  change (Z2SF 100) with (S754_finite false 7036874417766400 (- 46)) at 2 3.
  apply Math_min_ge. change (S754_finite false 7036874417766400 (- 46)) with (Z2SF 100).
  destruct (Z_lt_le_dec (Zpos a) 8) as [Hsmall|Hbig].
  { assert (a = 6 \/ a = 7)%positive as [-> | ->] by lia; reflexivity. }
  assert (4 <= dg a) as Hd.
  { pose proof (dg_bounds a) as [_ Hhi]. destruct (Z_lt_le_dec (dg a) 4) as [Hlt|]; [|assumption].
    assert (2 ^ dg a <= 2 ^ 3) by (apply Z.pow_le_mono_r; lia). change (2 ^ 3) with 8 in *. lia. }
  rewrite (Z2SF_pos a Ha). change (Z2SF 6) with (whole false 6).
  destruct (div_whole false false a 6 Ha ltac:(vm_compute; discriminate)) as (N & t & Ht & HN & _ & ->).
  change (dg 6) with 3. cbn [xorb].
  rewrite finish_range by lia.
  destruct (Z.eqb_spec N (2 ^ 53)).
  - apply mul_100_ge; [reflexivity | lia].
  - apply mul_100_ge; [|lia]. destruct N as [|pn|pn]; try lia. cbn [Z.to_pos].
    apply dg_unique. change (53 - 1) with 52. lia.
Qed.

Lemma background_thresholds m :
  0 <= m < 2 ^ 53 ->
  background (safetyScore (Z2SF m)) =
    (if 6 <=? m then "#34c759" else if 3 <=? m then "#ffcc00" else "#ff3b30").
Proof.
  intros Hm. destruct (Z.leb_spec 6 m) as [H6|H6].
  - rewrite safetyScore_full by lia. reflexivity.
  - assert (m = 0 \/ m = 1 \/ m = 2 \/ m = 3 \/ m = 4 \/ m = 5) as Hc by lia.
    destruct Hc as [->|[->|[->|[->|[->| ->]]]]]; reflexivity.
Qed.

(** X13: for a whole number of months below 2^53 the bar is green from
    six months on, where it is full, yellow from three to five months
    and red below three. *)
Theorem safetyScore_colours m :
  0 <= m < 2 ^ 53 ->
  background (safetyScore (Z2SF m)) =
    (if 6 <=? m then "#34c759" else if 3 <=? m then "#ffcc00" else "#ff3b30") /\
  (6 <= m -> safetyScore (Z2SF m) = Z2SF 100) /\
  (m < 6 -> le (Z2SF 100) (safetyScore (Z2SF m)) = false).
Proof.
  intros Hm. split; [now apply background_thresholds|].
  split; [intros; apply safetyScore_full; lia|].
  intros H6. assert (m = 0 \/ m = 1 \/ m = 2 \/ m = 3 \/ m = 4 \/ m = 5) as Hc by lia.
  destruct Hc as [->|[->|[->|[->|[->| ->]]]]]; reflexivity.
Qed.

(** ** The calculation on the page *)

Lemma or_zero_Z2SF n : 0 <= n < 2 ^ 53 -> or_zero (Z2SF n) = Z2SF n.
Proof.
  intros Hn. destruct n as [|p|p]; try lia; [reflexivity|].
  unfold or_zero. rewrite Z2SF_pos by (apply dg_le_53; lia). reflexivity.
Qed.

Lemma is_digit_pretty_N_char x : is_digit (pretty_N_char x) = true.
Proof. destruct x as [|p]; [reflexivity|]. do 4 (destruct p as [p|p|]; try reflexivity). Qed.

Lemma digits_only_pretty_N_go x s :
  digits_only s = s -> digits_only (pretty_N_go x s) = pretty_N_go x s.
Proof.
  revert s. induction (N.lt_wf_0 x) as [x _ IH]. intros s Hs.
  destruct (N.eq_dec x 0%N) as [->|Hx]; [now rewrite pretty_N_go_0|].
  rewrite pretty_N_go_step by lia. apply IH; [apply N.div_lt; lia|].
  cbn [digits_only]. now rewrite is_digit_pretty_N_char, Hs.
Qed.

(** The decimal numeral of a whole number has only digits. *)
Lemma digits_only_pretty (n : Z) : 0 <= n -> digits_only (pretty n) = pretty n.
Proof.
  intros Hn. destruct n as [|p|p]; try lia; [reflexivity|].
  unfold pretty, pretty_Z, pretty, pretty_positive, pretty, pretty_N.
  destruct (decide (N.pos p = 0%N)); [reflexivity|]. now apply digits_only_pretty_N_go.
Qed.

Section PageScripts.
Context `{Host} `{Browser}.

(** The handler writes only the rate, the results and the bar. *)
Lemma runCalculation_keeps_inputs c net p :
  let p' := fst (Page.runCalculation c net p) in
  Page.currencySelect p' = Page.currencySelect p /\ Page.amountInput p' = Page.amountInput p /\
  Page.monthlyInput p' = Page.monthlyInput p.
Proof.
  run. destruct (Page.config_currency c); [|repeat split].
  destruct (_ || _).
  - destruct (NomadFlow.fetchExchangeRate _ _ _ _); [|repeat split].
    cbn [Page.set_rateInput Page.amountInput Page.monthlyInput]. fmt; [|repeat split].
    destruct (_ || _); [repeat split|]. fmt; repeat split.
  - fmt; [|repeat split]. destruct (_ || _); [repeat split|]. fmt; repeat split.
Qed.

(** X14: when the current country is neither configured nor a name of
    [Object.prototype], [runCalculation] throws a TypeError before it
    writes anything to the page. *)
Theorem runCalculation_unknown_country c net p :
  COUNTRY_CONFIG !! c = None -> c ∉ Object_prototype ->
  Page.runCalculation c net p = (p, Throws TypeError).
Proof.
  intros Hc Hp. run. unfold Page.config_currency. now rewrite Hc, (inherited_not_member _ Hp).
Qed.

(** X15: for a configured country [runCalculation] never throws,
    whatever the fields hold and whatever the network does, and it
    leaves the currency, amount and monthly fields as they are. *)
Theorem runCalculation_never_throws c config net p :
  COUNTRY_CONFIG !! c = Some config ->
  let p' := fst (Page.runCalculation c net p) in
  snd (Page.runCalculation c net p) = Returns tt /\
  Page.currencySelect p' = Page.currencySelect p /\ Page.amountInput p' = Page.amountInput p /\
  Page.monthlyInput p' = Page.monthlyInput p.
Proof.
  intros Hc p'. split; [|apply runCalculation_keeps_inputs]. clear p'.
  run. unfold Page.config_currency. rewrite Hc.
  destruct (_ || _).
  - destruct (fetchExchangeRate_configured c config (Page.currencySelect p) (currency config) net Hc)
      as (x & -> & _). cbn [Page.set_rateInput Page.amountInput Page.monthlyInput].
    destruct (formatCurrency_configured c config
                (VNumber (NomadFlow.convertAmount
                   (VNumber (or_zero (StringToNumber (Page.amountInput p)))) (VNumber x))) Hc)
      as [s ->].
    destruct (_ || _); [reflexivity|].
    match goal with
    | |- context [NomadFlow.formatCurrency ?a c] =>
        destruct (formatCurrency_configured c config a Hc) as [s' ->]
    end. reflexivity.
  - destruct (formatCurrency_configured c config
                (VNumber (NomadFlow.convertAmount
                   (VNumber (or_zero (StringToNumber (Page.amountInput p))))
                   (VNumber (StringToNumber (Page.rateInput p))))) Hc) as [s ->].
    destruct (_ || _); [reflexivity|].
    match goal with
    | |- context [NomadFlow.formatCurrency ?a c] =>
        destruct (formatCurrency_configured c config a Hc) as [s' ->]
    end. reflexivity.
Qed.

(** X16: a finite positive number in the rate field is the rate that is
    used: no lookup is made, so the outcome does not depend on the
    network, and the rate field is left as it is. *)
Theorem runCalculation_typed_rate c net net' p :
  isFinite (StringToNumber (Page.rateInput p)) = true ->
  le (StringToNumber (Page.rateInput p)) (Z2SF 0) = false ->
  Page.runCalculation c net p = Page.runCalculation c net' p /\
  Page.rateInput (fst (Page.runCalculation c net p)) = Page.rateInput p.
Proof.
  intros Hf Hl. run. rewrite Hf, Hl. cbn [negb orb].
  split; [reflexivity|].
  destruct (Page.config_currency c); [|reflexivity].
  fmt; [|reflexivity]. destruct (_ || _); [reflexivity|]. fmt; reflexivity.
Qed.

(** X17: only the digits of the monthly field count: two texts with the
    same digits, such as [25,000,000] and [25000000], or [1.5] and
    [15], give the same run, up to the text of the monthly field
    itself. *)
Theorem runCalculation_monthly_digits c net p s s' :
  digits_only s = digits_only s' ->
  Page.runCalculation c net (Page.set_monthlyInput s p) =
  (Page.set_monthlyInput s (fst (Page.runCalculation c net (Page.set_monthlyInput s' p))),
   snd (Page.runCalculation c net (Page.set_monthlyInput s' p))).
Proof.
  intros E. run.
  cbn [Page.set_monthlyInput Page.currencySelect Page.amountInput Page.monthlyInput Page.rateInput].
  rewrite E. destruct (Page.config_currency c); [|reflexivity].
  destruct (_ || _).
  - destruct (NomadFlow.fetchExchangeRate _ _ _ _); [|reflexivity].
    cbn [Page.set_rateInput Page.amountInput Page.monthlyInput]. fmt; [|reflexivity].
    destruct (_ || _); [reflexivity|]. fmt; reflexivity.
  - fmt; [|reflexivity]. destruct (_ || _); [reflexivity|]. fmt; reflexivity.
Qed.

(** X18: the whole run on whole numbers.  When the amount field reads
    as the whole number [a], the rate field as the whole rate [r] and
    the digits of the monthly field as [M], all positive, with
    [a * r < 2^53], the page shows the local amount [a * r], the
    months [a * r / M], the years, the remainder [a * r mod M], and a
    bar that is green from six months on, yellow from three, red below;
    the rate field is left as it is. *)
Theorem runCalculation_whole c config net p (a r M : Z) :
  COUNTRY_CONFIG !! c = Some config ->
  StringToNumber (Page.amountInput p) = Z2SF a ->
  StringToNumber (Page.rateInput p) = Z2SF r ->
  StringToNumber (digits_only (Page.monthlyInput p)) = Z2SF M ->
  0 < a -> 0 < r -> 0 < M < 2 ^ 53 -> a * r < 2 ^ 53 ->
  let q := a * r / M in
  let p' := fst (Page.runCalculation c net p) in
  snd (Page.runCalculation c net p) = Returns tt /\
  Page.rateInput p' = Page.rateInput p /\
  NomadFlow.formatCurrency (VNumber (Z2SF (a * r))) c = Returns (Page.localResult p') /\
  (exists remaining days,
     NomadFlow.formatCurrency (VNumber (Z2SF (a * r mod M))) c = Returns remaining /\
     le (Z2SF 0) days = true /\
     Page.longevityResult p' =
       "Estimated: <strong>" +:+ ToString (VNumber (Z2SF q)) +:+
       " months</strong> (~" +:+ ToString (VNumber (Z2SF (q / 12))) +:+
       " years)<br>Remainder: " +:+ remaining +:+
       " (~" +:+ ToString (VNumber days) +:+ " days)") /\
  Page.fill_background p' =
    (if 6 <=? q then "#34c759" else if 3 <=? q then "#ffcc00" else "#ff3b30") /\
  (6 <= q -> Page.fill_width p' = ToString (VNumber (Z2SF 100)) +:+ "%").
Proof.
  intros Hc Ea Er EM Ha Hr HM Har q p'. subst p'.
  assert (a <= a * r) by nia. assert (r <= a * r) by nia.
  assert (0 <= q < 2 ^ 53) as Hq.
  { unfold q. split; [apply Z.div_pos; lia|].
    apply Z.le_lt_trans with (a * r); [|lia]. apply Z.div_le_upper_bound; nia. }
  subst q. run. unfold Page.config_currency. rewrite Hc, Ea, Er, EM.
  rewrite isFinite_Z2SF, le_Z2SF_zero by lia. cbn [negb orb].
  rewrite !or_zero_Z2SF by lia.
  assert (NomadFlow.convertAmount (VNumber (Z2SF a)) (VNumber (Z2SF r)) = Z2SF (a * r)) as ->.
  { unfold NomadFlow.convertAmount. cbn [Number]. rewrite !isFinite_Z2SF by lia. cbn [negb orb].
    rewrite mul_Z2SF by lia. apply Math_round_Z2SF. lia. }
  destruct (formatCurrency_configured c config (VNumber (Z2SF (a * r))) Hc) as [shown Es].
  rewrite Es. rewrite !le_Z2SF_zero by lia. cbn [orb].
  destruct (calculateLongevity_whole (a * r) M) as (Em & Ey & Erem & Ed); try lia.
  rewrite Em, Ey, Erem.
  destruct (formatCurrency_configured c config (VNumber (Z2SF (a * r mod M))) Hc) as [remaining Erm].
  rewrite Erm. page_simpl.
  split; [reflexivity|]. split; [reflexivity|]. split; [reflexivity|].
  split; [exists remaining, (NomadFlow.daysApprox
                               (NomadFlow.calculateLongevity (VNumber (Z2SF (a * r)))
                                  (VNumber (Z2SF M)))); repeat split; assumption|].
  split; [now apply background_thresholds|]. intros H6. now rewrite safetyScore_full by lia.
Qed.

(** X19: the rate that was looked up is kept in the rate field.  After
    a run that looked up a finite positive rate, which the field gives
    back when it is read as a Number, a second run makes no lookup and
    changes nothing on the page. *)
Theorem runCalculation_caches_rate c config net net' p x :
  COUNTRY_CONFIG !! c = Some config ->
  negb (isFinite (StringToNumber (Page.rateInput p))) ||
    le (StringToNumber (Page.rateInput p)) (Z2SF 0) = true ->
  NomadFlow.fetchExchangeRate c (Page.currencySelect p) (currency config) net = Returns (VNumber x) ->
  isFinite x = true -> le x (Z2SF 0) = false ->
  StringToNumber (ToString (VNumber x)) = x ->
  let p' := fst (Page.runCalculation c net p) in
  Page.rateInput p' = ToString (VNumber x) /\ Page.runCalculation c net' p' = (p', Returns tt).
Proof.
  intros Hc Hg Hfetch Hf Hl Hrt p'. subst p'.
  destruct (formatCurrency_configured c config
              (VNumber (NomadFlow.convertAmount
                 (VNumber (or_zero (StringToNumber (Page.amountInput p)))) (VNumber x))) Hc) as [s Es].
  destruct (formatCurrency_configured c config
              (VNumber (NomadFlow.remainder (NomadFlow.calculateLongevity
                 (VNumber (NomadFlow.convertAmount
                    (VNumber (or_zero (StringToNumber (Page.amountInput p)))) (VNumber x)))
                 (VNumber (or_zero (StringToNumber (digits_only (Page.monthlyInput p)))))))) Hc)
    as [s' Es'].
  assert (exists p1, Page.runCalculation c net p = (p1, Returns tt) /\
            Page.rateInput p1 = ToString (VNumber x) /\
            Page.runCalculation c net' p1 = (p1, Returns tt)) as (p1 & -> & Hr & Hrun).
  { run. unfold Page.config_currency. rewrite Hc, Hg, Hfetch.
    cbn [Page.set_rateInput Page.currencySelect Page.amountInput Page.monthlyInput Page.rateInput].
    rewrite Es.
    destruct (le (or_zero (StringToNumber (digits_only (Page.monthlyInput p)))) (Z2SF 0) ||
              le (NomadFlow.convertAmount
                    (VNumber (or_zero (StringToNumber (Page.amountInput p)))) (VNumber x))
                 (Z2SF 0)) eqn:Ev.
    - eexists. split; [reflexivity|]. page_simpl. split; [reflexivity|].
      rewrite Hrt, Hf, Hl. cbn [negb orb]. rewrite Es, Ev. reflexivity.
    - rewrite Es'. eexists. split; [reflexivity|]. page_simpl. split; [reflexivity|].
      rewrite Hrt, Hf, Hl. cbn [negb orb]. rewrite Es, Ev, Es'. reflexivity. }
  cbn [fst]. split; assumption.
Qed.

(** X20: choosing a lifestyle tier of a country of the matrix writes
    the decimal numeral of the tier's amount into the monthly field,
    where the browser prints the amount so; the numeral has only
    digits, so the calculation reads back the whole amount; and the
    calculation is run when the amount field is filled. *)
Theorem updateMonthlyFromLifestyle_round_trip c amounts tier n net p :
  LIFESTYLE_MATRIX !! c = Some amounts -> amounts !! tier = Some (Z2SF n) -> 0 <= n ->
  ToString (VNumber (Z2SF n)) = pretty n ->
  let p' := fst (Page.updateMonthlyFromLifestyle c tier net p) in
  snd (Page.updateMonthlyFromLifestyle c tier net p) = Returns tt /\
  Page.monthlyInput p' = pretty n /\ digits_only (Page.monthlyInput p') = pretty n /\
  p' = (if String.eqb (Page.amountInput p) "" then Page.set_monthlyInput (pretty n) p
        else fst (Page.runCalculation c net (Page.set_monthlyInput (pretty n) p))).
Proof.
  intros Hc Ht Hn Hs.
  assert (NomadFlow.getLifestyleAmount c tier = VNumber (Z2SF n)) as Ha.
  { destruct (lifestyle_amounts_truthy c amounts Hc) as [Htruthy _].
    unfold NomadFlow.getLifestyleAmount, NomadFlow.tier, get_number, or_else.
    rewrite Hc, Ht. pose proof (Htruthy tier _ Ht) as Hb. cbn beta in Hb.
    now rewrite !Hb. }
  unfold Page.updateMonthlyFromLifestyle, mbind, action_bind, mret, action_ret,
    read, write, detached.
  cbv zeta. rewrite Ha, Hs.
  change (Page.amountInput (Page.set_monthlyInput (pretty n) p)) with (Page.amountInput p).
  set (p0 := Page.set_monthlyInput (pretty n) p).
  pose proof (runCalculation_keeps_inputs c net p0) as (_ & _ & Hm). cbv zeta in Hm.
  destruct (String.eqb (Page.amountInput p) ""); cbn [negb fst snd]; rewrite ?Hm;
    subst p0; cbn [Page.set_monthlyInput Page.monthlyInput];
    rewrite digits_only_pretty by assumption; repeat split.
Qed.

End PageScripts.

(** ** The days left *)

(** The quotient of two normal Numbers. *)
Lemma div_normal sa sb ma ea mb eb :
  dg ma = 53 -> dg mb = 53 -> -1021 <= ea - eb ->
  exists N t,
    (t = 0 \/ t = 1) /\ 2 ^ 52 <= N <= 2 ^ 53 /\
    nearest N (Zpos ma * 2 ^ 53) (2 ^ t * Zpos mb) /\
    div (S754_finite sa ma ea) (S754_finite sb mb eb) = finish (xorb sa sb) N (ea - eb - 53 + t).
Proof.
  intros Hma Hmb He.
  unfold div. cbn [SFdiv].
  rewrite div_core_53 by (assumption || lia).
  pose proof (quotient_range ma mb Hma Hmb) as Hq.
  set (T := Zpos ma * 2 ^ 53) in *. set (d := Zpos mb) in *.
  assert (0 <= T) as HT by (subst T; lia). assert (0 < d) as Hd by (subst d; lia).
  destruct (T / d) as [|q|q] eqn:Eq; try lia.
  destruct (Z_lt_le_dec (Zpos q) (2 ^ 53)) as [Hlt|Hge].
  - assert (dg q = 53) as Hdq by (apply dg_unique; change (53 - 1) with 52; lia).
    rewrite binary_round_aux_53 by (assumption || lia).
    pose proof (round_nearest_even_nearest T d Hd HT) as HN. cbv zeta in HN. rewrite Eq in HN.
    exists (round_nearest_even (Zpos q) (location_of (T mod d) d)), 0.
    rewrite Z.pow_0_r, Z.mul_1_l, Z.add_0_r.
    split; [left; reflexivity|]. split; [lia|]. split; [exact (proj2 HN)|reflexivity].
  - assert (dg q = 54) as Hdq by (apply dg_unique; change (54 - 1) with 53; lia).
    rewrite binary_round_aux_54 by (assumption || lia).
    pose proof (round_nearest_even_halved T d Hd HT) as HN. cbv zeta in HN. rewrite Eq in HN.
    exists (round_nearest_even (Zpos q / 2) (halved (Zpos q) (location_of (T mod d) d))), 1.
    change (2 ^ 1) with 2.
    assert (2 ^ 52 <= Zpos q / 2 < 2 ^ 53) as Hh.
    { split; [apply Z.div_le_lower_bound | apply Z.div_lt_upper_bound]; lia. }
    split; [right; reflexivity|]. split; [lia|]. split; [exact (proj2 HN)|reflexivity].
Qed.

(** A thirtieth of a whole monthly expense [M]: a normal Number
    [Md * 2 ^ Ed] with [30 * Md * 2 ^ Ed > M - 1]. *)
Lemma dailyExpense_whole M :
  0 < M < 2 ^ 53 ->
  exists Md Ed,
    div (Z2SF M) (Z2SF 30) = S754_finite false Md Ed /\ dg Md = 53 /\ -57 <= Ed <= -3 /\
    (M - 1) * 2 ^ (- Ed) < 30 * Zpos Md.
Proof.
  intros HM. destruct M as [|a|a]; try lia.
  assert (dg a <= 53) as Ha by (apply dg_le_53; lia). pose proof (dg_pos a) as Hd1.
  rewrite (Z2SF_pos a Ha). change (Z2SF 30) with (whole false 30).
  destruct (div_whole false false a 30 Ha ltac:(vm_compute; discriminate))
    as (N & t & Ht & HN & Hnear & ->).
  change (dg 30) with 5 in *. cbn [xorb].
  change (Zpos (mant 30)) with (30 * 2 ^ 48) in Hnear. rewrite mant_eq in Hnear by assumption.
  set (E := dg a - 5 - 53 + t) in *.
  assert (-57 <= E <= -4) as HE by (subst E; lia).
  (* M * 2^(-E) - 15 <= 30 * N *)
  assert (Zpos a * 2 ^ (- E) - 15 <= 30 * N) as Hlow.
  { unfold nearest in Hnear. destruct Hnear as [Hlo _].
    assert (Zpos a * 2 ^ (53 - dg a) * 2 ^ 53 = Zpos a * 2 ^ (- E) * 2 ^ (t + 48)) as E1.
    { rewrite <- !Z.mul_assoc, <- !Z.pow_add_r by lia. f_equal. f_equal. subst E. lia. }
    assert (2 ^ t * (30 * 2 ^ 48) = 30 * 2 ^ (t + 48)) as E2.
    { rewrite Z.pow_add_r by lia. lia. }
    rewrite E1, E2 in Hlo.
    assert (0 < 2 ^ (t + 48)) as HP by (apply Z.pow_pos_nonneg; lia).
    set (P := 2 ^ (t + 48)) in *. set (A := Zpos a * 2 ^ (- E)) in *.
    apply (Z.mul_le_mono_pos_r _ _ (2 * P)); [lia|]. lia. }
  assert (16 <= 2 ^ (- E)) as H16.
  { change 16 with (2 ^ 4). apply Z.pow_le_mono_r; lia. }
  assert ((Zpos a - 1) * 2 ^ (- E) < 30 * N) as Hstrict by lia.
  rewrite finish_range by lia.
  destruct (Z.eqb_spec N (2 ^ 53)) as [->|Hne].
  - exists (2 ^ 52)%positive, (E + 1). split; [reflexivity|]. split; [reflexivity|].
    split; [lia|].
    replace (- E) with (1 + - (E + 1)) in Hstrict by lia.
    rewrite Z.pow_add_r in Hstrict by lia. change (2 ^ 1) with 2 in Hstrict.
    change (30 * 2 ^ 53) with (2 * (30 * Zpos (2 ^ 52))) in Hstrict. lia.
  - destruct N as [|n|n]; try lia. cbn [Z.to_pos].
    exists n, E. split; [reflexivity|]. split; [|split; [lia|exact Hstrict]].
    apply dg_unique. change (53 - 1) with 52. lia.
Qed.

(** The floor of [rem / d], for a whole [rem] with [rem < 30 * d]. *)
Lemma floor_div_below_30 rem Md Ed :
  0 <= rem < 2 ^ 53 -> dg Md = 53 -> -57 <= Ed <= -3 ->
  rem * 2 ^ (- Ed) < 30 * Zpos Md ->
  exists days, Math_floor (div (Z2SF rem) (S754_finite false Md Ed)) = Z2SF days /\
               0 <= days <= 30.
Proof.
  intros Hrem HMd HEd Hlt. destruct rem as [|a|a]; try lia.
  { exists 0. split; [reflexivity | lia]. }
  assert (dg a <= 53) as Ha by (apply dg_le_53; lia). pose proof (dg_pos a) as Hd1.
  rewrite (Z2SF_pos a Ha). rewrite whole_unfold.
  destruct (div_normal false false (mant a) (dg a - 53) Md Ed (dg_mant a Ha) HMd ltac:(lia))
    as (N & t & Ht & HN & Hnear & ->).
  cbn [xorb]. rewrite mant_eq in Hnear by assumption.
  set (k := Ed + 53 - (dg a - 53) - t).
  replace (dg a - 53 - Ed - 53 + t) with (- k) by (subst k; lia).
  destruct Hnear as [_ Hhi].
  assert (0 < 2 ^ (- Ed)) as HpE by (apply Z.pow_pos_nonneg; lia).
  assert (0 < 2 ^ t) as Hpt by (apply Z.pow_pos_nonneg; lia).
  assert (0 <= k) as Hk.
  { destruct (Z_lt_le_dec k 0) as [Hneg|]; [exfalso|assumption].
    (* the quotient would be at least 2^52 *)
    assert (Zpos a * 2 ^ (53 - dg a) * 2 ^ 53 <= Zpos a * 2 ^ (- Ed)) as Hle.
    { rewrite <- Z.mul_assoc, <- Z.pow_add_r by lia. apply Z.mul_le_mono_nonneg_l; [lia|].
      apply Z.pow_le_mono_r; subst k; lia. }
    assert (2 * N * (2 ^ t * Zpos Md) <= 2 * (30 * Zpos Md) + 2 ^ t * Zpos Md) as Hc by lia.
    assert (2 * N * 2 ^ t <= 60 + 2 ^ t) as Hc'.
    { apply (Z.mul_le_mono_pos_r _ _ (Zpos Md)); lia. }
    destruct Ht as [-> | ->]; [change (2 ^ 0) with 1 in * | change (2 ^ 1) with 2 in *]; lia. }
  assert (0 < 2 ^ k) as Hpk by (apply Z.pow_pos_nonneg; lia).
  assert (N <= 30 * 2 ^ k) as HNk.
  { destruct (Z_lt_le_dec (30 * 2 ^ k) N) as [Hgt|]; [exfalso|assumption].
    assert (2 ^ (53 - dg a) * 2 ^ 53 = 2 ^ (- Ed) * (2 ^ k * 2 ^ t)) as Epow.
    { rewrite <- !Z.pow_add_r by lia. f_equal. subst k. lia. }
    set (X := 2 ^ k * 2 ^ t) in *.
    assert (0 < X) as HX by (subst X; lia).
    assert (Zpos a * 2 ^ (53 - dg a) * 2 ^ 53 = Zpos a * 2 ^ (- Ed) * X) as E1.
    { rewrite <- !Z.mul_assoc. f_equal. rewrite Epow. lia. }
    rewrite E1 in Hhi.
    assert (Zpos a * 2 ^ (- Ed) * X < 30 * Zpos Md * X) as H1.
    { apply Z.mul_lt_mono_pos_r; assumption. }
    assert ((30 * 2 ^ k + 1) * (2 ^ t * Zpos Md) <= N * (2 ^ t * Zpos Md)) as H2.
    { apply Z.mul_le_mono_nonneg_r; lia. }
    assert (30 * 2 ^ k * (2 ^ t * Zpos Md) = 30 * Zpos Md * X) as E2 by (subst X; lia).
    lia. }
  assert (N / 2 ^ k <= 30) as Hdiv.
  { apply Z.lt_succ_r. apply Z.div_lt_upper_bound; lia. }
  assert (0 <= N / 2 ^ k) by (apply Z.div_pos; lia).
  assert (k <= 1074) as Hk' by (subst k; lia).
  exists (N / 2 ^ k). split; [|lia].
  apply Math_floor_finish; lia.
Qed.

(** X21: for a whole budget and a whole monthly expense, in the range
    where the arithmetic is exact, [daysApprox] is a whole number of days
    from 0 to 30. *)
Theorem calculateLongevity_days_bound `{Host} (budget monthly : Z) :
  - 2 ^ 53 < budget - monthly -> budget < 2 ^ 53 -> 0 < monthly < 2 ^ 53 ->
  exists days,
    NomadFlow.daysApprox
      (NomadFlow.calculateLongevity (VNumber (Z2SF budget)) (VNumber (Z2SF monthly))) = Z2SF days /\
    0 <= days <= 30.
Proof.
  intros Hlo Hhi Hm. unfold NomadFlow.calculateLongevity. cbn [Number].
  rewrite !isFinite_Z2SF, le_Z2SF_zero by lia. cbn [negb orb]. cbv zeta.
  cbn [NomadFlow.daysApprox].
  pose proof (Z.div_mod budget monthly ltac:(lia)) as Hdm.
  pose proof (Z.mod_pos_bound budget monthly ltac:(lia)) as Hr.
  assert (- 2 ^ 53 < budget / monthly < 2 ^ 53) as Hq.
  { split.
    - apply Z.lt_le_trans with (Z.min budget 0); [lia|].
      apply Z.div_le_lower_bound; nia.
    - apply Z.le_lt_trans with (Z.max budget 0); [|lia].
      apply Z.div_le_upper_bound; nia. }
  rewrite floor_div_Z2SF_signed by lia.
  rewrite mul_Z2SF_signed by nia.
  rewrite sub_Z2SF by nia.
  replace (budget - budget / monthly * monthly) with (budget mod monthly) by lia.
  rewrite Math_round_Z2SF by lia.
  destruct (dailyExpense_whole monthly Hm) as (Md & Ed & -> & HMd & HEd & Hd).
  cbn [ToBoolean].
  apply floor_div_below_30; try assumption; [lia|].
  assert (0 < 2 ^ (- Ed)) by (apply Z.pow_pos_nonneg; lia).
  eapply Z.le_lt_trans; [|exact Hd]. apply Z.mul_le_mono_nonneg_r; lia.
Qed.

(** ** The calculation on the page of [BudgetUtils] *)

Ltac run_budget :=
  unfold BudgetPage.convertClick, BudgetPage.doConvert, BudgetPage.doLongevity,
    BudgetPage.when_present, mbind, action_bind, mret, action_ret, lift, read, write;
  cbn beta iota.

Ltac budget_simpl :=
  cbn [fst snd BudgetPage.set_rateInput BudgetPage.set_vndResult BudgetPage.set_longevityResult
       BudgetPage.set_fill BudgetPage.currencySelect BudgetPage.rateInput BudgetPage.amountInput
       BudgetPage.vndResult BudgetPage.budgetInput BudgetPage.monthlyInput
       BudgetPage.longevityResult BudgetPage.fill].

(** The two implementations give the same fields. *)
Lemma calculateLongevity_VND `{Host} (budget monthly : value) :
  BudgetUtils.calculateLongevity budget monthly =
  let r := NomadFlow.calculateLongevity budget monthly in
  {| BudgetUtils.months := NomadFlow.months r; BudgetUtils.years := NomadFlow.years r;
     BudgetUtils.remainderVND := NomadFlow.remainder r;
     BudgetUtils.daysApprox := NomadFlow.daysApprox r |}.
Proof.
  unfold BudgetUtils.calculateLongevity, NomadFlow.calculateLongevity.
  destruct (_ || _); reflexivity.
Qed.

(** A positive whole number is truthy. *)
Lemma truthy_Z2SF n : 0 < n < 2 ^ 53 -> ToBoolean (VNumber (Z2SF n)) = true.
Proof.
  intros Hn. destruct n as [|p|p]; try lia.
  rewrite Z2SF_pos by (apply dg_le_53; lia). reflexivity.
Qed.

Section BudgetScripts.
Context `{Host} `{Browser}.

Lemma formatVND_returns amount :
  formatter_returns -> exists s, BudgetUtils.formatVND amount = Returns s.
Proof. intros Hf. apply Hf. Qed.

(** The lookup of [BudgetUtils] returns a Number, whatever the network
    does. *)
Lemma fetchExchangeRate_VND_number fromCurrency net :
  exists x, BudgetUtils.fetchExchangeRate fromCurrency net = Returns (VNumber x).
Proof.
  unfold BudgetUtils.fetchExchangeRate.
  destruct (NomadFlow.live_rate "VND" net) as [v|e] eqn:El.
  - destruct (live_rate_number _ _ _ El) as (data & x & _ & _ & ->). eauto.
  - unfold or_else, get_number.
    destruct (BudgetUtils.fallback !! toUpperCase fromCurrency) as [y|] eqn:Ey.
    + destruct (ToBoolean (VNumber y)); eauto.
    + rewrite inherited_upper. cbn [ToBoolean]. eauto.
Qed.

(** [doConvert] returns when the formatter does, and writes to the rate
    field and to the element of the amount in VND only. *)
Lemma doConvert_returns net p :
  formatter_returns \/ BudgetPage.vndResult p = None ->
  exists p' v, BudgetPage.doConvert net p = (p', Returns v) /\
    BudgetPage.monthlyInput p' = BudgetPage.monthlyInput p /\
    BudgetPage.longevityResult p' = BudgetPage.longevityResult p /\
    BudgetPage.fill p' = BudgetPage.fill p /\
    BudgetPage.amountInput p' = BudgetPage.amountInput p.
Proof.
  intros Hf. run_budget. destruct (BudgetPage.amountInput p) as [text|] eqn:Ea.
  2:{ exists p, VUndefined. rewrite Ea. repeat split. }
  assert (forall q v, BudgetPage.vndResult q = BudgetPage.vndResult p ->
            exists p', (match BudgetPage.vndResult q with
                  | Some _ => match BudgetUtils.formatVND v with
                              | Returns a => (BudgetPage.set_vndResult a q, Returns tt)
                              | Throws e => (q, Throws e)
                              end
                  | None => (q, Returns tt)
                  end) = (p', Returns tt) /\
                  BudgetPage.monthlyInput p' = BudgetPage.monthlyInput q /\
                  BudgetPage.longevityResult p' = BudgetPage.longevityResult q /\
                  BudgetPage.fill p' = BudgetPage.fill q /\
                  BudgetPage.amountInput p' = BudgetPage.amountInput q) as Hshow.
  { intros q v Eq. destruct (BudgetPage.vndResult q) eqn:Ev.
    - destruct Hf as [Hf|Hn]; [|congruence].
      destruct (formatVND_returns v Hf) as [shown ->]. eexists. repeat split.
    - eexists. repeat split. }
  destruct (_ || _).
  - destruct (fetchExchangeRate_VND_number (BudgetPage.selected_currency p) net) as (x & ->).
    destruct (BudgetPage.rateInput p) eqn:Er.
    + edestruct (Hshow (BudgetPage.set_rateInput (ToString (VNumber (Math_round (Number (VNumber x))))) p))
        as (p' & -> & Hm & Hl & Hfi & Ham); [reflexivity|].
      exists p'. eexists. split; [reflexivity|]. rewrite Hm, Hl, Hfi, Ham. repeat split; exact Ea.
    + edestruct (Hshow p) as (p' & -> & Hm & Hl & Hfi & Ham); [reflexivity|].
      exists p'. eexists. split; [reflexivity|]. rewrite Hm, Hl, Hfi, Ham. repeat split; exact Ea.
  - edestruct (Hshow p) as (p' & -> & Hm & Hl & Hfi & Ham); [reflexivity|].
    exists p'. eexists. split; [reflexivity|]. rewrite Hm, Hl, Hfi, Ham. repeat split; exact Ea.
Qed.

(** X22: the listener of [#convertBtn] fails only when the currency
    formatter does: with a formatter that returns, or on a page without
    the two elements that show formatted amounts, it returns whatever the
    fields hold and whatever the network does, and leaves the amount and
    monthly fields as they are. *)
Theorem convertClick_never_throws net p :
  formatter_returns \/ (BudgetPage.vndResult p = None /\ BudgetPage.longevityResult p = None) ->
  let p' := fst (BudgetPage.convertClick net p) in
  snd (BudgetPage.convertClick net p) = Returns tt /\
  BudgetPage.amountInput p' = BudgetPage.amountInput p /\
  BudgetPage.monthlyInput p' = BudgetPage.monthlyInput p.
Proof.
  intros Hf.
  destruct (doConvert_returns net p) as (p1 & v & E1 & Hm & Hl & Hfi & Ha); [tauto|].
  unfold BudgetPage.convertClick, mbind, action_bind. rewrite E1.
  unfold BudgetPage.when_present, mbind, action_bind, mret, action_ret, lift, read, write.
  cbn beta iota. rewrite Hm. destruct (_ || _).
  - destruct (BudgetPage.longevityResult p1) eqn:E2; budget_simpl;
      destruct (BudgetPage.fill p1) eqn:E3; budget_simpl; repeat split; congruence.
  - destruct (BudgetPage.longevityResult p1) eqn:E2.
    + destruct Hf as [Hf|[_ Hn]]; [|congruence].
      match goal with
      | |- context [BudgetUtils.formatVND ?a] => destruct (formatVND_returns a Hf) as [shown ->]
      end.
      budget_simpl. destruct (BudgetPage.fill p1) eqn:E3; budget_simpl; repeat split; congruence.
    + destruct (BudgetPage.fill p1) eqn:E3; budget_simpl; repeat split; congruence.
Qed.

(** [doConvert] with a usable rate in the rate field. *)
Lemma doConvert_typed net p text :
  BudgetPage.amountInput p = Some text ->
  negb (isFinite (BudgetPage.typed_rate p)) || le (BudgetPage.typed_rate p) (Z2SF 0) = false ->
  BudgetPage.doConvert net p =
  show_vnd (BudgetUtils.convertToVND
              (VNumber (if String.eqb text "" then Z2SF 0 else StringToNumber text))
              (VNumber (BudgetPage.typed_rate p))) p.
Proof.
  intros Ea Hg. run_budget. rewrite Ea, Hg. unfold show_vnd.
  destruct (BudgetPage.vndResult p); [|reflexivity].
  destruct (BudgetUtils.formatVND _); reflexivity.
Qed.

(** [doConvert] without one. *)
Lemma doConvert_lookup net p text x :
  BudgetPage.amountInput p = Some text ->
  negb (isFinite (BudgetPage.typed_rate p)) || le (BudgetPage.typed_rate p) (Z2SF 0) = true ->
  BudgetUtils.fetchExchangeRate (BudgetPage.selected_currency p) net = Returns (VNumber x) ->
  BudgetPage.doConvert net p =
  show_vnd (BudgetUtils.convertToVND
              (VNumber (if String.eqb text "" then Z2SF 0 else StringToNumber text)) (VNumber x))
           (match BudgetPage.rateInput p with
            | Some _ => BudgetPage.set_rateInput (ToString (VNumber (Math_round x))) p
            | None => p
            end).
Proof.
  intros Ea Hg Hfetch. run_budget. rewrite Ea, Hg, Hfetch. unfold show_vnd. cbn [Number].
  destruct (BudgetPage.rateInput p); budget_simpl.
  - destruct (BudgetPage.vndResult p); [|reflexivity].
    destruct (BudgetUtils.formatVND _); reflexivity.
  - destruct (BudgetPage.vndResult p); [|reflexivity].
    destruct (BudgetUtils.formatVND _); reflexivity.
Qed.

Lemma show_vnd_returns vnd p :
  formatter_returns \/ BudgetPage.vndResult p = None ->
  exists p', show_vnd vnd p = (p', Returns (VNumber vnd)) /\
    BudgetPage.currencySelect p' = BudgetPage.currencySelect p /\
    BudgetPage.rateInput p' = BudgetPage.rateInput p /\
    BudgetPage.amountInput p' = BudgetPage.amountInput p /\
    BudgetPage.monthlyInput p' = BudgetPage.monthlyInput p /\
    BudgetPage.longevityResult p' = BudgetPage.longevityResult p /\
    BudgetPage.fill p' = BudgetPage.fill p /\
    (BudgetPage.vndResult p' = None <-> BudgetPage.vndResult p = None) /\
    (forall old, BudgetPage.vndResult p = Some old ->
       exists shown, BudgetUtils.formatVND (VNumber vnd) = Returns shown /\
                     BudgetPage.vndResult p' = Some shown).
Proof.
  intros Hf. unfold show_vnd. destruct (BudgetPage.vndResult p) as [old|] eqn:Ev.
  - destruct Hf as [Hf|Hn]; [|discriminate].
    destruct (formatVND_returns (VNumber vnd) Hf) as [shown ->].
    eexists. split; [reflexivity|]. budget_simpl. repeat (split; [reflexivity|]).
    split; [split; discriminate|]. intros old' _. eauto.
  - exists p. split; [reflexivity|]. repeat (split; [reflexivity|]).
    split; [tauto|]. intros old' E. congruence.
Qed.

(** X23: [doConvert] converts at the rate it looked up, but keeps the
    rounded rate in the rate field: a second call, which reads the field
    back, makes no lookup and converts at the rounded rate. *)
Theorem doConvert_caches_rounded_rate net net' p text old x :
  BudgetPage.amountInput p = Some text -> BudgetPage.rateInput p = Some old ->
  negb (isFinite (StringToNumber old)) || le (StringToNumber old) (Z2SF 0) = true ->
  BudgetUtils.fetchExchangeRate (BudgetPage.selected_currency p) net = Returns (VNumber x) ->
  isFinite (Math_round x) = true -> le (Math_round x) (Z2SF 0) = false ->
  StringToNumber (ToString (VNumber (Math_round x))) = Math_round x ->
  formatter_returns \/ BudgetPage.vndResult p = None ->
  let amount := VNumber (if String.eqb text "" then Z2SF 0 else StringToNumber text) in
  let p' := fst (BudgetPage.doConvert net p) in
  snd (BudgetPage.doConvert net p) = Returns (VNumber (BudgetUtils.convertToVND amount (VNumber x))) /\
  BudgetPage.rateInput p' = Some (ToString (VNumber (Math_round x))) /\
  snd (BudgetPage.doConvert net' p') =
    Returns (VNumber (BudgetUtils.convertToVND amount (VNumber (Math_round x)))).
Proof.
  intros Ea Er Hg Hfetch Hfin Hpos Hrt Hf amount p'. subst p' amount.
  rewrite (doConvert_lookup net p text x Ea); [|unfold BudgetPage.typed_rate; now rewrite Er|exact Hfetch].
  rewrite Er.
  set (p1 := BudgetPage.set_rateInput (ToString (VNumber (Math_round x))) p).
  destruct (show_vnd_returns
              (BudgetUtils.convertToVND
                 (VNumber (if String.eqb text "" then Z2SF 0 else StringToNumber text)) (VNumber x))
              p1) as (p2 & -> & _ & Hr & Ha & _ & _ & _ & Hv & _); [exact Hf|].
  cbn [fst snd]. split; [reflexivity|]. split; [rewrite Hr; reflexivity|].
  assert (BudgetPage.typed_rate p2 = Math_round x) as Ht.
  { unfold BudgetPage.typed_rate. rewrite Hr. subst p1. budget_simpl. exact Hrt. }
  rewrite (doConvert_typed net' p2 text); [|rewrite Ha; exact Ea|rewrite Ht, Hfin, Hpos; reflexivity].
  rewrite Ht.
  destruct (show_vnd_returns
              (BudgetUtils.convertToVND
                 (VNumber (if String.eqb text "" then Z2SF 0 else StringToNumber text))
                 (VNumber (Math_round x))) p2) as (p3 & -> & _); [|reflexivity].
  destruct Hf as [Hf|Hn]; [left; exact Hf|right]. apply Hv. exact Hn.
Qed.

(** The conversion of whole numbers is their product. *)
Lemma convertToVND_whole (a r : Z) :
  0 < a -> 0 < r -> a * r < 2 ^ 53 ->
  BudgetUtils.convertToVND (VNumber (Z2SF a)) (VNumber (Z2SF r)) = Z2SF (a * r).
Proof.
  intros Ha Hr Har. assert (a <= a * r) by nia. assert (r <= a * r) by nia.
  unfold BudgetUtils.convertToVND. cbn [Number]. rewrite !isFinite_Z2SF by lia. cbn [negb orb].
  rewrite mul_Z2SF by lia. apply Math_round_Z2SF. lia.
Qed.

(** X24: the listener on whole numbers.  When the amount field reads as
    the whole number [a], the rate field as the whole rate [r] and the
    digits of the monthly field as [M], all positive, with
    [a * r < 2^53], the elements that are on the page show the amount
    [a * r], the months [a * r / M], the years and the remainder
    [a * r mod M], and the bar is green from six months on, yellow from
    three, red below. *)
Theorem convertClick_whole net p text (a r M : Z) :
  formatter_returns ->
  BudgetPage.amountInput p = Some text -> String.eqb text "" = false ->
  StringToNumber text = Z2SF a ->
  BudgetPage.typed_rate p = Z2SF r ->
  StringToNumber (digits_only (default "" (BudgetPage.monthlyInput p))) = Z2SF M ->
  0 < a -> 0 < r -> 0 < M < 2 ^ 53 -> a * r < 2 ^ 53 ->
  let q := a * r / M in
  let p' := fst (BudgetPage.convertClick net p) in
  snd (BudgetPage.convertClick net p) = Returns tt /\
  BudgetPage.rateInput p' = BudgetPage.rateInput p /\
  (forall old, BudgetPage.vndResult p = Some old ->
     exists shown, BudgetUtils.formatVND (VNumber (Z2SF (a * r))) = Returns shown /\
                   BudgetPage.vndResult p' = Some shown) /\
  (forall old, BudgetPage.longevityResult p = Some old ->
     exists remaining days,
       BudgetUtils.formatVND (VNumber (Z2SF (a * r mod M))) = Returns remaining /\
       le (Z2SF 0) days = true /\
       BudgetPage.longevityResult p' =
         Some ("Estimated: <strong>" +:+ ToString (VNumber (Z2SF q)) +:+
               " months</strong> (~" +:+ ToString (VNumber (Z2SF (q / 12))) +:+
               " years)<br>Remainder: " +:+ remaining +:+
               " (~" +:+ ToString (VNumber days) +:+ " days)")) /\
  (forall old, BudgetPage.fill p = Some old ->
     BudgetPage.fill p' =
       Some (ToString (VNumber (safetyScore (Z2SF q))) +:+ "%",
             if 6 <=? q then "#34c759" else if 3 <=? q then "#ffcc00" else "#ff3b30")).
Proof.
  intros Hf Ea Et Ena Er Em Ha Hr HM Har q p'. subst p'.
  assert (a <= a * r) by nia. assert (r <= a * r) by nia.
  assert (0 <= q < 2 ^ 53) as Hq.
  { unfold q. split; [apply Z.div_pos; lia|].
    apply Z.le_lt_trans with (a * r); [|lia]. apply Z.div_le_upper_bound; nia. }
  subst q. unfold BudgetPage.convertClick, mbind, action_bind.
  rewrite (doConvert_typed net p text Ea);
    [|rewrite Er, isFinite_Z2SF, le_Z2SF_zero by lia; reflexivity].
  rewrite Et, Ena, Er, convertToVND_whole by lia.
  destruct (show_vnd_returns (Z2SF (a * r)) p (or_introl Hf))
    as (p1 & -> & _ & Hr1 & _ & Hm1 & Hl1 & Hf1 & _ & Hv1).
  unfold BudgetPage.when_present, mbind, action_bind, mret, action_ret, lift, read, write.
  cbn beta iota. rewrite Hm1, Em, or_zero_Z2SF, le_Z2SF_zero, truthy_Z2SF by lia.
  cbn [negb orb]. rewrite calculateLongevity_VND. cbv zeta.
  cbn [BudgetUtils.months BudgetUtils.years BudgetUtils.remainderVND BudgetUtils.daysApprox].
  destruct (calculateLongevity_whole (a * r) M) as (Emo & Ey & Erem & Ed); try lia.
  rewrite Emo, Ey, Erem, Hl1.
  destruct (formatVND_returns (VNumber (Z2SF (a * r mod M))) Hf) as [remaining Erm].
  rewrite Erm, background_thresholds by lia.
  destruct (BudgetPage.longevityResult p) as [oldl|] eqn:El; budget_simpl; rewrite Hf1;
    destruct (BudgetPage.fill p) as [oldf|] eqn:Efi; budget_simpl;
    (split; [reflexivity|]); (split; [exact Hr1|]); (split; [exact Hv1|]);
    (split; [|intros old E; congruence]);
    intros old E; try discriminate;
    exists remaining, (NomadFlow.daysApprox
                        (NomadFlow.calculateLongevity (VNumber (Z2SF (a * r))) (VNumber (Z2SF M))));
    (split; [reflexivity|]); (split; [exact Ed|reflexivity]).
Qed.

(** X25: a budget text with a character other than digits, dots and
    commas, such as a trailing currency name, is read as an amount in
    VND from its digits, dots and dashes: no rate is looked up or
    applied, and the months, years and remainder are those of that
    amount. *)
Theorem doLongevity_VND_budget foreign isVND net p budgetRaw monthlyRaw old (B M : Z) :
  formatter_returns ->
  BudgetPage.budgetInput p = Some budgetRaw -> BudgetPage.monthlyInput p = Some monthlyRaw ->
  BudgetPage.longevityResult p = Some old ->
  has_non_digits budgetRaw = true ->
  StringToNumber (number_chars budgetRaw) = Z2SF B ->
  StringToNumber (digits_only monthlyRaw) = Z2SF M ->
  0 < B < 2 ^ 53 -> 0 < M < 2 ^ 53 ->
  exists res remaining,
    BudgetUtils.formatVND (VNumber (Z2SF (B mod M))) = Returns remaining /\
    BudgetUtils.months res = Z2SF (B / M) /\ BudgetUtils.years res = Z2SF (B / M / 12) /\
    BudgetUtils.remainderVND res = Z2SF (B mod M) /\
    BudgetPage.doLongevity foreign isVND net p =
      (BudgetPage.set_longevityResult
         ("Estimated: <strong>" +:+ ToString (VNumber (Z2SF (B / M))) +:+
          " months</strong> (~" +:+ ToString (VNumber (Z2SF (B / M / 12))) +:+
          " years) <br> Remainder: " +:+ remaining +:+
          " (~" +:+ ToString (VNumber (BudgetUtils.daysApprox res)) +:+
          " days at current monthly burn)") p,
       Returns (Some res)).
Proof.
  intros Hf Eb Em El Hn EB EM HB HM.
  destruct (formatVND_returns (VNumber (Z2SF (B mod M))) Hf) as [remaining Erm].
  exists (BudgetUtils.calculateLongevity (VNumber (Z2SF B)) (VNumber (Z2SF M))), remaining.
  rewrite calculateLongevity_VND. cbv zeta.
  cbn [BudgetUtils.months BudgetUtils.years BudgetUtils.remainderVND BudgetUtils.daysApprox].
  destruct (calculateLongevity_whole B M) as (Emo & Ey & Erem & Ed); try lia.
  split; [exact Erm|]. split; [exact Emo|]. split; [exact Ey|]. split; [exact Erem|].
  run_budget. rewrite Eb, Em, El, Hn, EB, EM. cbn [negb andb].
  rewrite truthy_Z2SF, or_zero_Z2SF by lia.
  rewrite calculateLongevity_VND. cbv zeta.
  cbn [BudgetUtils.months BudgetUtils.years BudgetUtils.remainderVND BudgetUtils.daysApprox].
  rewrite Emo, Ey, Erem, Erm. reflexivity.
Qed.

(** X26: a budget text of digits, dots and commas only is converted at
    the rate of the rate field unless the options say that budgets are in
    VND; the rate field is left as it is. *)
Theorem doLongevity_foreign_budget foreign isVND net p budgetRaw monthlyRaw old (a r M : Z) :
  formatter_returns ->
  BudgetPage.budgetInput p = Some budgetRaw -> BudgetPage.monthlyInput p = Some monthlyRaw ->
  BudgetPage.longevityResult p = Some old ->
  has_non_digits budgetRaw = false -> foreign || negb isVND = true ->
  StringToNumber budgetRaw = Z2SF a -> BudgetPage.typed_rate p = Z2SF r ->
  StringToNumber (digits_only monthlyRaw) = Z2SF M ->
  0 < a -> 0 < r -> a * r < 2 ^ 53 -> 0 < M < 2 ^ 53 ->
  exists res,
    BudgetUtils.months res = Z2SF (a * r / M) /\
    BudgetUtils.years res = Z2SF (a * r / M / 12) /\
    BudgetUtils.remainderVND res = Z2SF (a * r mod M) /\
    snd (BudgetPage.doLongevity foreign isVND net p) = Returns (Some res) /\
    BudgetPage.rateInput (fst (BudgetPage.doLongevity foreign isVND net p)) = BudgetPage.rateInput p.
Proof.
  intros Hf Eb Em El Hn Hflags Ea Er EM Ha Hr Har HM.
  assert (a <= a * r) by nia. assert (r <= a * r) by nia.
  destruct (formatVND_returns (VNumber (Z2SF (a * r mod M))) Hf) as [remaining Erm].
  exists (BudgetUtils.calculateLongevity (VNumber (Z2SF (a * r))) (VNumber (Z2SF M))).
  rewrite calculateLongevity_VND. cbv zeta.
  cbn [BudgetUtils.months BudgetUtils.years BudgetUtils.remainderVND BudgetUtils.daysApprox].
  destruct (calculateLongevity_whole (a * r) M) as (Emo & Ey & Erem & Ed); try lia.
  split; [exact Emo|]. split; [exact Ey|]. split; [exact Erem|].
  run_budget. rewrite Eb, Em, El. cbn beta iota. rewrite Hn, Hflags. cbn [negb andb].
  rewrite Ea, Er, EM, isFinite_Z2SF, le_Z2SF_zero by lia. cbn [negb orb].
  rewrite truthy_Z2SF, convertToVND_whole by lia.
  rewrite calculateLongevity_VND. cbv zeta.
  cbn [BudgetUtils.months BudgetUtils.years BudgetUtils.remainderVND BudgetUtils.daysApprox].
  rewrite Emo, Ey, Erem, Erm. split; reflexivity.
Qed.

End BudgetScripts.

(** ** Examples *)

Lemma calculateLongevity_not_NaN_witness :
  let r := NomadFlow.calculateLongevity (H := ascii_host) VUndefined (VNumber (Z2SF 25000000)) in
  NomadFlow.months r <> NaN /\ NomadFlow.years r <> NaN /\ NomadFlow.daysApprox r <> NaN /\
  (NomadFlow.remainder r = NaN <-> Number (H := ascii_host) VUndefined = NaN).
Proof.
  apply (calculateLongevity_not_NaN (H := ascii_host) VUndefined (VNumber (Z2SF 25000000))).
  reflexivity.
Defined.

Lemma calculateLongevity_nonneg_witness :
  let r := NomadFlow.calculateLongevity (H := ascii_host)
             (VNumber (div (Z2SF 1001) (Z2SF 10))) (VNumber (div (Z2SF 1) (Z2SF 3))) in
  le (Z2SF 0) (NomadFlow.months r) = true /\ le (Z2SF 0) (NomadFlow.years r) = true.
Proof.
  apply (calculateLongevity_nonneg (H := ascii_host)); reflexivity.
Defined.

Lemma convertAmount_whole_exact_witness :
  NomadFlow.convertAmount (H := ascii_host) (VNumber (Z2SF (- 1000))) (VNumber (Z2SF 24500)) =
  Z2SF (- 1000 * 24500).
Proof.
  apply (convertAmount_whole_exact (H := ascii_host) (- 1000) 24500); lia.
Defined.

Lemma convertAmount_error_bound_witness :
  exists W,
    NomadFlow.convertAmount (H := ascii_host) (VNumber (Z2SF 1000))
      (VNumber (S754_finite false 8444249301319680 (- 50))) = Z2SF W /\
    0 <= W /\
    4 * Z.abs (W * 2 ^ 1074 - 1000 * 8444249301319680 * 2 ^ (- 50 + 1074)) <= 3 * 2 ^ 1074.
Proof.
  apply (convertAmount_error_bound (H := ascii_host) 1000 8444249301319680 (- 50)); lia.
Defined.

Lemma fetchExchangeRate_never_throws_witness :
  exists x,
    NomadFlow.fetchExchangeRate (H := ascii_host) "JP" "gbp" "JPY" FetchRejects =
      Returns (VNumber x) /\
    (lookup_fails "JPY" FetchRejects -> isFinite x = true /\ le x (Z2SF 0) = false) /\
    (forall data y, FetchRejects = FetchResolves true (JsonResolves data) ->
                    rate_field data "JPY" = Some y -> x = y).
Proof.
  eapply (fetchExchangeRate_never_throws (H := ascii_host) "JP"). reflexivity.
Defined.

Lemma fetchExchangeRate_unknown_country_throws_witness :
  NomadFlow.fetchExchangeRate (H := ascii_host) "US" "EUR" "USD"
    (FetchResolves false JsonRejects) = Throws TypeError.
Proof.
  apply (fetchExchangeRate_unknown_country_throws (H := ascii_host)).
  - reflexivity.
  - apply (bool_decide_unpack _). vm_compute. exact I.
  - apply response_not_ok.
Defined.

Lemma rate_field_accepts_witness :
  rate_field (JObj {[ "rates" := JObj {[ "THB" := JNum (Z2SF 36) ]} ]}) "THB" = Some (Z2SF 36).
Proof.
  edestruct (rate_field_accepts "TH") as [_ Hback]; [reflexivity|].
  apply Hback. eexists _, _. split; [reflexivity|]. split; reflexivity.
Defined.

Lemma getLifestyleAmount_own_witness :
  exists standard,
    tiers 25000 50000 120000 !! "standard" = Some standard /\
    NomadFlow.getLifestyleAmount (H := ascii_host) "TH" "premium" =
      VNumber (default standard (tiers 25000 50000 120000 !! "premium")).
Proof.
  apply (getLifestyleAmount_own (H := ascii_host) "TH" "premium").
  - reflexivity.
  - apply (bool_decide_unpack _). vm_compute. exact I.
Defined.

Lemma safetyScore_colours_witness :
  background (safetyScore (Z2SF 4)) = "#ffcc00".
Proof.
  destruct (safetyScore_colours 4) as [Hb _]; [lia | exact Hb].
Defined.

Lemma runCalculation_unknown_country_witness :
  Page.runCalculation (H := ascii_host) (H0 := decimal_browser) "US" FetchRejects example_page =
  (example_page, Throws TypeError).
Proof.
  apply (runCalculation_unknown_country (H := ascii_host) (H0 := decimal_browser)).
  - reflexivity.
  - apply (bool_decide_unpack _). vm_compute. exact I.
Defined.

Lemma runCalculation_never_throws_witness :
  snd (Page.runCalculation (H := ascii_host) (H0 := decimal_browser) "KR" FetchRejects
         example_page) = Returns tt.
Proof.
  eapply (runCalculation_never_throws (H := ascii_host) (H0 := decimal_browser) "KR").
  reflexivity.
Defined.

Lemma runCalculation_typed_rate_witness :
  Page.runCalculation (H := ascii_host) (H0 := decimal_browser) "VN" FetchRejects example_page =
  Page.runCalculation (H := ascii_host) (H0 := decimal_browser) "VN"
    (FetchResolves true (JsonResolves JNull)) example_page.
Proof.
  apply (runCalculation_typed_rate (H := ascii_host) (H0 := decimal_browser)); reflexivity.
Defined.

Lemma runCalculation_monthly_digits_witness :
  Page.runCalculation (H := ascii_host) (H0 := decimal_browser) "VN" FetchRejects
    (Page.set_monthlyInput "1.5" example_page) =
  (Page.set_monthlyInput "1.5"
     (fst (Page.runCalculation (H := ascii_host) (H0 := decimal_browser) "VN" FetchRejects
             (Page.set_monthlyInput "15" example_page))),
   snd (Page.runCalculation (H := ascii_host) (H0 := decimal_browser) "VN" FetchRejects
          (Page.set_monthlyInput "15" example_page))).
Proof.
  apply (runCalculation_monthly_digits (H := ascii_host) (H0 := decimal_browser)). reflexivity.
Defined.

Lemma runCalculation_whole_witness :
  let p' := fst (Page.runCalculation (H := ascii_host) (H0 := decimal_browser) "VN" FetchRejects
                   example_page) in
  Page.fill_background p' = "#ffcc00" /\ Page.rateInput p' = "25".
Proof.
  destruct (runCalculation_whole (H := ascii_host) (H0 := decimal_browser)
              "VN" _ FetchRejects example_page 1000 25 5000
              eq_refl eq_refl eq_refl eq_refl ltac:(lia) ltac:(lia) ltac:(lia) ltac:(lia))
    as (_ & Hr & _ & _ & Hb & _).
  split; [exact Hb | exact Hr].
Defined.

Lemma runCalculation_caches_rate_witness :
  let p := Page.set_rateInput "" example_page in
  let p' := fst (Page.runCalculation (H := ascii_host) (H0 := decimal_browser) "VN" FetchRejects p) in
  Page.rateInput p' = "24500" /\
  Page.runCalculation (H := ascii_host) (H0 := decimal_browser) "VN"
    (FetchResolves true (JsonResolves JNull)) p' = (p', Returns tt).
Proof.
  eapply (runCalculation_caches_rate (H := ascii_host) (H0 := decimal_browser) "VN" _
            FetchRejects _ (Page.set_rateInput "" example_page) (Z2SF 24500)); reflexivity.
Defined.

Lemma updateMonthlyFromLifestyle_round_trip_witness :
  let p' := fst (Page.updateMonthlyFromLifestyle (H := ascii_host) (H0 := decimal_browser)
                   "TH" "highlife" FetchRejects example_page) in
  Page.monthlyInput p' = "120000" /\ digits_only (Page.monthlyInput p') = "120000".
Proof.
  destruct (updateMonthlyFromLifestyle_round_trip (H := ascii_host) (H0 := decimal_browser)
              "TH" _ "highlife" 120000 FetchRejects example_page
              eq_refl eq_refl ltac:(lia) eq_refl)
    as (_ & Hm & Hd & _).
  split; [exact Hm | exact Hd].
Defined.

Lemma calculateLongevity_days_bound_witness :
  exists days,
    NomadFlow.daysApprox
      (NomadFlow.calculateLongevity (H := ascii_host)
         (VNumber (Z2SF 310000000)) (VNumber (Z2SF 25000000))) = Z2SF days /\
    0 <= days <= 30.
Proof.
  apply (calculateLongevity_days_bound (H := ascii_host) 310000000 25000000); lia.
Defined.

Lemma decimal_formatter_returns : formatter_returns (H0 := decimal_browser).
Proof. intros n. eexists. reflexivity. Qed.

Lemma convertClick_never_throws_witness :
  let click := BudgetPage.convertClick (H := ascii_host) (H0 := decimal_browser) FetchRejects
                 example_budget_page in
  snd click = Returns tt /\
  BudgetPage.amountInput (fst click) = Some "1000" /\
  BudgetPage.monthlyInput (fst click) = Some "5,000".
Proof.
  apply (convertClick_never_throws (H := ascii_host) (H0 := decimal_browser) FetchRejects
           example_budget_page).
  left. exact decimal_formatter_returns.
Defined.

Lemma doConvert_caches_rounded_rate_witness :
  let p := BudgetPage.set_rateInput "" example_budget_page in
  let p' := fst (BudgetPage.doConvert (H := ascii_host) (H0 := decimal_browser) FetchRejects p) in
  snd (BudgetPage.doConvert (H := ascii_host) (H0 := decimal_browser) FetchRejects p) =
    Returns (VNumber (Z2SF 24000000)) /\
  BudgetPage.rateInput p' = Some "24000" /\
  snd (BudgetPage.doConvert (H := ascii_host) (H0 := decimal_browser)
         (FetchResolves true (JsonResolves JNull)) p') = Returns (VNumber (Z2SF 24000000)).
Proof.
  apply (doConvert_caches_rounded_rate (H := ascii_host) (H0 := decimal_browser) FetchRejects
           (FetchResolves true (JsonResolves JNull))
           (BudgetPage.set_rateInput "" example_budget_page) "1000" "" (Z2SF 24000));
    try reflexivity.
  left. exact decimal_formatter_returns.
Defined.

Lemma convertClick_whole_witness :
  let click := BudgetPage.convertClick (H := ascii_host) (H0 := decimal_browser) FetchRejects
                 example_budget_page in
  snd click = Returns tt /\
  BudgetPage.vndResult (fst click) = Some "VND 25000" /\
  BudgetPage.fill (fst click) = Some ("83%", "#ffcc00").
Proof.
  destruct (convertClick_whole (H := ascii_host) (H0 := decimal_browser) FetchRejects
              example_budget_page "1000" 1000 25 5000 decimal_formatter_returns
              eq_refl eq_refl eq_refl eq_refl eq_refl ltac:(lia) ltac:(lia) ltac:(lia) ltac:(lia))
    as (Hr & _ & Hv & _ & Hf).
  split; [exact Hr|]. split.
  - destruct (Hv "" eq_refl) as (shown & Es & ->). injection Es as <-. reflexivity.
  - rewrite (Hf _ eq_refl). reflexivity.
Defined.

Lemma doLongevity_VND_budget_witness :
  exists res text,
    BudgetUtils.months res = Z2SF 6 /\ BudgetUtils.remainderVND res = Z2SF 0 /\
    BudgetPage.doLongevity (H := ascii_host) (H0 := decimal_browser) false false FetchRejects
      example_budget_page =
    (BudgetPage.set_longevityResult text example_budget_page, Returns (Some res)).
Proof.
  destruct (doLongevity_VND_budget (H := ascii_host) (H0 := decimal_browser) false false
              FetchRejects example_budget_page "30000 VND" "5,000" "---" 30000 5000
              decimal_formatter_returns eq_refl eq_refl eq_refl eq_refl eq_refl eq_refl
              ltac:(lia) ltac:(lia))
    as (res & remaining & _ & Hm & _ & Hr & E).
  exists res. eexists. split; [exact Hm|]. split; [exact Hr|]. exact E.
Defined.

Lemma doLongevity_foreign_budget_witness :
  let p := {| BudgetPage.currencySelect := Some "USD"; BudgetPage.rateInput := Some "25";
              BudgetPage.amountInput := Some "1000"; BudgetPage.vndResult := Some "";
              BudgetPage.budgetInput := Some "1000"; BudgetPage.monthlyInput := Some "5,000";
              BudgetPage.longevityResult := Some "---"; BudgetPage.fill := None |} in
  exists res,
    BudgetUtils.months res = Z2SF 5 /\ BudgetUtils.remainderVND res = Z2SF 0 /\
    snd (BudgetPage.doLongevity (H := ascii_host) (H0 := decimal_browser) false false
           FetchRejects p) = Returns (Some res).
Proof.
  intros p.
  destruct (doLongevity_foreign_budget (H := ascii_host) (H0 := decimal_browser) false false
              FetchRejects p "1000" "5,000" "---" 1000 25 5000
              decimal_formatter_returns eq_refl eq_refl eq_refl eq_refl eq_refl eq_refl eq_refl
              eq_refl ltac:(lia) ltac:(lia) ltac:(lia) ltac:(lia))
    as (res & Hm & _ & Hr & E & _).
  exists res. split; [exact Hm|]. split; [exact Hr|]. exact E.
Defined.
